(** * sublink-worker: the subscription cache manager

    A shallow embedding of [cacheManager.js] (the D1-backed cache with
    fetch-and-fallback) and of the key derivation of [scripts/cache.js],
    followed by the properties of the fetch-with-cache-fallback core.

    Conventions of the embedding.
    - A JavaScript string is a [string] holding the bytes of its UTF-8
      encoding, so [TextEncoder.encode] of a string is its list of bytes
      and the empty string is the only falsy one.
    - A Number is an integer or NaN ([JsNumber]); the arithmetic of the
      sources stays far below 2^53, where doubles are exact.
    - Asynchronous functions are sequential here: every [await] is a bind
      of the state-and-exception monad [M].
    - Console output is not part of the state; the arguments of a logging
      call are still evaluated, because evaluating them can throw. *)

From Stdlib Require Import ZArith Lia List Ascii String.
From stdpp Require Import gmap strings list fin_maps.

Local Open Scope string_scope.
Local Open Scope Z_scope.

(** ** JavaScript values *)

Inductive JsNumber : Type :=
| Int (z : Z)
| NaN.

Inductive JsVal : Type :=
| VUndefined
| VNull
| VBool (b : bool)
| VNum (n : JsNumber)
| VStr (s : string).

(** What a [throw] carries: [null] or an Error object with a name and a
    message. *)
Inductive Thrown : Type :=
| ThrownNull
| ThrownError (name message : string).

Inductive Completion (A : Type) : Type :=
| Normal (a : A)
| Throw (e : Thrown).

Arguments Normal {A} a.
Arguments Throw {A} e.

(** Truthiness, as used by [!url], [a || b] and [if (x)]. *)
Definition truthy (v : JsVal) : bool :=
  match v with
  | VUndefined | VNull => false
  | VBool b => b
  | VNum (Int z) => negb (z =? 0)
  | VNum NaN => false
  | VStr s => negb (String.eqb s "")
  end.

Definition truthy_number (n : JsNumber) : bool := truthy (VNum n).

(** ** Rendering numbers: [Number.prototype.toString(radix)] on integers *)

Definition digit_char (d : Z) : ascii :=
  if d <? 10 then ascii_of_N (Z.to_N (48 + d))   (* '0'..'9' *)
  else ascii_of_N (Z.to_N (87 + d)).            (* 'a'..'z' *)

(** Digits of [n >= 0], most significant first, pushed in front of [acc]. *)
Fixpoint digits_onto (radix : Z) (fuel : nat) (n : Z) (acc : string) : string :=
  let acc' := String (digit_char (n mod radix)) acc in
  match fuel with
  | O => acc'
  | S fuel' =>
      if n / radix =? 0 then acc' else digits_onto radix fuel' (n / radix) acc'
  end.

Definition nat_toString (radix : Z) (n : Z) : string :=
  digits_onto radix (Z.to_nat (Z.log2 n)) n "".

Definition int_toString (radix : Z) (z : Z) : string :=
  if z <? 0 then String "-" (nat_toString radix (- z)) else nat_toString radix z.

Definition Number_toString (radix : Z) (n : JsNumber) : string :=
  match n with
  | Int z => int_toString radix z
  | NaN => "NaN"
  end.

(** Reading a rendering back (used to state that the rendering is exact). *)
Definition digit_value (c : ascii) : Z :=
  let k := Z.of_N (N_of_ascii c) in
  if k <? 58 then k - 48 else k - 87.

Fixpoint digits_value (radix : Z) (s : string) (acc : Z) : Z :=
  match s with
  | EmptyString => acc
  | String c s' => digits_value radix s' (acc * radix + digit_value c)
  end.

(** ECMAScript's [ToString] on the values of [JsVal]; an integer is
    printed in decimal, as JavaScript does below 10^21. *)
Definition ToString (v : JsVal) : string :=
  match v with
  | VUndefined => "undefined"
  | VNull => "null"
  | VBool true => "true"
  | VBool false => "false"
  | VNum n => Number_toString 10 n
  | VStr s => s
  end.

(** ** 32-bit integer operators *)

Definition ToInt32 (z : Z) : Z := (z + 2 ^ 31) mod 2 ^ 32 - 2 ^ 31.

(** [a << k], for a shift count below 32 *)
Definition js_shl (a k : Z) : Z := ToInt32 (Z.shiftl (ToInt32 a) k).

(** [a & b] *)
Definition js_and (a b : Z) : Z := ToInt32 (Z.land (ToInt32 a) (ToInt32 b)).

(** ** Key derivation *)

Definition bytes_of_string (s : string) : list Z :=
  map (fun c => Z.of_N (N_of_ascii c)) (list_ascii_of_string s).

(** [new TextEncoder().encode(url)]: the argument is an optional string
    defaulting to the empty one, so [undefined] encodes to no bytes and
    every other value is converted by [ToString] first. *)
Definition TextEncoder_encode (url : JsVal) : list Z :=
  match url with
  | VUndefined => []
  | _ => bytes_of_string (ToString url)
  end.

(** One round of the loop body:
    [hash = ((hash << 5) - hash) + char; hash = hash & hash]. *)
Definition hash_step (hash char : Z) : Z :=
  let hash := (js_shl hash 5 - hash) + char in
  js_and hash hash.

(** [for (let i = 0; i < data.length; i++) { const char = <get i>; ... }]
    with [n] the number of rounds still to run. *)
Fixpoint hash_loop (get : nat -> Completion Z) (n i : nat) (hash : Z)
  : Completion Z :=
  match n with
  | O => Normal hash
  | S n' =>
      match get i with
      | Normal char => hash_loop get n' (S i) (hash_step hash char)
      | Throw e => Throw e
      end
  end.

(** [Math.abs(hash).toString(16)] *)
Definition key_of_hash (hash : Z) : string := int_toString 16 (Z.abs hash).

(** [data.charCodeAt(i)] on a [Uint8Array]: typed arrays have no such
    method, so the call of the undefined property throws. *)
Definition Uint8Array_charCodeAt (data : list Z) (i : nat) : Completion Z :=
  Throw (ThrownError "TypeError" "data.charCodeAt is not a function").

(** [data[i]] on a [Uint8Array]; out of range the element is [undefined],
    the sum is NaN and [hash & hash] makes it 0. *)
Definition Uint8Array_get (data : list Z) (i : nat) : option Z := data !! i.

(** [generateCacheKey] of [cacheManager.js]. *)
Definition generateCacheKey (url : JsVal) : Completion string :=
  let data := TextEncoder_encode url in
  match hash_loop (Uint8Array_charCodeAt data) (length data) 0%nat 0 with
  | Normal hash => Normal (key_of_hash hash)
  | Throw e => Throw e
  end.

Definition typeof_string (v : JsVal) : bool :=
  match v with
  | VStr _ => true
  | _ => false
  end.

Module Script.

(** The round of the loop with [data[i]] for the byte. *)
Definition step_at (data : list Z) (i : nat) (hash : Z) : Z :=
  match Uint8Array_get data i with
  | Some b => hash_step hash b
  | None => 0
  end.

Fixpoint hash_loop (data : list Z) (n i : nat) (hash : Z) : Z :=
  match n with
  | O => hash
  | S n' => hash_loop data n' (S i) (step_at data i hash)
  end.

(** [generateCacheKey] of [scripts/cache.js], announced there as the
    same logic as the one of [cacheManager.js]. *)
Definition generateCacheKey (url : JsVal) : string :=
  if negb (truthy url) || negb (typeof_string url) then "invalid-url"
  else
    let data := TextEncoder_encode url in
    key_of_hash (hash_loop data (length data) 0%nat 0).

End Script.

(** ** The world of the worker *)

(** A row of [subscription_cache]; the primary key [cache_key] is the key
    of the table map. The counters are integers: no statement of the
    sources stores NULL in them. *)
Record Row : Type := {
  row_url : string;
  row_content : string;
  created_at : Z;
  updated_at : Z;
  success_count : Z;
  fail_count : Z
}.

(** A D1 database: its table, and whether its statements currently fail
    (an unreachable or broken store makes every statement throw). *)
Record D1 : Type := {
  d1_fails : bool;
  d1_table : gmap string Row
}.

(** A [Headers] object: a map from lower-cased names to values, each
    value without white space around it. Only checked names and values
    get into the map ([Headers_set], [Headers_append] below). *)
Abbreviation Headers := (gmap string string).

Record Request : Type := {
  req_url : string;
  req_method : string;
  req_headers : Headers
}.

(** What a call of [fetch] is answered with: a rejection, a response with
    its status line and its body, or a response whose body cannot be read
    to its end ([text()] then rejects with the message given). *)
Inductive Reply : Type :=
| NetworkError (message : string)
| HttpResponse (status : Z) (statusText : string) (body : string)
| HttpUnreadable (status : Z) (statusText : string) (message : string).

(** A [Response]: [resp_text] is what [await response.text()] gives. *)
Record Response : Type := {
  resp_status : Z;
  resp_statusText : string;
  resp_text : Completion string
}.

(** The state threaded through the module: the module-level [dbBinding],
    the origin (its answer may depend on how many calls came before),
    the calls of [fetch] so far, oldest first, each with the url, the
    method and the headers it was made with, and the reading of
    [Date.now()]. A call is in the log whether or not the runtime let it
    out: [fetch] rejects a url it cannot parse without asking the origin
    ([runtime_answer] below). *)
Record World : Type := {
  dbBinding : option D1;
  origin : nat -> Request -> Reply;
  requests : list Request;
  clock : Z
}.

Definition set_dbBinding (db : option D1) (w : World) : World :=
  {| dbBinding := db; origin := origin w; requests := requests w; clock := clock w |}.

Definition add_request (r : Request) (w : World) : World :=
  {| dbBinding := dbBinding w; origin := origin w;
     requests := requests w ++ [r]; clock := clock w |}.

(** ** State and exceptions *)

Definition M (A : Type) : Type := World -> Completion A * World.

#[global] Instance M_ret : MRet M := fun A a w => (Normal a, w).

#[global] Instance M_bind : MBind M := fun A B f m w =>
  match m w with
  | (Normal a, w') => f a w'
  | (Throw e, w') => (Throw e, w')
  end.

Definition throw {A : Type} (e : Thrown) : M A := fun w => (Throw e, w).

(** [try { body } catch (error) { handler }] *)
Definition try_catch {A : Type} (body : M A) (handler : Thrown -> M A) : M A :=
  fun w =>
    match body w with
    | (Normal a, w') => (Normal a, w')
    | (Throw e, w') => handler e w'
    end.

Definition lift {A : Type} (c : Completion A) : M A := fun w => (c, w).

(** Code that throws or returns and touches no state. *)
#[global] Instance Completion_ret : MRet Completion := fun A a => Normal a.

#[global] Instance Completion_bind : MBind Completion := fun A B f c =>
  match c with
  | Normal a => f a
  | Throw e => Throw e
  end.

(** [new Error(message)] *)
Definition new_Error (message : string) : Thrown := ThrownError "Error" message.

(** [error.message]; reading a property of [null] throws. *)
Definition error_message (error : Thrown) : Completion string :=
  match error with
  | ThrownNull =>
      Throw (ThrownError "TypeError"
               "Cannot read properties of null (reading 'message')")
  | ThrownError _ message => Normal message
  end.

(** ** Headers *)

Definition lower_ascii (c : ascii) : ascii :=
  let k := N_of_ascii c in
  if ((65 <=? k) && (k <=? 90))%N then ascii_of_N (k + 32) else c.

Fixpoint lower (s : string) : string :=
  match s with
  | EmptyString => EmptyString
  | String c s' => String (lower_ascii c) (lower s')
  end.

(** HTTP white space: tab, line feed, carriage return and space. *)
Definition http_whitespace (c : ascii) : bool :=
  let k := N_of_ascii c in
  ((k =? 9) || (k =? 10) || (k =? 13) || (k =? 32))%N.

Fixpoint strip_leading (s : string) : string :=
  match s with
  | EmptyString => EmptyString
  | String c s' => if http_whitespace c then strip_leading s' else s
  end.

Fixpoint strip_trailing (s : string) : string :=
  match s with
  | EmptyString => EmptyString
  | String c s' =>
      match strip_trailing s' with
      | EmptyString => if http_whitespace c then EmptyString else String c EmptyString
      | rest => String c rest
      end
  end.

(** A value is normalized before it is checked and stored: the white
    space around it is dropped. *)
Definition normalize_value (value : string) : string :=
  strip_trailing (strip_leading value).

(** The characters of a header name: letters, digits and the marks of a
    token. *)
Definition is_tchar (c : ascii) : bool :=
  let k := N_of_ascii c in
  ((48 <=? k) && (k <=? 57))%N || ((65 <=? k) && (k <=? 90))%N
  || ((97 <=? k) && (k <=? 122))%N
  || existsb (Ascii.eqb c) (list_ascii_of_string "!#$%&'*+-.^_`|~").

Definition header_name_ok (name : string) : bool :=
  negb (String.eqb name "") && forallb is_tchar (list_ascii_of_string name).

(** A normalized value is a header value when it holds no NUL, line feed
    or carriage return, and is a byte string: no character beyond U+00FF,
    that is, no UTF-8 lead byte above 0xC3. *)
Definition header_value_ok (value : string) : bool :=
  forallb (fun c => let k := N_of_ascii c in
                    (negb ((k =? 0) || (k =? 10) || (k =? 13)) && (k <=? 195))%N)
    (list_ascii_of_string value).

(** What the [Headers] operations throw on a name or a value they do not
    accept: a [TypeError]; the wording of its message is the runtime's. *)
Definition invalid_header_name : Thrown :=
  ThrownError "TypeError" "Invalid header name".

Definition invalid_header_value : Thrown :=
  ThrownError "TypeError" "Invalid header value".

(** [headers.has(name)]; the only name asked for is 'user-agent', which is
    a header name. *)
Definition Headers_has (name : string) (h : Headers) : bool :=
  bool_decide (is_Some (h !! lower name)).

(** [headers.set(name, value)] *)
Definition Headers_set (name value : string) (h : Headers) : Completion Headers :=
  let value := normalize_value value in
  if negb (header_name_ok name) then Throw invalid_header_name
  else if negb (header_value_ok value) then Throw invalid_header_value
  else Normal (<[lower name := value]> h).

(** [append] joins the values of a repeated name with a comma. *)
Definition Headers_append (name value : string) (h : Headers) : Completion Headers :=
  let value := normalize_value value in
  if negb (header_name_ok name) then Throw invalid_header_name
  else if negb (header_value_ok value) then Throw invalid_header_value
  else
    match h !! lower name with
    | Some old => Normal (<[lower name := old ++ ", " ++ value]> h)
    | None => Normal (<[lower name := value]> h)
    end.

(** Filling a [Headers] object from the entries of a plain object, in
    their order; the first entry that is refused ends it. *)
Fixpoint Headers_fill (init : list (string * string)) (h : Headers)
  : Completion Headers :=
  match init with
  | [] => Normal h
  | (name, value) :: init' =>
      h' ← Headers_append name value h;
      Headers_fill init' h'
  end.

(** [new Headers(init)] for a plain object, given by its entries. *)
Definition Headers_new (init : list (string * string)) : Completion Headers :=
  Headers_fill init ∅.

(** The [headers] member of the init object of [fetch]: a [Headers]
    object, or a plain object that [fetch] turns into one. *)
Inductive HeadersInit : Type :=
| HeadersObject (h : Headers)
| PlainObject (entries : list (string * string)).

Definition fill_headers (init : HeadersInit) : Completion Headers :=
  match init with
  | HeadersObject h => Normal h
  | PlainObject entries => Headers_new entries
  end.

(** ** The user-agent pool *)

Record UaConfig : Type := {
  ua : string;
  ua_headers : list (string * string)
}.

Definition USER_AGENTS : list UaConfig := [
  {| ua := "FlClash/v0.8.74 clash-verge Platform/windows";
     ua_headers := [
       ("accept-encoding", "gzip, br");
       ("connection", "Keep-Alive");
       ("user-agent", "FlClash/v0.8.74 clash-verge Platform/windows");
       ("x-forwarded-proto", "https");
       ("x-real-ip", "47.91.20.160") ] |};
  {| ua := "curl/7.88.1"; ua_headers := [("user-agent", "curl/7.88.1")] |};
  {| ua := "ClashforWindows/0.20.31";
     ua_headers := [("user-agent", "ClashforWindows/0.20.31")] |};
  {| ua := "clash-verge/v1.7.4";
     ua_headers := [("user-agent", "clash-verge/v1.7.4")] |};
  {| ua := "Surge/5.2.0"; ua_headers := [("user-agent", "Surge/5.2.0")] |};
  {| ua := "Quantumult%20X/1.2.3";
     ua_headers := [("user-agent", "Quantumult%20X/1.2.3")] |};
  {| ua := "ShadowsocksX-NG/1.8.2";
     ua_headers := [("user-agent", "ShadowsocksX-NG/1.8.2")] |};
  {| ua := "Mozilla/5.0 (Windows NT 10.0; Win64; x64) AppleWebKit/537.36 Chrome/120.0.0.0 Safari/537.36";
     ua_headers := [
       ("user-agent", "Mozilla/5.0 (Windows NT 10.0; Win64; x64) AppleWebKit/537.36 Chrome/120.0.0.0 Safari/537.36");
       ("accept", "text/html,application/xhtml+xml,application/xml;q=0.9,*/*;q=0.8");
       ("accept-language", "en-US,en;q=0.5") ] |};
  {| ua := "Mozilla/5.0 (Macintosh; Intel Mac OS X 10_15_7) AppleWebKit/605.1.15 Version/17.2 Safari/605.1.15";
     ua_headers := [
       ("user-agent", "Mozilla/5.0 (Macintosh; Intel Mac OS X 10_15_7) AppleWebKit/605.1.15 Version/17.2 Safari/605.1.15");
       ("accept", "text/html,application/xhtml+xml,application/xml;q=0.9,*/*;q=0.8") ] |}
].

(** ** Fetching with retries *)

(** The [options] object of [fetchWithCache], handed on to
    [fetchWithRetry]: a field is [None] when the object has no such
    property. [headers] is a plain object, given by its entries. *)
Record Options : Type := {
  headers : option (list (string * string));
  maxRetries : option JsNumber
}.

(** The success range of a status. *)
Definition status_ok (status : Z) : bool := (200 <=? status) && (status <=? 299).

(** [response.ok] *)
Definition ok (response : Response) : bool := status_ok (resp_status response).

(** ** Urls the runtime can parse *)

(** [fetch] parses its url with no base. The parser drops the control
    characters and spaces in front, drops every tab and newline, and
    then wants a scheme: a letter, followed by letters, digits, plus,
    minus or dot, up to a colon. A string without one, the empty string
    for example, is no url. *)
Fixpoint drop_leading_c0 (s : string) : string :=
  match s with
  | EmptyString => EmptyString
  | String c s' => if (N_of_ascii c <=? 32)%N then drop_leading_c0 s' else s
  end.

Fixpoint remove_tab_newline (s : string) : string :=
  match s with
  | EmptyString => EmptyString
  | String c s' =>
      let k := N_of_ascii c in
      if ((k =? 9) || (k =? 10) || (k =? 13))%N then remove_tab_newline s'
      else String c (remove_tab_newline s')
  end.

Definition is_alpha (c : ascii) : bool :=
  let k := N_of_ascii c in
  ((65 <=? k) && (k <=? 90))%N || ((97 <=? k) && (k <=? 122))%N.

Definition is_scheme_char (c : ascii) : bool :=
  let k := N_of_ascii c in
  is_alpha c || ((48 <=? k) && (k <=? 57))%N
  || (k =? 43)%N || (k =? 45)%N || (k =? 46)%N.

Fixpoint scheme_ends (s : string) : bool :=
  match s with
  | EmptyString => false
  | String c s' =>
      if (N_of_ascii c =? 58)%N then true
      else if is_scheme_char c then scheme_ends s' else false
  end.

Definition has_scheme (url : string) : bool :=
  match remove_tab_newline (drop_leading_c0 url) with
  | EmptyString => false
  | String c s' => is_alpha c && scheme_ends s'
  end.

(** What the call number [n] of [fetch] is answered with: the rejection
    of the url when it has no scheme, and else what the origin decides,
    which may be a rejection as well. *)
Definition runtime_answer (w : World) (n : nat) (request : Request) : Reply :=
  if has_scheme (req_url request) then origin w n request
  else NetworkError "Invalid URL".

(** [fetch(url, { method, headers })]. The headers of the init object are
    made a [Headers] object first; then the call is answered, a
    rejection being a [TypeError]. *)
Definition fetch (url method : string) (init : HeadersInit) : M Response :=
  fun w =>
    match fill_headers init with
    | Throw e => (Throw e, w)
    | Normal hs =>
        let request := {| req_url := url; req_method := method; req_headers := hs |} in
        let w' := add_request request w in
        match runtime_answer w (length (requests w)) request with
        | NetworkError message => (Throw (ThrownError "TypeError" message), w')
        | HttpResponse status statusText body =>
            (Normal {| resp_status := status; resp_statusText := statusText;
                       resp_text := Normal body |}, w')
        | HttpUnreadable status statusText message =>
            (Normal {| resp_status := status; resp_statusText := statusText;
                       resp_text := Throw (ThrownError "TypeError" message) |}, w')
        end
    end.

(** The [headers] of the init object [{ method: 'GET', headers, ...options }]:
    the spread comes last, so a [headers] property of [options] replaces
    the [Headers] object built for the attempt. *)
Definition init_headers (built : Headers) (options : Options) : HeadersInit :=
  match headers options with
  | Some base => PlainObject base
  | None => HeadersObject built
  end.

(** The entries of [uaConfig.headers] other than the user-agent. *)
Fixpoint merge_entries (entries : list (string * string)) (h : Headers)
  : Completion Headers :=
  match entries with
  | [] => Normal h
  | (key, value) :: entries' =>
      if negb (String.eqb key "user-agent") then
        h' ← Headers_set key value h;
        merge_entries entries' h'
      else merge_entries entries' h
  end.

Definition merge_client_headers (config : UaConfig) (h : Headers)
  : Completion Headers :=
  merge_entries (ua_headers config) h.

(** The [Headers] object an attempt builds before it calls [fetch]; the
    constructor throws on a name or a value of [options.headers] that it
    does not accept. *)
Definition build_headers (config : UaConfig) (options : Options) (attempt : Z)
  : Completion Headers :=
  h ← Headers_new (default [] (headers options));
  h ← (if negb (Headers_has "user-agent" h)
       then Headers_set "user-agent" (ua config) h else Normal h);
  if attempt =? 1 then merge_client_headers config h else Normal h.

(** The object built, when it is built. *)
Definition attempt_headers (config : UaConfig) (options : Options) (attempt : Z)
  : Headers :=
  match build_headers config options attempt with
  | Normal h => h
  | Throw _ => ∅
  end.

(** The body of the [try] block of one attempt. The pool is not empty,
    so [uaConfig] is always found ([pool_lookup] below). *)
Definition attempt_body (url : string) (options : Options) (attempt : Z)
  : M string :=
  let uaIndex := (attempt - 1) mod Z.of_nat (length USER_AGENTS) in
  match USER_AGENTS !! Z.to_nat uaIndex with
  | None =>
      throw (ThrownError "TypeError"
               "Cannot read properties of undefined (reading 'ua')")
  | Some uaConfig =>
      built ← lift (build_headers uaConfig options attempt);
      response ← fetch url "GET" (init_headers built options);
      if ok response then lift (resp_text response)
      else throw (new_Error ("HTTP " ++ int_toString 10 (resp_status response)
                               ++ ": " ++ resp_statusText response))
  end.

(** [for (let attempt = 1; attempt <= maxRetries; attempt++) { try .. catch .. }]
    followed by [throw lastError]; [remaining] counts the values of
    [attempt] that are still at most [maxRetries]. *)
Fixpoint retry_loop (url : string) (options : Options)
    (remaining : nat) (attempt : Z) (lastError : Thrown) : M string :=
  match remaining with
  | O => throw lastError
  | S remaining' =>
      fun w =>
        match attempt_body url options attempt w with
        | (Normal content, w') => (Normal content, w')
        | (Throw error, w') =>
            (* lastError = error; console.log(..., error.message) *)
            match error_message error with
            | Normal _ => retry_loop url options remaining' (attempt + 1) error w'
            | Throw e => (Throw e, w')
            end
        end
  end.

(** How many integers [attempt >= 1] satisfy [attempt <= maxRetries]. *)
Definition rounds (maxRetries : JsNumber) : nat :=
  match maxRetries with
  | Int m => Z.to_nat m
  | NaN => O
  end.

(** [fetchWithRetry(url, options = {}, maxRetries = 3)]; an omitted
    [maxRetries] is [None]. *)
Definition fetchWithRetry (url : string) (options : Options)
    (maxRetries : option JsNumber) : M string :=
  let maxRetries := default (Int 3) maxRetries in
  retry_loop url options (rounds maxRetries) 1 ThrownNull.

(** ** The cache in D1 *)

Definition getDb : M (option D1) := fun w => (Normal (dbBinding w), w).

(** [setDbBinding(env)], with [env.SUBSCRIPTION_DB] when there is one. *)
Definition setDbBinding (SUBSCRIPTION_DB : option D1) : M unit :=
  fun w =>
    match SUBSCRIPTION_DB with
    | Some db => (Normal tt, set_dbBinding (Some db) w)
    | None => (Normal tt, w)
    end.

(** Running a statement against the bound database. *)
Definition d1_query {A : Type} (db : D1) (q : gmap string Row -> A) : M A :=
  if d1_fails db then throw (new_Error "D1_ERROR") else mret (q (d1_table db)).

Definition d1_run (db : D1) (f : gmap string Row -> gmap string Row) : M unit :=
  if d1_fails db then throw (new_Error "D1_ERROR")
  else fun w =>
    (Normal tt,
     set_dbBinding
       (Some {| d1_fails := d1_fails db; d1_table := f (d1_table db) |}) w).

(** [Date.now()] *)
Definition Date_now : M Z := fun w => (Normal (clock w), w).

(** [new Date(t).toISOString()], whose string is only logged: a time
    value beyond 8.64e15 ms is invalid and makes it throw. *)
Definition Date_toISOString (t : Z) : M unit :=
  if Z.abs t <=? 8640000000000000 then mret tt
  else throw (ThrownError "RangeError" "Invalid time value").

(** The object [getCachedContent] returns on a hit. *)
Record Cached : Type := {
  cached_content : string;
  successCount : Z;
  failCount : Z;
  createdAt : Z
}.

Definition getCachedContent (cacheKey : string) : M (option Cached) :=
  db ← getDb;
  match db with
  | None => mret None
  | Some db =>
      try_catch
        (result ← d1_query db (fun table => table !! cacheKey);
         match result with
         | Some row =>
             _ ← Date_toISOString (created_at row);
             mret (Some {| cached_content := row_content row;
                           successCount := success_count row;
                           failCount := fail_count row;
                           createdAt := created_at row |})
         | None => mret None
         end)
        (fun _ => mret None)
  end.

(** The [INSERT OR REPLACE] of [saveToCache]: both counters are read from
    the row the statement replaces. *)
Definition upsert (cacheKey url content : string) (now : Z)
    (table : gmap string Row) : gmap string Row :=
  <[cacheKey :=
      {| row_url := url; row_content := content;
         created_at := now; updated_at := now;
         success_count :=
           default 1 ((fun row => success_count row + 1) <$> table !! cacheKey);
         fail_count := default 0 (fail_count <$> table !! cacheKey) |}]> table.

Definition saveToCache (cacheKey url content : string) : M bool :=
  db ← getDb;
  match db with
  | None => mret false
  | Some db =>
      try_catch
        (now ← Date_now;
         _ ← d1_run db (upsert cacheKey url content now);
         mret true)
        (fun _ => mret false)
  end.

(** The [UPDATE ... WHERE cache_key = ?] of [recordFailAttempt]. *)
Definition bump_fail (cacheKey : string) (now : Z)
    (table : gmap string Row) : gmap string Row :=
  alter (fun row =>
           {| row_url := row_url row; row_content := row_content row;
              created_at := created_at row; updated_at := now;
              success_count := success_count row;
              fail_count := fail_count row + 1 |}) cacheKey table.

Definition recordFailAttempt (cacheKey : string) : M bool :=
  db ← getDb;
  match db with
  | None => mret false
  | Some db =>
      try_catch
        (now ← Date_now;
         _ ← d1_run db (bump_fail cacheKey now);
         mret true)
        (fun _ => mret false)
  end.

Definition clearCache (cacheKey : string) : M bool :=
  db ← getDb;
  match db with
  | None => mret false
  | Some db =>
      try_catch (_ ← d1_run db (delete cacheKey); mret true) (fun _ => mret false)
  end.

Definition clearAllCache : M bool :=
  db ← getDb;
  match db with
  | None => mret false
  | Some db =>
      try_catch (_ ← d1_run db (fun _ => ∅); mret true) (fun _ => mret false)
  end.

(** [a || b] on an optional numeric property. *)
Definition or_number (a : option JsNumber) (b : JsNumber) : JsNumber :=
  match a with
  | Some n => if truthy_number n then n else b
  | None => b
  end.

(** A plain result object, by its properties in the order written. *)
Abbreviation JsObject := (list (string * JsVal)).

(** [SELECT COUNT( * ) as count FROM subscription_cache] *)
Definition count_all (table : gmap string Row) : JsNumber :=
  Int (Z.of_nat (size table)).

(** [SELECT COUNT( * ) as count FROM subscription_cache WHERE success_count > 0] *)
Definition count_with_success (table : gmap string Row) : JsNumber :=
  Int (Z.of_nat (size (filter (fun kv => 0 < success_count kv.2) table))).

Definition getCacheStats : M JsObject :=
  db ← getDb;
  match db with
  | None => mret [("error", VStr "D1 database not initialized")]
  | Some db =>
      try_catch
        (total ← d1_query db count_all;
         withSuccess ← d1_query db count_with_success;
         mret [("totalCached", VNum (or_number (Some total) (Int 0)));
               ("withSuccess", VNum (or_number (Some withSuccess) (Int 0)))])
        (fun error =>
           message ← lift (error_message error);
           mret [("error", VStr message)])
  end.

(** ** The statistics query of [scripts/cache.js] *)

(** SQLite's [length] of a text counts the characters in front of the
    first NUL: the bytes there that do not continue a UTF-8 sequence. *)
Fixpoint until_nul (bytes : list Z) : list Z :=
  match bytes with
  | [] => []
  | b :: bytes' => if b =? 0 then [] else b :: until_nul bytes'
  end.

Definition sql_length (s : string) : Z :=
  Z.of_nat (length (filter (fun b => Z.land b 192 ≠ 128)
                      (until_nul (bytes_of_string s)))).

(** [SUM] of a column: NULL over no row. *)
Definition sql_sum (f : Row -> Z) (table : gmap string Row) : option Z :=
  match (map_to_list table).*2 with
  | [] => None
  | rows => Some (foldr (fun row acc => f row + acc) 0 rows)
  end.

(** The row selected by [showStats]:
    [COUNT( * ), SUM(success_count), SUM(fail_count), SUM(length(content))]. *)
Record StatsRow : Type := {
  total : Z;
  total_success : option Z;
  total_fail : option Z;
  total_size : option Z
}.

Definition showStats_query (table : gmap string Row) : StatsRow :=
  {| total := Z.of_nat (size table);
     total_success := sql_sum success_count table;
     total_fail := sql_sum fail_count table;
     total_size := sql_sum (fun row => sql_length (row_content row)) table |}.

(** ** Fetching with the cache as fallback *)

Record Result : Type := {
  content : option string;     (* [None] is [null] *)
  fromCache : bool;
  success : bool;
  warning : option string;     (* [None]: the property is absent *)
  error : option string
}.

Definition fetchWithCache (url : string) (options : Options) : M Result :=
  cacheKey ← lift (generateCacheKey (VStr url));
  let maxRetries := or_number (maxRetries options) (Int 3) in
  try_catch
    (content ← fetchWithRetry url options (Some maxRetries);
     _ ← saveToCache cacheKey url content;
     mret {| content := Some content; fromCache := false; success := true;
             warning := None; error := None |})
    (fun error =>
       _ ← lift (error_message error);
       cached ← getCachedContent cacheKey;
       let no_cache :=
         message ← lift (error_message error);
         mret {| content := None; fromCache := false; success := false;
                 warning := None; error := Some message |} in
       match cached with
       | Some cached =>
           if truthy (VStr (cached_content cached)) then
             mret {| content := Some (cached_content cached);
                     fromCache := true; success := true;
                     warning := Some "Remote fetch failed, using cached content";
                     error := None |}
           else no_cache
       | None => no_cache
       end).

(** ** Worlds for running the definitions *)

Definition always_fails (message : string) : nat -> Request -> Reply :=
  fun _ _ => NetworkError message.

Definition always_status (status : Z) (statusText body : string)
  : nat -> Request -> Reply :=
  fun _ _ => HttpResponse status statusText body.

Definition world_of (db : option D1) (o : nat -> Request -> Reply) (t : Z) : World :=
  {| dbBinding := db; origin := o; requests := []; clock := t |}.

Definition healthy (table : gmap string Row) : D1 :=
  {| d1_fails := false; d1_table := table |}.

Definition no_options : Options := {| headers := None; maxRetries := None |}.

(** An origin that is down, one that answers 503, and one that answers
    200 with body X, each with no store bound. *)
Definition w_down : World := world_of None (always_fails "connection refused") 0.

Definition w_503 : World :=
  world_of None (always_status 503 "Service Unavailable" "") 0.

Definition w_200 : World := world_of None (always_status 200 "OK" "X") 0.


(** Options whose [headers] hold a name with a space in it, which is no
    header name. *)
Definition refused_headers : Options :=
  {| headers := Some [("X A", "v")]; maxRetries := None |}.

(** ** Vocabulary of the statements *)

(** The digits a lower-case hexadecimal rendering is made of. *)
Definition is_lower_hex (c : ascii) : Prop :=
  In c (list_ascii_of_string "0123456789abcdef").

(** The accumulator without wrap-around: [acc * 31 + byte] over the bytes. *)
Definition poly31 (data : list Z) : Z :=
  fold_left (fun acc b => acc * 31 + b) data 0.

(** The identity the pool gives to an attempt: [pool[(attempt - 1) mod N]]. *)
Definition pool_index (attempt : Z) : nat :=
  Z.to_nat ((attempt - 1) mod Z.of_nat (length USER_AGENTS)).

Definition selected_identity (attempt : Z) : UaConfig :=
  nth (pool_index attempt) USER_AGENTS {| ua := ""; ua_headers := [] |}.

(** A name and a value the [Headers] operations accept. *)
Definition entry_ok (name value : string) : bool :=
  header_name_ok name && header_value_ok (normalize_value value).

(** A pool entry whose user-agent and headers are all accepted. *)
Definition config_ok (config : UaConfig) : bool :=
  entry_ok "user-agent" (ua config)
  && forallb (fun kv => entry_ok kv.1 kv.2) (ua_headers config).

(** The calls of [fetch] that the runtime did not reject for their url:
    those that went to the origin. *)
Definition sent (w : World) : list Request :=
  List.filter (fun r => has_scheme (req_url r)) (requests w).

(** [options.headers] is absent or accepted by the [Headers]
    constructor. *)
Definition well_formed (options : Options) : Prop :=
  exists h, Headers_new (default [] (headers options)) = Normal h.

(** The headers [fetch] makes of the init object, when it accepts them. *)
Definition sent_headers (init : HeadersInit) : Headers :=
  match fill_headers init with
  | Normal h => h
  | Throw _ => ∅
  end.

(** The call of [fetch] an attempt makes when its headers are built. *)
Definition attempt_request (url : string) (options : Options) (attempt : Z)
  : Request :=
  {| req_url := url; req_method := "GET";
     req_headers :=
       sent_headers
         (init_headers (attempt_headers (selected_identity attempt) options attempt)
            options) |}.

(** The error an attempt ends with on a given answer, if it fails. *)
Definition failure_of (r : Reply) : option Thrown :=
  match r with
  | NetworkError message => Some (ThrownError "TypeError" message)
  | HttpResponse status statusText _ =>
      if status_ok status then None
      else Some (new_Error ("HTTP " ++ int_toString 10 status ++ ": " ++ statusText))
  | HttpUnreadable status statusText message =>
      if status_ok status then Some (ThrownError "TypeError" message)
      else Some (new_Error ("HTTP " ++ int_toString 10 status ++ ": " ++ statusText))
  end.

(** How an attempt ends on a given answer. *)
Definition outcome_of (r : Reply) : Completion string :=
  match r with
  | NetworkError message => Throw (ThrownError "TypeError" message)
  | HttpResponse status statusText body =>
      if status_ok status then Normal body
      else Throw (new_Error ("HTTP " ++ int_toString 10 status ++ ": " ++ statusText))
  | HttpUnreadable status statusText message =>
      if status_ok status then Throw (ThrownError "TypeError" message)
      else Throw (new_Error ("HTTP " ++ int_toString 10 status ++ ": " ++ statusText))
  end.

(** The world after some more calls of [fetch]. *)
Definition add_requests (rs : list Request) (w : World) : World :=
  {| dbBinding := dbBinding w; origin := origin w;
     requests := requests w ++ rs; clock := clock w |}.

(** The answer to attempt number [attempt] of a call that starts in [w],
    when every attempt before it made its call of [fetch]. *)
Definition reply_to (w : World) (url : string) (options : Options) (attempt : Z)
  : Reply :=
  runtime_answer w (length (requests w) + Z.to_nat (attempt - 1))%nat
    (attempt_request url options attempt).

(** Each of the first [n] attempts of a call from [w] is answered with a
    failure: a rejection, a status outside the success range, or a body
    that cannot be read. *)
Definition fails_first (w : World) (url : string) (options : Options) (n : Z)
  : Prop :=
  ∀ attempt, 1 <= attempt <= n → failure_of (reply_to w url options attempt) ≠ None.

(** The calls of attempts [1..n], in order. *)
Definition attempt_requests (url : string) (options : Options) (n : nat)
  : list Request :=
  map (fun k => attempt_request url options (Z.of_nat (S k))) (seq 0 n).

(** A time value [toISOString] accepts. *)
Definition valid_time (t : Z) : Prop := Z.abs t <= 8640000000000000.

(** The store is bound and its statements run. *)
Definition store_ready (w : World) (table : gmap string Row) : Prop :=
  dbBinding w = Some (healthy table).

(** The table of the bound store, empty when none is bound. *)
Definition table_of (w : World) : gmap string Row :=
  match dbBinding w with
  | Some db => d1_table db
  | None => ∅
  end.

(** The row the store can deliver for a key: none when no store is bound,
    when its statements fail or when the table has no such row. *)
Definition stored_entry (w : World) (key : string) : option Row :=
  match dbBinding w with
  | Some db => if d1_fails db then None else d1_table db !! key
  | None => None
  end.

(** The object [getCachedContent] makes of a row. *)
Definition cached_of (row : Row) : Cached :=
  {| cached_content := row_content row; successCount := success_count row;
     failCount := fail_count row; createdAt := created_at row |}.

(** Whether a statement can run: a store is bound and does not fail. *)
Definition store_usable (w : World) : bool :=
  match dbBinding w with
  | Some db => negb (d1_fails db)
  | None => false
  end.

(** The content [fetchWithCache] can fall back on: the stored content
    when [getCachedContent] delivers the entry and it is not empty. *)
Definition fallback_content (w : World) (key : string) : option string :=
  match stored_entry w key with
  | Some row =>
      if (Z.abs (created_at row) <=? 8640000000000000)
         && negb (String.eqb (row_content row) "")
      then Some (row_content row) else None
  | None => None
  end.

(** The three terminal results of [fetchWithCache]. *)
Definition fresh_result (body : string) : Result :=
  {| content := Some body; fromCache := false; success := true;
     warning := None; error := None |}.

Definition fallback_result (stored : string) : Result :=
  {| content := Some stored; fromCache := true; success := true;
     warning := Some "Remote fetch failed, using cached content";
     error := None |}.

Definition failure_result (message : string) : Result :=
  {| content := None; fromCache := false; success := false;
     warning := None; error := Some message |}.

(** The message an error object carries. *)
Definition message_of (e : Thrown) : option string :=
  match e with
  | ThrownError _ message => Some message
  | ThrownNull => None
  end.

(** The message of the failure an answer causes. *)
Definition failure_message (r : Reply) : option string :=
  failure_of r ≫= message_of.

(** A table with one entry, and worlds around it. *)
Definition one_row (key : string) (row : Row) : gmap string Row := {[ key := row ]}.

Definition row_v1 : Row :=
  {| row_url := ""; row_content := "PROXYLIST_V1"; created_at := 1000;
     updated_at := 1000; success_count := 5; fail_count := 2 |}.

Definition w_store (table : gmap string Row) : World :=
  world_of (Some (healthy table)) (always_fails "connection refused") 2000.

(** The statistics object as the specification words it: the entry count
    and the sums of the success counters, of the failure counters and of
    the content sizes. *)
Definition stats_as_specified (table : gmap string Row) : JsObject :=
  let rows := (map_to_list table).*2 in
  [("totalEntries", VNum (Int (Z.of_nat (length rows))));
   ("totalSuccess", VNum (Int (foldr (fun row acc => success_count row + acc) 0 rows)));
   ("totalFail", VNum (Int (foldr (fun row acc => fail_count row + acc) 0 rows)));
   ("totalBytes",
    VNum (Int (foldr (fun row acc => Z.of_nat (String.length (row_content row)) + acc)
                 0 rows)))].

(** Reading a property of a result object. *)
Fixpoint property (name : string) (o : JsObject) : option JsVal :=
  match o with
  | [] => None
  | (k, v) :: o' => if String.eqb k name then Some v else property name o'
  end.

(** [n] consecutive calls of [recordFailAttempt] on a key. *)
Fixpoint recordFailAttempt_times (n : nat) (cacheKey : string) : M unit :=
  match n with
  | O => mret tt
  | S n' => _ ← recordFailAttempt cacheKey; recordFailAttempt_times n' cacheKey
  end.

(** ** The worker: routes around the cache *)

(** The line feed, the separator of [split('\n')] and [join('\n')]. *)
Definition LF : ascii := ascii_of_N 10.

(** [s.split(sep)] for a one-character separator. *)
Fixpoint split_on (sep : ascii) (s : string) : list string :=
  match s with
  | EmptyString => [EmptyString]
  | String c s' =>
      if Ascii.eqb c sep then EmptyString :: split_on sep s'
      else match split_on sep s' with
           | part :: parts => String c part :: parts
           | [] => [String c EmptyString]
           end
  end.

(** [parts.join('\n')] *)
Definition join_lines (parts : list string) : string :=
  String.concat (String LF EmptyString) parts.

(** What the worker answers: status, body and the headers it sets
    itself. *)
Record WorkerResponse : Type := {
  response_status : Z;
  response_body : string;
  response_headers : list (string * string)
}.

(** [url.searchParams.get('cache') !== 'false'] *)
Definition cacheEnabled_of (cache : option string) : bool :=
  match cache with
  | Some value => negb (String.eqb value "false")
  | None => true
  end.

(** What [tryDecodeSubscriptionLines] of utils.js returns: an array, or
    a single value that the caller wraps in an array. *)
Inductive Decoded : Type :=
| DecodedArray (items : list JsVal)
| DecodedValue (v : JsVal).

(** [trimmedProxy.startsWith('http://') || trimmedProxy.startsWith('https://')] *)
Definition is_remote (s : string) : bool :=
  String.prefix "http://" s || String.prefix "https://" s.

Section Xray.

(** [String.prototype.trim], and the two helpers of utils.js, which is
    not part of the sources at hand: they are taken as they come. The
    first argument of the decoder is the text, [None] for [null]; the
    second tells whether [{ decodeUriComponent: true }] was passed. *)
Context (trim : string -> string)
        (tryDecodeSubscriptionLines : option string -> bool -> Completion Decoded)
        (encodeBase64 : string -> Completion string).

(** [if (!Array.isArray(processed)) processed = [processed]] followed by
    [processed.filter(item => typeof item === 'string' && item.trim() !== '')] *)
Definition kept_items (processed : Decoded) : list string :=
  let items := match processed with
               | DecodedArray items => items
               | DecodedValue v => [v]
               end in
  omap (fun item =>
          match item with
          | VStr s => if negb (String.eqb (trim s) "") then Some s else None
          | _ => None
          end) items.

(** The options [{ headers: { 'User-Agent': userAgent } }] handed to
    [fetchWithCache]. *)
Definition xray_options (userAgent : string) : Options :=
  {| headers := Some [("User-Agent", userAgent)]; maxRetries := None |}.

(** One round of [for (const proxy of proxylist)]; [final] is
    [finalProxyList] before the round, the value returned is the list
    after it. *)
Definition xray_proxy (cacheEnabled : bool) (userAgent : string) (hs : Headers)
    (final : list string) (proxy : string) : M (list string) :=
  let trimmedProxy := trim proxy in
  if negb (truthy (VStr trimmedProxy)) then mret final
  else if is_remote trimmedProxy then
    try_catch
      (if cacheEnabled then
         result ← fetchWithCache trimmedProxy (xray_options userAgent);
         if negb (success result) then mret final
         else
           processed ← lift (tryDecodeSubscriptionLines (content result) true);
           mret (final ++ kept_items processed)%list
       else
         response ← fetch trimmedProxy "GET" (HeadersObject hs);
         if negb (ok response) then mret final
         else
           text ← lift (resp_text response);
           processed ← lift (tryDecodeSubscriptionLines (Some text) true);
           mret (final ++ kept_items processed)%list)
      (fun _ => mret final)
  else
    processed ← lift (tryDecodeSubscriptionLines (Some trimmedProxy) false);
    mret (final ++ kept_items processed)%list.

Fixpoint xray_proxies (cacheEnabled : bool) (userAgent : string) (hs : Headers)
    (proxylist : list string) (final : list string) : M (list string) :=
  match proxylist with
  | [] => mret final
  | proxy :: rest =>
      final' ← xray_proxy cacheEnabled userAgent hs final proxy;
      xray_proxies cacheEnabled userAgent hs rest final'
  end.

Definition missing_config : WorkerResponse :=
  {| response_status := 400; response_body := "Missing config parameter";
     response_headers := [] |}.

(** The branch of [handleRequest] for a path that starts with /xray;
    [config], [ua] and [cache] are what [url.searchParams.get] returns.
    The [Headers] object is made in front of the loop and outside any
    [try]: a [ua] the constructor refuses ends the branch with its
    [TypeError]. *)
Definition handle_xray (config ua cache : option string) : M WorkerResponse :=
  let cacheEnabled := cacheEnabled_of cache in
  match config with
  | None => mret missing_config
  | Some inputString =>
      if negb (truthy (VStr inputString)) then mret missing_config
      else
        let proxylist := split_on LF inputString in
        let userAgent :=
          match ua with
          | Some value => if truthy (VStr value) then value else "curl/7.74.0"
          | None => "curl/7.74.0"
          end in
        hs ← lift (Headers_new [("User-Agent", userAgent)]);
        final ← xray_proxies cacheEnabled userAgent hs proxylist [];
        let finalString := join_lines final in
        if negb (truthy (VStr finalString)) then mret missing_config
        else
          encoded ← lift (encodeBase64 finalString);
          mret {| response_status := 200; response_body := encoded;
                  response_headers :=
                    [("content-type", "application/json; charset=utf-8")] |}
  end.

End Xray.

(** The call of [fetch] the uncached branch of /xray makes for a line. *)
Definition direct_request (hs : Headers) (trimmedProxy : string) : Request :=
  {| req_url := trimmedProxy; req_method := "GET"; req_headers := hs |}.

(** The user-agent /xray uses: the [ua] parameter unless it is absent or
    empty. *)
Definition chosen_userAgent (ua : option string) : string :=
  match ua with
  | Some value => if truthy (VStr value) then value else "curl/7.74.0"
  | None => "curl/7.74.0"
  end.

(** Stand-ins for the helpers of utils.js when the definitions are run:
    no trimming, a decoder that hands the text back as the only line, an
    encoder that leaves the text as it is. *)
Definition no_trim (s : string) : string := s.

Definition one_line_decoder (text : option string) (decodeUriComponent : bool)
  : Completion Decoded :=
  Normal (DecodedValue (match text with Some s => VStr s | None => VNull end)).

Definition plain_encoder (s : string) : Completion string := Normal s.

(** A config of two lines: a local one and a remote one. *)
Definition two_line_config : string :=
  "vmess://abc" ++ String LF "https://a.test/sub".

(** [{ ...base, ...extra }]: a property of [extra] replaces the one of
    the same name or is added at the end. *)
Fixpoint set_property (name : string) (v : JsVal) (o : JsObject) : JsObject :=
  match o with
  | [] => [(name, v)]
  | (k, old) :: o' =>
      if String.eqb k name then (k, v) :: o' else (k, old) :: set_property name v o'
  end.

Definition spread (base extra : JsObject) : JsObject :=
  fold_left (fun o kv => set_property kv.1 kv.2 o) extra base.

(** The object the /cache-stats route serializes:
    [{ d1Initialized: true, ...stats }]. *)
Definition cache_stats_body : M JsObject :=
  stats ← getCacheStats;
  mret (spread [("d1Initialized", VBool true)] stats).

(** The object the /cache-clear route serializes. *)
Definition cache_clear_body : M JsObject :=
  success' ← clearAllCache;
  mret [("success", VBool success');
        ("message",
         VStr (if success' then "All cache cleared" else "Failed to clear cache"))].

(** The routes of [handleRequest], in the order of its [if] chain. *)
Inductive Route : Type :=
| RouteForm | RouteBuilder | RouteShorten | RouteShortenV2 | RouteShortLink
| RouteXray | RouteFavicon | RouteConfig | RouteResolve
| RouteCacheStats | RouteCacheClear | RouteNotFound.

Definition is_short_link (pathname : string) : bool :=
  String.prefix "/b/" pathname || String.prefix "/c/" pathname
  || String.prefix "/x/" pathname || String.prefix "/s/" pathname.

Definition route (method pathname : string) : Route :=
  if String.eqb method "GET" && String.eqb pathname "/" then RouteForm
  else if String.prefix "/singbox" pathname || String.prefix "/clash" pathname
          || String.prefix "/surge" pathname then RouteBuilder
  else if String.eqb pathname "/shorten" then RouteShorten
  else if String.eqb pathname "/shorten-v2" then RouteShortenV2
  else if is_short_link pathname then RouteShortLink
  else if String.prefix "/xray" pathname then RouteXray
  else if String.eqb pathname "/favicon.ico" then RouteFavicon
  else if String.eqb pathname "/config" then RouteConfig
  else if String.eqb pathname "/resolve" then RouteResolve
  else if String.eqb pathname "/cache-stats" then RouteCacheStats
  else if String.eqb pathname "/cache-clear" then RouteCacheClear
  else RouteNotFound.

(** What a branch ends with: a response built in place, or
    [Response.redirect(url, status)]. *)
Inductive Reaction : Type :=
| Respond (r : WorkerResponse)
| RedirectTo (url : string) (status : Z).

(** The branch for the short links /b/, /c/, /x/ and /s/. [kv_get] is
    [await env.SUBLINK_KV.get(shortCode)]: it answers the stored value
    or [null], or it throws (the binding refuses an empty key and a key
    that is too long, and the store may fail); the [await] is in no
    [try], so what it throws ends the branch. [t_shortUrlNotFound] is
    the localized text of the 404. A path of this branch always has a
    third part for [split('/')[2]]. The template literal prints a [null]
    parameter as "null", so [originalUrl] is a string in every case. *)
Definition short_link (kv_get : string -> Completion (option string))
    (t_shortUrlNotFound : string) (origin' pathname : string)
  : Completion Reaction :=
  let shortCode := nth 2 (split_on "/" pathname) "undefined" in
  originalParam ← kv_get shortCode;
  let printed := match originalParam with
                 | Some value => value
                 | None => ToString VNull
                 end in
  let originalUrl : JsVal :=
    if String.prefix "/b/" pathname then VStr (origin' ++ "/singbox" ++ printed)
    else if String.prefix "/c/" pathname then VStr (origin' ++ "/clash" ++ printed)
    else if String.prefix "/x/" pathname then VStr (origin' ++ "/xray" ++ printed)
    else if String.prefix "/s/" pathname then VStr (origin' ++ "/surge" ++ printed)
    else VUndefined in
  match originalUrl with
  | VNull =>
      Normal (Respond {| response_status := 404; response_body := t_shortUrlNotFound;
                         response_headers := [] |})
  | _ => Normal (RedirectTo (ToString originalUrl) 302)
  end.

(** The service path a short link stands for. *)
Definition service_of (pathname : string) : string :=
  if String.prefix "/b/" pathname then "/singbox"
  else if String.prefix "/c/" pathname then "/clash"
  else if String.prefix "/x/" pathname then "/xray"
  else "/surge".

(** ** The database initialization *)

(** The module-level state beside the world: the flag [dbInitialized]. *)
Record ModuleState : Type := {
  world : World;
  dbInitialized : bool
}.

(** The template literal [CREATE_TABLE_SQL], line by line. *)
Definition CREATE_TABLE_SQL : string :=
  String LF
    (join_lines
       ["    CREATE TABLE IF NOT EXISTS subscription_cache (";
        "        cache_key TEXT PRIMARY KEY,";
        "        url TEXT NOT NULL,";
        "        content TEXT NOT NULL,";
        "        created_at INTEGER NOT NULL,";
        "        updated_at INTEGER NOT NULL,";
        "        success_count INTEGER DEFAULT 1,";
        "        fail_count INTEGER DEFAULT 0";
        "    )";
        ""]).

(** How many parentheses a line opens and does not close, those inside
    quotes apart. *)
Fixpoint open_parentheses (line : string) (quoted : bool) (depth : Z) : Z :=
  match line with
  | EmptyString => depth
  | String c line' =>
      if Ascii.eqb c "'" then open_parentheses line' (negb quoted) depth
      else if quoted then open_parentheses line' quoted depth
      else if Ascii.eqb c "(" then open_parentheses line' quoted (depth + 1)
      else if Ascii.eqb c ")" then open_parentheses line' quoted (depth - 1)
      else open_parentheses line' quoted depth
  end.

(** [db.exec(text)]. D1 takes the text line by line, each line as a
    statement of its own: a line that leaves a parenthesis open is an
    incomplete statement, and [exec] throws on it. [effect] is what the
    statements do to the table when every line is one. *)
Definition d1_exec (db : D1) (text : string)
    (effect : gmap string Row -> gmap string Row) : M unit :=
  if existsb (fun line => 0 <? open_parentheses line false 0) (split_on LF text)
  then throw (new_Error "D1_EXEC_ERROR: incomplete input")
  else d1_run db effect.

(** [initDatabase(env)], with [env.SUBSCRIPTION_DB] when there is one.
    The statement is [CREATE TABLE IF NOT EXISTS]: run, it leaves the
    rows of the table alone. *)
Definition initDatabase (SUBSCRIPTION_DB : option D1) (s : ModuleState)
  : Completion bool * ModuleState :=
  let w := (setDbBinding SUBSCRIPTION_DB (world s)).2 in
  match dbBinding w with
  | None => (Normal (dbInitialized s), {| world := w; dbInitialized := dbInitialized s |})
  | Some db =>
      if dbInitialized s
      then (Normal true, {| world := w; dbInitialized := true |})
      else
        match d1_exec db CREATE_TABLE_SQL (fun table => table) w with
        | (Normal _, w') => (Normal true, {| world := w'; dbInitialized := true |})
        | (Throw _, w') => (Normal false, {| world := w'; dbInitialized := false |})
        end
  end.

(** ** The commands of [scripts/cache.js] *)

Module ScriptCli.

(** The single quote. *)
Definition quote : ascii := ascii_of_N 39.

(** [s.replace(/'/g, "''")] *)
Fixpoint escape_quotes (s : string) : string :=
  match s with
  | EmptyString => EmptyString
  | String c s' =>
      if Ascii.eqb c quote then String quote (String quote (escape_quotes s'))
      else String c (escape_quotes s')
  end.

(** The [VALUES] line of the statement of [insertCache] and [fixCache]. *)
Definition values_sql (cacheKey escapedUrl escapedContent : string) (now : Z)
  : string :=
  "VALUES ('" ++ cacheKey ++ "', '" ++ escapedUrl ++ "', '" ++ escapedContent
  ++ "', " ++ int_toString 10 now ++ ", " ++ int_toString 10 now ++ ", 1, 0);".

(** The statement of [insertCache], after [trim()]. *)
Definition insert_sql (cacheKey escapedUrl escapedContent : string) (now : Z)
  : string :=
  "INSERT OR REPLACE INTO subscription_cache" ++ String LF
    ("(cache_key, url, content, created_at, updated_at, success_count, fail_count)"
     ++ String LF (values_sql cacheKey escapedUrl escapedContent now)).

(** [insertCache(url, contentFile)], with the content of the file and the
    reading of [Date.now()]: the text handed to the database. *)
Definition insertCache_sql (url content' : string) (now : Z) : string :=
  let cacheKey := Script.generateCacheKey (VStr url) in
  let escapedContent := escape_quotes content' in
  let escapedUrl := escape_quotes url in
  insert_sql cacheKey escapedUrl escapedContent now.

(** What the statements do to the table. [INSERT OR REPLACE] with the
    constants 1 and 0 for the counters: *)
Definition insert_row (cacheKey url content' : string) (now : Z)
    (table : gmap string Row) : gmap string Row :=
  <[cacheKey := {| row_url := url; row_content := content';
                   created_at := now; updated_at := now;
                   success_count := 1; fail_count := 0 |}]> table.

Definition insertCache (url content' : string) (now : Z)
    (table : gmap string Row) : gmap string Row :=
  insert_row (Script.generateCacheKey (VStr url)) url content' now table.

(** [DELETE ... WHERE cache_key = ...] followed by the insert. *)
Definition fixCache (url content' : string) (now : Z)
    (table : gmap string Row) : gmap string Row :=
  let cacheKey := Script.generateCacheKey (VStr url) in
  insert_row cacheKey url content' now (delete cacheKey table).

Definition deleteCache (url : string) (table : gmap string Row)
  : gmap string Row :=
  delete (Script.generateCacheKey (VStr url)) table.

(** Reading an SQL string literal back, from just after its opening
    quote: two quotes stand for one, a single quote ends the literal. The
    result is the text and what follows the closing quote. *)
Fixpoint read_literal (s : string) : option (string * string) :=
  match s with
  | EmptyString => None
  | String c s' =>
      if Ascii.eqb c quote then
        match s' with
        | String c' s'' =>
            if Ascii.eqb c' quote then
              match read_literal s'' with
              | Some (text, rest) => Some (String quote text, rest)
              | None => None
              end
            else Some (EmptyString, s')
        | EmptyString => Some (EmptyString, EmptyString)
        end
      else
        match read_literal s' with
        | Some (text, rest) => Some (String c text, rest)
        | None => None
        end
  end.

(** Dropping a known prefix. *)
Fixpoint strip (p s : string) : option string :=
  match p with
  | EmptyString => Some s
  | String c p' =>
      match s with
      | String c' s' => if Ascii.eqb c c' then strip p' s' else None
      | EmptyString => None
      end
  end.

(** Reading the three literals of a [VALUES] line back. *)
Definition read_values (s : string) : option (string * string * string * string) :=
  s1 ← strip "VALUES ('" s;
  '(a, r1) ← read_literal s1;
  s2 ← strip ", '" r1;
  '(b, r2) ← read_literal s2;
  s3 ← strip ", '" r2;
  '(c, r3) ← read_literal s3;
  Some (a, b, c, r3).

End ScriptCli.

(** * Properties *)

(** Running the first bind of the computation in the goal. *)
Ltac step_bind := unfold mbind at 1; unfold M_bind at 1.

(** ** 32-bit arithmetic *)

Lemma ToInt32_range (z : Z) : - 2 ^ 31 <= ToInt32 z < 2 ^ 31.
Proof.
  unfold ToInt32.
  pose proof (Z.mod_pos_bound (z + 2 ^ 31) (2 ^ 32) ltac:(lia)). lia.
Qed.

Lemma ToInt32_shift (z k : Z) : ToInt32 (z + k * 2 ^ 32) = ToInt32 z.
Proof.
  unfold ToInt32.
  replace (z + k * 2 ^ 32 + 2 ^ 31) with (z + 2 ^ 31 + k * 2 ^ 32) by ring.
  now rewrite Z.mod_add by lia.
Qed.

Lemma ToInt32_unfold (z : Z) : exists k, ToInt32 z = z + k * 2 ^ 32.
Proof.
  exists (- ((z + 2 ^ 31) / 2 ^ 32)). unfold ToInt32.
  rewrite Z.mod_eq by lia. ring.
Qed.

Lemma ToInt32_small (z : Z) : - 2 ^ 31 <= z < 2 ^ 31 -> ToInt32 z = z.
Proof.
  intros Hz. unfold ToInt32. rewrite Z.mod_small by lia. ring.
Qed.

Lemma ToInt32_idem (z : Z) : ToInt32 (ToInt32 z) = ToInt32 z.
Proof. apply ToInt32_small, ToInt32_range. Qed.

Lemma js_and_diag (z : Z) : js_and z z = ToInt32 z.
Proof. unfold js_and. now rewrite Z.land_diag, ToInt32_idem. Qed.

(** The loop body is [acc * 31 + byte] with 32-bit wrap-around. *)
Lemma hash_step_31 (hash char : Z) :
  hash_step hash char = ToInt32 (hash * 31 + char).
Proof.
  unfold hash_step, js_shl. rewrite js_and_diag, Z.shiftl_mul_pow2 by lia.
  destruct (ToInt32_unfold hash) as [k1 ->].
  destruct (ToInt32_unfold ((hash + k1 * 2 ^ 32) * 2 ^ 5)) as [k2 ->].
  replace ((hash + k1 * 2 ^ 32) * 2 ^ 5 + k2 * 2 ^ 32 - hash + char)
    with (hash * 31 + char + (k1 * 32 + k2) * 2 ^ 32) by ring.
  apply ToInt32_shift.
Qed.

Lemma fold_left_nil_eq {A B : Type} (f : A -> B -> A) (a : A) :
  fold_left f [] a = a.
Proof. reflexivity. Qed.

Lemma fold_left_cons_eq {A B : Type} (f : A -> B -> A) (x : B) (l : list B) (a : A) :
  fold_left f (x :: l) a = fold_left f l (f a x).
Proof. reflexivity. Qed.

(** Wrapping after every round or once at the end gives the same key. *)
Lemma fold_hash_step (data : list Z) (acc k : Z) :
  fold_left hash_step data (ToInt32 (acc + k * 2 ^ 32))
  = ToInt32 (fold_left (fun a b => a * 31 + b) data acc).
Proof.
  revert acc k. induction data as [|b data IH]; intros acc k.
  - rewrite !fold_left_nil_eq. apply ToInt32_shift.
  - rewrite !fold_left_cons_eq, hash_step_31, ToInt32_shift.
    destruct (ToInt32_unfold acc) as [k1 ->].
    replace ((acc + k1 * 2 ^ 32) * 31 + b)
      with (acc * 31 + b + (k1 * 31) * 2 ^ 32) by ring.
    apply IH.
Qed.

Lemma fold_hash_step_poly31 (data : list Z) :
  fold_left hash_step data 0 = ToInt32 (poly31 data).
Proof.
  unfold poly31. rewrite <- (fold_hash_step data 0 0).
  rewrite ToInt32_shift, ToInt32_small by lia. reflexivity.
Qed.

(** ** Rendering *)

Lemma digit_value_char (d : Z) : 0 <= d < 36 -> digit_value (digit_char d) = d.
Proof.
  intros Hd. unfold digit_value, digit_char.
  destruct (d <? 10) eqn:E.
  - apply Z.ltb_lt in E.
    rewrite N_ascii_embedding by lia. rewrite Z2N.id by lia.
    destruct (48 + d <? 58) eqn:E'; [lia|apply Z.ltb_ge in E'; lia].
  - apply Z.ltb_ge in E.
    rewrite N_ascii_embedding by lia. rewrite Z2N.id by lia.
    destruct (87 + d <? 58) eqn:E'; [apply Z.ltb_lt in E'; lia|lia].
Qed.

Lemma digits_onto_value (radix : Z) (fuel : nat) :
  2 <= radix <= 36 ->
  forall (n : Z) (acc : string),
    0 <= n < radix ^ Z.of_nat (S fuel) ->
    digits_value radix (digits_onto radix fuel n acc) 0 = digits_value radix acc n.
Proof.
  intros Hr. induction fuel as [|fuel IH]; intros n acc Hn.
  - simpl. rewrite Z.mod_small, digit_value_char; [reflexivity|lia|].
    change (Z.of_nat 1) with 1 in Hn. rewrite Z.pow_1_r in Hn. lia.
  - cbn [digits_onto].
    assert (Hd : 0 <= n mod radix < radix) by (apply Z.mod_pos_bound; lia).
    destruct (n / radix =? 0) eqn:E.
    + apply Z.eqb_eq in E. simpl.
      rewrite digit_value_char by lia.
      f_equal. pose proof (Z.div_mod n radix ltac:(lia)). lia.
    + rewrite IH.
      * simpl. rewrite digit_value_char by lia.
        f_equal. pose proof (Z.div_mod n radix ltac:(lia)). lia.
      * split; [apply Z.div_pos; lia|].
        apply Z.div_lt_upper_bound; [lia|].
        rewrite Nat2Z.inj_succ, Z.pow_succ_r in Hn by lia. lia.
Qed.

(** A rendering reads back as the number rendered: no digit is lost. *)
Lemma nat_toString_value (radix n : Z) :
  2 <= radix <= 36 -> 0 <= n ->
  digits_value radix (nat_toString radix n) 0 = n.
Proof.
  intros Hr Hn. unfold nat_toString.
  rewrite digits_onto_value; [reflexivity|assumption|].
  split; [assumption|].
  rewrite Nat2Z.inj_succ, Z2Nat.id by apply Z.log2_nonneg.
  destruct (Z.eq_dec n 0) as [->|Hne].
  - simpl. lia.
  - pose proof (Z.log2_spec n ltac:(lia)) as [_ Hlt].
    eapply Z.lt_le_trans; [exact Hlt|].
    apply Z.pow_le_mono_l. lia.
Qed.

Lemma digit_char_hex (d : Z) : 0 <= d < 16 -> is_lower_hex (digit_char d).
Proof.
  intros Hd. unfold is_lower_hex.
  assert (H : d = 0 \/ d = 1 \/ d = 2 \/ d = 3 \/ d = 4 \/ d = 5 \/ d = 6 \/ d = 7
              \/ d = 8 \/ d = 9 \/ d = 10 \/ d = 11 \/ d = 12 \/ d = 13 \/ d = 14
              \/ d = 15) by lia.
  repeat (destruct H as [->|H]; [cbn; tauto|]). subst d. cbn. tauto.
Qed.

Lemma digits_onto_hex (fuel : nat) :
  forall (n : Z) (acc : string),
    Forall is_lower_hex (list_ascii_of_string acc) ->
    Forall is_lower_hex (list_ascii_of_string (digits_onto 16 fuel n acc)).
Proof.
  assert (Hd : forall n, is_lower_hex (digit_char (n mod 16))).
  { intros n. apply digit_char_hex. apply Z.mod_pos_bound. lia. }
  induction fuel as [|fuel IH]; intros n acc Hacc; cbn [digits_onto].
  - cbn [list_ascii_of_string]. constructor; [apply Hd|exact Hacc].
  - destruct (n / 16 =? 0).
    + cbn [list_ascii_of_string]. constructor; [apply Hd|exact Hacc].
    + apply IH. cbn [list_ascii_of_string]. constructor; [apply Hd|exact Hacc].
Qed.

Lemma digits_onto_nonempty (radix : Z) (fuel : nat) :
  forall (n : Z) (acc : string), digits_onto radix fuel n acc <> "".
Proof.
  induction fuel as [|fuel IH]; intros n acc; cbn [digits_onto].
  - discriminate.
  - destruct (n / radix =? 0); [discriminate|apply IH].
Qed.

(** A key is a non-empty string of lower-case hexadecimal digits. *)
Lemma key_of_hash_hex (hash : Z) :
  Forall is_lower_hex (list_ascii_of_string (key_of_hash hash))
  /\ key_of_hash hash <> "".
Proof.
  unfold key_of_hash, int_toString.
  destruct (Z.abs hash <? 0) eqn:E; [apply Z.ltb_lt in E; lia|].
  unfold nat_toString. split.
  - apply digits_onto_hex. constructor.
  - apply digits_onto_nonempty.
Qed.

Lemma key_of_hash_value (hash : Z) :
  digits_value 16 (key_of_hash hash) 0 = Z.abs hash.
Proof.
  unfold key_of_hash, int_toString.
  destruct (Z.abs hash <? 0) eqn:E; [apply Z.ltb_lt in E; lia|].
  apply nat_toString_value; lia.
Qed.

(** ** Key derivation *)

Lemma bytes_of_string_nil (s : string) : bytes_of_string s = [] <-> s = "".
Proof.
  destruct s as [|c s]; split; intros H; try reflexivity; discriminate H.
Qed.

Lemma encode_string (s : string) : TextEncoder_encode (VStr s) = bytes_of_string s.
Proof. reflexivity. Qed.

(** The first round of the loop of [cacheManager.js] already throws. *)
Lemma hash_loop_charCodeAt (data : list Z) (n i : nat) (hash : Z) :
  hash_loop (Uint8Array_charCodeAt data) (S n) i hash
  = Throw (ThrownError "TypeError" "data.charCodeAt is not a function").
Proof. reflexivity. Qed.

Lemma generateCacheKey_no_bytes (url : JsVal) :
  TextEncoder_encode url = [] -> generateCacheKey url = Normal "0".
Proof. intros H. unfold generateCacheKey. rewrite H. reflexivity. Qed.

Lemma generateCacheKey_some_bytes (url : JsVal) :
  TextEncoder_encode url <> [] ->
  generateCacheKey url
  = Throw (ThrownError "TypeError" "data.charCodeAt is not a function").
Proof.
  intros H. unfold generateCacheKey.
  destruct (TextEncoder_encode url) as [|b data]; [congruence|].
  cbn [length]. rewrite hash_loop_charCodeAt. reflexivity.
Qed.

(** Every non-empty string makes [generateCacheKey] of [cacheManager.js]
    throw; the only key it ever returns is the one of no bytes. *)
Lemma generateCacheKey_string (s : string) :
  s <> "" ->
  generateCacheKey (VStr s)
  = Throw (ThrownError "TypeError" "data.charCodeAt is not a function").
Proof.
  intros H. apply generateCacheKey_some_bytes.
  rewrite encode_string, bytes_of_string_nil. exact H.
Qed.

Lemma generateCacheKey_returns (url : JsVal) (key : string) :
  generateCacheKey url = Normal key ->
  key = "0" /\ TextEncoder_encode url = [].
Proof.
  intros H. destruct (TextEncoder_encode url) as [|b data] eqn:E.
  - rewrite generateCacheKey_no_bytes in H by exact E. now inversion H.
  - rewrite generateCacheKey_some_bytes in H by (rewrite E; discriminate).
    discriminate H.
Qed.

Lemma generateCacheKey_string_returns (url key : string) :
  generateCacheKey (VStr url) = Normal key -> key = "0" /\ url = "".
Proof.
  intros H. apply generateCacheKey_returns in H as [-> H].
  split; [reflexivity|]. now apply bytes_of_string_nil.
Qed.

Lemma script_step_at_middle (pre suf : list Z) (b hash : Z) :
  Script.step_at (pre ++ b :: suf) (length pre) hash = hash_step hash b.
Proof.
  unfold Script.step_at, Uint8Array_get.
  now rewrite list_lookup_middle.
Qed.

Lemma script_hash_loop_S (data : list Z) (n i : nat) (hash : Z) :
  Script.hash_loop data (S n) i hash
  = Script.hash_loop data n (S i) (Script.step_at data i hash).
Proof. reflexivity. Qed.

(** The indexed loop of the script is the fold of the round over the bytes. *)
Lemma script_hash_loop_fold (suf pre : list Z) (hash : Z) :
  Script.hash_loop (pre ++ suf) (length suf) (length pre) hash
  = fold_left hash_step suf hash.
Proof.
  revert pre hash. induction suf as [|b suf IH]; intros pre hash.
  - reflexivity.
  - cbn [length]. rewrite script_hash_loop_S, script_step_at_middle.
    rewrite fold_left_cons_eq.
    specialize (IH (pre ++ [b])%list (hash_step hash b)).
    rewrite <- app_assoc, length_app in IH. cbn [length app] in IH.
    replace (length pre + 1)%nat with (S (length pre)) in IH by lia.
    exact IH.
Qed.

Lemma script_hash_loop_poly31 (data : list Z) :
  Script.hash_loop data (length data) 0%nat 0 = ToInt32 (poly31 data).
Proof.
  rewrite <- fold_hash_step_poly31. exact (script_hash_loop_fold data [] 0).
Qed.

(** [scripts/cache.js] derives keys as the specification describes: a
    sentinel for a non-string or empty argument, and otherwise the
    lower-case hexadecimal digits of the absolute value of the wrapped
    accumulator. *)
Lemma script_generateCacheKey_spec (url : JsVal) :
  Script.generateCacheKey url
  = match url with
    | VStr s =>
        if String.eqb s "" then "invalid-url"
        else key_of_hash (ToInt32 (poly31 (bytes_of_string s)))
    | _ => "invalid-url"
    end.
Proof.
  unfold Script.generateCacheKey.
  destruct url as [| |b|n|s]; try reflexivity.
  - destruct b; reflexivity.
  - destruct n as [z|]; [|reflexivity]. unfold truthy.
    destruct (z =? 0); reflexivity.
  - unfold truthy, typeof_string. destruct (String.eqb s ""); [reflexivity|].
    cbn [negb orb]. rewrite encode_string, script_hash_loop_poly31. reflexivity.
Qed.

Lemma script_generateCacheKey_value (s : string) :
  s <> "" ->
  digits_value 16 (Script.generateCacheKey (VStr s)) 0
  = Z.abs (ToInt32 (poly31 (bytes_of_string s))).
Proof.
  intros H. rewrite script_generateCacheKey_spec.
  destruct (String.eqb_spec s ""); [contradiction|].
  apply key_of_hash_value.
Qed.

(** Keys of the script: an ASCII letter, the empty string, and the two
    bytes of a non-ASCII letter (U+00E9). *)
Lemma script_generateCacheKey_examples :
  Script.generateCacheKey (VStr "a") = "61"
  /\ Script.generateCacheKey (VStr "") = "invalid-url"
  /\ Script.generateCacheKey (VNum (Int 7)) = "invalid-url"
  /\ Script.generateCacheKey
       (VStr (String (ascii_of_N 195) (String (ascii_of_N 169) ""))) = "1846".
Proof. repeat split; vm_compute; reflexivity. Qed.

(** The keys [generateCacheKey] of [cacheManager.js] does return. *)
Lemma generateCacheKey_examples :
  generateCacheKey (VStr "") = Normal "0"
  /\ generateCacheKey VUndefined = Normal "0".
Proof. split; reflexivity. Qed.

(** C2 (code defect). The specification wants [deriveKey] total, but
    [generateCacheKey] of [cacheManager.js] calls [charCodeAt] on the
    encoded byte array and throws a [TypeError] on an ordinary URL, where
    the script's copy of the function returns the key. *)
Theorem generateCacheKey_throws_on_url :
  generateCacheKey (VStr "https://a.test/sub")
  = Throw (ThrownError "TypeError" "data.charCodeAt is not a function")
  /\ generateCacheKey VNull
     = Throw (ThrownError "TypeError" "data.charCodeAt is not a function")
  /\ Script.generateCacheKey (VStr "https://a.test/sub") = "1df34a3f"
  /\ Script.generateCacheKey VNull = "invalid-url".
Proof. repeat split; vm_compute; reflexivity. Qed.

(** ** One attempt *)

Lemma length_USER_AGENTS : length USER_AGENTS = 9%nat.
Proof. reflexivity. Qed.

Lemma pool_index_lt (attempt : Z) : (pool_index attempt < length USER_AGENTS)%nat.
Proof.
  unfold pool_index. rewrite length_USER_AGENTS.
  pose proof (Z.mod_pos_bound (attempt - 1) (Z.of_nat 9) ltac:(lia)). lia.
Qed.

Lemma pool_lookup (attempt : Z) :
  USER_AGENTS !! pool_index attempt = Some (selected_identity attempt).
Proof.
  destruct (USER_AGENTS !! pool_index attempt) as [c|] eqn:E.
  - unfold selected_identity. now rewrite (nth_lookup_Some _ _ _ _ E).
  - apply lookup_ge_None in E. pose proof (pool_index_lt attempt). lia.
Qed.

Lemma add_requests_nil (w : World) : add_requests [] w = w.
Proof. destruct w. unfold add_requests. cbn. now rewrite app_nil_r. Qed.

Lemma add_request_requests (r : Request) (rs : list Request) (w : World) :
  add_requests rs (add_request r w) = add_requests (r :: rs) w.
Proof. unfold add_requests, add_request. cbn. now rewrite <- app_assoc. Qed.

(** ** Headers the constructor accepts, and headers it refuses *)

Lemma Headers_set_ok (name value : string) (h : Headers) :
  entry_ok name value = true ->
  Headers_set name value h = Normal (<[lower name := normalize_value value]> h).
Proof.
  unfold entry_ok, Headers_set. intros [Hn Hv]%andb_true_iff.
  cbv zeta. now rewrite Hn, Hv.
Qed.

Lemma Headers_append_throws (name value : string) (h : Headers) (e : Thrown) :
  Headers_append name value h = Throw e ->
  exists message, e = ThrownError "TypeError" message.
Proof.
  unfold Headers_append. cbv zeta.
  destruct (negb (header_name_ok name)); [intros [= <-]; eexists; reflexivity|].
  destruct (negb (header_value_ok _)); [intros [= <-]; eexists; reflexivity|].
  destruct (h !! lower name); discriminate.
Qed.

Lemma Headers_fill_throws (init : list (string * string)) :
  forall (h : Headers) (e : Thrown),
    Headers_fill init h = Throw e ->
    exists message, e = ThrownError "TypeError" message.
Proof.
  induction init as [|[name value] init IH]; intros h e; cbn [Headers_fill].
  - discriminate.
  - unfold mbind, Completion_bind.
    destruct (Headers_append name value h) as [h'|e'] eqn:E.
    + apply IH.
    + intros [= <-]. now apply (Headers_append_throws name value h).
Qed.

Lemma Headers_new_throws (init : list (string * string)) (e : Thrown) :
  Headers_new init = Throw e ->
  exists message, e = ThrownError "TypeError" message.
Proof. apply Headers_fill_throws. Qed.

Lemma merge_entries_ok (entries : list (string * string)) :
  forallb (fun kv => entry_ok kv.1 kv.2) entries = true ->
  forall h, exists h', merge_entries entries h = Normal h'.
Proof.
  induction entries as [|[key value] entries IH]; intros Hok h; cbn [merge_entries].
  - eauto.
  - cbn [forallb fst snd] in Hok. apply andb_true_iff in Hok as [Hkv Hrest].
    destruct (negb (String.eqb key "user-agent")).
    + rewrite (Headers_set_ok _ _ _ Hkv). unfold mbind, Completion_bind.
      now apply IH.
    + now apply IH.
Qed.

(** Every entry of the pool is accepted. *)
Lemma pool_ok : forallb config_ok USER_AGENTS = true.
Proof. vm_compute. reflexivity. Qed.

Lemma selected_identity_ok (attempt : Z) :
  config_ok (selected_identity attempt) = true.
Proof.
  pose proof pool_ok as H. rewrite List.forallb_forall in H. apply H.
  unfold selected_identity. apply nth_In, pool_index_lt.
Qed.

Lemma build_headers_ok (config : UaConfig) (options : Options) (attempt : Z) :
  config_ok config = true ->
  well_formed options ->
  exists h, build_headers config options attempt = Normal h.
Proof.
  intros [Hua Hentries]%andb_true_iff [h0 Hh0].
  unfold build_headers, merge_client_headers. rewrite Hh0.
  unfold mbind, Completion_bind.
  destruct (negb (Headers_has "user-agent" h0)).
  - rewrite (Headers_set_ok _ _ _ Hua).
    destruct (attempt =? 1); [now apply merge_entries_ok|eauto].
  - destruct (attempt =? 1); [now apply merge_entries_ok|eauto].
Qed.

Lemma well_formed_cases (options : Options) :
  well_formed options
  \/ exists base e, headers options = Some base /\ Headers_new base = Throw e.
Proof.
  unfold well_formed. destruct (headers options) as [base|]; cbn [default].
  - destruct (Headers_new base) as [h|e] eqn:E; [left|right]; eauto.
  - left. now exists ∅.
Qed.

Lemma well_formed_no_headers (options : Options) :
  headers options = None -> well_formed options.
Proof. intros H. unfold well_formed. rewrite H. now exists ∅. Qed.

(** With headers the constructor refuses, an attempt ends in the [try]
    before it calls [fetch]. *)
Lemma attempt_body_ill_formed (url : string) (options : Options)
    (base : list (string * string)) (e : Thrown) (attempt : Z) (w : World) :
  headers options = Some base ->
  Headers_new base = Throw e ->
  attempt_body url options attempt w = (Throw e, w).
Proof.
  intros Hb He. unfold attempt_body. fold (pool_index attempt).
  rewrite pool_lookup. unfold mbind, M_bind, lift, build_headers.
  rewrite Hb. change (default [] (Some base)) with base. rewrite He. reflexivity.
Qed.

Lemma runtime_answer_add_request (r : Request) (w : World) (n : nat) (q : Request) :
  runtime_answer (add_request r w) n q = runtime_answer w n q.
Proof. reflexivity. Qed.

Section Retry.

Context (url : string) (options : Options).

Hypothesis Hwf : well_formed options.

(** With headers the constructor accepts, an attempt makes exactly one
    call of [fetch], the one of [attempt_request], and ends as the answer
    to it decides. *)
Lemma attempt_body_run (attempt : Z) (w : World) :
  attempt_body url options attempt w
  = (outcome_of (runtime_answer w (length (requests w))
                   (attempt_request url options attempt)),
     add_request (attempt_request url options attempt) w).
Proof.
  unfold attempt_body. fold (pool_index attempt). rewrite pool_lookup.
  destruct (build_headers_ok (selected_identity attempt) options attempt
              (selected_identity_ok attempt) Hwf) as [built Hbuilt].
  assert (Hinit : exists hs, fill_headers (init_headers built options) = Normal hs).
  { unfold init_headers. destruct Hwf as [h0 Hh0].
    destruct (headers options) as [base|]; cbn [fill_headers default] in *; eauto. }
  destruct Hinit as [hs Hhs].
  assert (Hreq : attempt_request url options attempt
                 = {| req_url := url; req_method := "GET"; req_headers := hs |}).
  { unfold attempt_request, attempt_headers, sent_headers. now rewrite Hbuilt, Hhs. }
  unfold mbind, M_bind, lift, fetch. rewrite Hbuilt, Hhs, <- Hreq.
  destruct (runtime_answer w (length (requests w))
              (attempt_request url options attempt))
    as [message|status statusText body|status statusText message];
    [reflexivity| |];
    unfold outcome_of, ok; cbn [resp_status resp_statusText resp_text];
    destruct (status_ok status); reflexivity.
Qed.

Lemma outcome_of_failure (r : Reply) (e : Thrown) :
  failure_of r = Some e -> outcome_of r = Throw e.
Proof.
  destruct r as [message|status statusText body|status statusText message]; cbn.
  - now intros [= <-].
  - destruct (status_ok status); [discriminate|now intros [= <-]].
  - destruct (status_ok status); now intros [= <-].
Qed.

Lemma failure_of_is_Some (r : Reply) :
  failure_of r <> None -> exists e, failure_of r = Some e.
Proof. destruct (failure_of r) as [e|]; [eauto|congruence]. Qed.


Lemma outcome_of_throw (r : Reply) (e : Thrown) :
  outcome_of r = Throw e -> exists name message, e = ThrownError name message.
Proof.
  destruct r as [message|status statusText body|status statusText message]; cbn.
  - intros [= <-]. eauto.
  - destruct (status_ok status); [discriminate|]. intros [= <-]. eauto.
  - destruct (status_ok status); intros [= <-]; eauto.
Qed.

(** ** The retry loop *)

Lemma retry_loop_S (n : nat) (a : Z) (e0 : Thrown) (w : World) :
  retry_loop url options (S n) a e0 w
  = match outcome_of (runtime_answer w (length (requests w)) (attempt_request url options a)) with
    | Normal body' => (Normal body', add_request (attempt_request url options a) w)
    | Throw e =>
        retry_loop url options n (a + 1) e
          (add_request (attempt_request url options a) w)
    end.
Proof.
  cbn [retry_loop]. rewrite attempt_body_run.
  destruct (outcome_of _) as [body'|e] eqn:Hout; [reflexivity|].
  destruct (outcome_of_throw _ _ Hout) as (name & message & ->). reflexivity.
Qed.

(** The requests of [n] consecutive attempts starting with attempt [a]. *)
Lemma retry_loop_all_fail (n : nat) :
  forall (a : Z) (e0 : Thrown) (w : World),
    (forall k, (k < n)%nat ->
       failure_of (runtime_answer w (length (requests w) + k)%nat
                     (attempt_request url options (a + Z.of_nat k))) <> None) ->
    exists e,
      retry_loop url options n a e0 w
      = (Throw e,
         add_requests
           (map (fun k => attempt_request url options (a + Z.of_nat k)) (seq 0 n)) w)
      /\ (n = O -> e = e0)
      /\ (forall n', n = S n' ->
            failure_of (runtime_answer w (length (requests w) + n')%nat
                          (attempt_request url options (a + Z.of_nat n'))) = Some e).
Proof.
  induction n as [|n IH]; intros a e0 w Hfail.
  - exists e0. cbn [retry_loop seq map]. rewrite add_requests_nil.
    split; [reflexivity|split; [reflexivity|discriminate]].
  - rewrite retry_loop_S.
    destruct (failure_of_is_Some _ (Hfail O ltac:(lia))) as [e1 He1].
    rewrite Nat.add_0_r, Z.add_0_r in He1.
    rewrite (outcome_of_failure _ _ He1).
    destruct (IH (a + 1) e1 (add_request (attempt_request url options a) w)) as (e & Hrun & H0 & HS).
    { intros k Hk. specialize (Hfail (S k) ltac:(lia)).
      rewrite runtime_answer_add_request. cbn [requests add_request]. rewrite length_app. cbn [length].
      replace (length (requests w) + 1 + k)%nat with (length (requests w) + S k)%nat by lia.
      replace (a + 1 + Z.of_nat k) with (a + Z.of_nat (S k)) by lia.
      exact Hfail. }
    exists e. split; [|split].
    + rewrite Hrun, add_request_requests. f_equal. f_equal.
      cbn [seq map]. rewrite Z.add_0_r. f_equal.
      rewrite <- seq_shift, map_map. apply map_ext. intros k. f_equal. lia.
    + discriminate.
    + intros n' [= <-]. destruct n as [|n''].
      * rewrite (H0 eq_refl), Nat.add_0_r, Z.add_0_r. exact He1.
      * specialize (HS n'' eq_refl).
        rewrite runtime_answer_add_request in HS. cbn [requests add_request] in HS.
        rewrite length_app in HS.
        cbn [length] in HS.
        replace (length (requests w) + 1 + n'')%nat
          with (length (requests w) + S n'')%nat in HS by lia.
        replace (a + 1 + Z.of_nat n'') with (a + Z.of_nat (S n'')) in HS by lia.
        exact HS.
Qed.


Lemma length_attempt_requests (n : nat) :
  length (attempt_requests url options n) = n.
Proof. unfold attempt_requests. now rewrite length_map, length_seq. Qed.

Lemma attempt_requests_from_1 (n : nat) :
  map (fun k => attempt_request url options (1 + Z.of_nat k)) (seq 0 n)
  = attempt_requests url options n.
Proof. apply map_ext. intros k. f_equal. lia. Qed.

Lemma fetchWithRetry_unfold (m : Z) (w : World) :
  fetchWithRetry url options (Some (Int m)) w
  = retry_loop url options (Z.to_nat m) 1 ThrownNull w.
Proof. reflexivity. Qed.

Lemma fails_first_offsets (w : World) (n : nat) :
  fails_first w url options (Z.of_nat n) ->
  forall k, (k < n)%nat ->
    failure_of (runtime_answer w (length (requests w) + k)%nat
                  (attempt_request url options (1 + Z.of_nat k))) <> None.
Proof.
  intros H k Hk. specialize (H (1 + Z.of_nat k) ltac:(lia)).
  unfold reply_to in H.
  replace (Z.to_nat (1 + Z.of_nat k - 1)) with k in H by lia. exact H.
Qed.

(** All attempts fail: exactly the budgeted number of requests, then the
    error of the last one. *)
Lemma fetchWithRetry_exhausted (m : Z) (w : World) :
  1 <= m ->
  fails_first w url options m ->
  exists e,
    fetchWithRetry url options (Some (Int m)) w
    = (Throw e, add_requests (attempt_requests url options (Z.to_nat m)) w)
    /\ failure_of (reply_to w url options m) = Some e.
Proof.
  intros Hm Hfail. rewrite fetchWithRetry_unfold.
  rewrite <- (Z2Nat.id m) in Hfail by lia.
  destruct (retry_loop_all_fail (Z.to_nat m) 1 ThrownNull w
              (fails_first_offsets _ _ Hfail)) as (e & Hrun & _ & Hlast).
  exists e. split.
  - rewrite Hrun, attempt_requests_from_1. reflexivity.
  - destruct (Z.to_nat m) as [|n'] eqn:E; [lia|].
    specialize (Hlast n' eq_refl). unfold reply_to.
    replace (Z.to_nat (m - 1)) with n' by lia.
    replace m with (1 + Z.of_nat n') by lia. exact Hlast.
Qed.


End Retry.

(** With headers the constructor refuses, no round of the loop calls
    [fetch]: every round throws in its [try], and the loop ends with the
    constructor's error (or with the initial [lastError] when there is
    no round). *)
Lemma retry_loop_ill_formed (url : string) (options : Options)
    (base : list (string * string)) (e : Thrown) :
  headers options = Some base ->
  Headers_new base = Throw e ->
  forall (n : nat) (a : Z) (e0 : Thrown) (w : World),
    retry_loop url options n a e0 w
    = (Throw (match n with O => e0 | S _ => e end), w).
Proof.
  intros Hb He. destruct (Headers_new_throws _ _ He) as [message ->].
  induction n as [|n IH]; intros a e0 w; [reflexivity|].
  cbn [retry_loop]. rewrite (attempt_body_ill_formed url options base _ a w Hb He).
  cbn [error_message]. rewrite IH. now destruct n.
Qed.




(** ** The cache *)

Lemma set_dbBinding_twice (db1 db2 : option D1) (w : World) :
  set_dbBinding db2 (set_dbBinding db1 w) = set_dbBinding db2 w.
Proof. reflexivity. Qed.

Lemma store_ready_set (table : gmap string Row) (w : World) :
  store_ready (set_dbBinding (Some (healthy table)) w) table.
Proof. reflexivity. Qed.

Lemma table_of_set (table : gmap string Row) (w : World) :
  table_of (set_dbBinding (Some (healthy table)) w) = table.
Proof. reflexivity. Qed.

Lemma saveToCache_run (cacheKey url content' : string) (w : World)
    (table : gmap string Row) :
  store_ready w table ->
  saveToCache cacheKey url content' w
  = (Normal true,
     set_dbBinding (Some (healthy (upsert cacheKey url content' (clock w) table))) w).
Proof.
  intros H. unfold saveToCache, mbind, M_bind, getDb, try_catch, Date_now.
  rewrite H. reflexivity.
Qed.

Lemma saveToCache_unbound (cacheKey url content' : string) (w : World) :
  dbBinding w = None -> saveToCache cacheKey url content' w = (Normal false, w).
Proof.
  intros H. unfold saveToCache, mbind, M_bind, getDb. rewrite H. reflexivity.
Qed.

(** [saveToCache] never throws, whatever the state of the store. *)
Lemma saveToCache_total (cacheKey url content' : string) (w : World) :
  exists b w', saveToCache cacheKey url content' w = (Normal b, w')
               /\ requests w' = requests w.
Proof.
  unfold saveToCache, mbind, M_bind, getDb, try_catch, Date_now.
  destruct (dbBinding w) as [db|]; [|eexists _, _; split; reflexivity].
  unfold d1_run. destruct (d1_fails db); eexists _, _; split; reflexivity.
Qed.

Lemma recordFailAttempt_run (cacheKey : string) (w : World) (table : gmap string Row) :
  store_ready w table ->
  recordFailAttempt cacheKey w
  = (Normal true,
     set_dbBinding (Some (healthy (bump_fail cacheKey (clock w) table))) w).
Proof.
  intros H. unfold recordFailAttempt, mbind, M_bind, getDb, try_catch, Date_now.
  rewrite H. reflexivity.
Qed.

Lemma recordFailAttempt_unbound (cacheKey : string) (w : World) :
  dbBinding w = None -> recordFailAttempt cacheKey w = (Normal false, w).
Proof.
  intros H. unfold recordFailAttempt, mbind, M_bind, getDb. rewrite H. reflexivity.
Qed.

Lemma recordFailAttempt_failing_store (cacheKey : string) (w : World) (db : D1) :
  dbBinding w = Some db -> d1_fails db = true ->
  recordFailAttempt cacheKey w = (Normal false, w).
Proof.
  intros H Hf. unfold recordFailAttempt, mbind, M_bind, getDb, try_catch, Date_now.
  rewrite H. unfold d1_run. rewrite Hf. reflexivity.
Qed.

Lemma valid_time_test (t : Z) : valid_time t -> (Z.abs t <=? 8640000000000000) = true.
Proof. intros H. now apply Z.leb_le. Qed.

(** [getCachedContent] never throws and leaves the world as it is; it
    delivers the stored entry when its creation time can be printed. *)
Lemma getCachedContent_run (cacheKey : string) (w : World) :
  getCachedContent cacheKey w
  = (Normal (match stored_entry w cacheKey with
             | Some row =>
                 if Z.abs (created_at row) <=? 8640000000000000
                 then Some (cached_of row) else None
             | None => None
             end), w).
Proof.
  unfold getCachedContent, stored_entry, mbind, M_bind, getDb, try_catch.
  destruct (dbBinding w) as [db|]; [|reflexivity].
  unfold d1_query. destruct (d1_fails db); [reflexivity|].
  cbn. destruct (d1_table db !! cacheKey) as [row|]; [|reflexivity].
  unfold Date_toISOString.
  destruct (Z.abs (created_at row) <=? 8640000000000000); reflexivity.
Qed.

Lemma getCachedContent_hit (cacheKey : string) (w : World) (row : Row) :
  stored_entry w cacheKey = Some row -> valid_time (created_at row) ->
  getCachedContent cacheKey w = (Normal (Some (cached_of row)), w).
Proof.
  intros H Ht. rewrite getCachedContent_run, H, valid_time_test by exact Ht.
  reflexivity.
Qed.

Lemma getCachedContent_miss (cacheKey : string) (w : World) :
  stored_entry w cacheKey = None ->
  getCachedContent cacheKey w = (Normal None, w).
Proof. intros H. now rewrite getCachedContent_run, H. Qed.

Lemma stored_entry_ready (w : World) (table : gmap string Row) (key : string) :
  store_ready w table -> stored_entry w key = table !! key.
Proof. intros H. unfold stored_entry. now rewrite H. Qed.

Lemma upsert_lookup (cacheKey url content' : string) (now : Z)
    (table : gmap string Row) :
  upsert cacheKey url content' now table !! cacheKey
  = Some {| row_url := url; row_content := content';
            created_at := now; updated_at := now;
            success_count :=
              default 1 ((fun row => success_count row + 1) <$> table !! cacheKey);
            fail_count := default 0 (fail_count <$> table !! cacheKey) |}.
Proof. unfold upsert. apply lookup_insert_eq. Qed.

Lemma upsert_lookup_ne (cacheKey other url content' : string) (now : Z)
    (table : gmap string Row) :
  other <> cacheKey ->
  upsert cacheKey url content' now table !! other = table !! other.
Proof. intros H. unfold upsert. now apply lookup_insert_ne. Qed.

Lemma saveToCache_twice_run (cacheKey url content' : string) (w : World)
    (table : gmap string Row) :
  store_ready w table ->
  (saveToCache cacheKey url content' ≫= fun _ => saveToCache cacheKey url content') w
  = (Normal true,
     set_dbBinding
       (Some (healthy (upsert cacheKey url content' (clock w)
                         (upsert cacheKey url content' (clock w) table)))) w).
Proof.
  intros H. step_bind.
  rewrite (saveToCache_run _ _ _ _ _ H).
  rewrite (saveToCache_run _ _ _ _ _ (store_ready_set _ w)).
  reflexivity.
Qed.

(** C6. With the store bound and running, [saveToCache] is an upsert: on
    an existing row the content is replaced, [updated_at] is refreshed,
    the success counter grows by one and the failure counter stays; on a
    new key the row starts with one success and no failure; other rows
    are untouched. Two consecutive saves leave the content saved and add
    two to the success counter (2 on a fresh key), the failure counter
    being as before (0 on a fresh key). *)
Theorem saveToCache_upserts (cacheKey url content' : string) (w : World)
    (table : gmap string Row) :
  store_ready w table ->
  (exists w',
     saveToCache cacheKey url content' w = (Normal true, w')
     /\ (forall row, table !! cacheKey = Some row ->
           table_of w' !! cacheKey
           = Some {| row_url := url; row_content := content';
                     created_at := clock w; updated_at := clock w;
                     success_count := success_count row + 1;
                     fail_count := fail_count row |})
     /\ (table !! cacheKey = None ->
           table_of w' !! cacheKey
           = Some {| row_url := url; row_content := content';
                     created_at := clock w; updated_at := clock w;
                     success_count := 1; fail_count := 0 |})
     /\ (forall other, other <> cacheKey -> table_of w' !! other = table !! other))
  /\ (exists w'' row,
        (saveToCache cacheKey url content' ≫= fun _ => saveToCache cacheKey url content') w
        = (Normal true, w'')
        /\ table_of w'' !! cacheKey = Some row
        /\ row_content row = content'
        /\ success_count row = default 0 (success_count <$> table !! cacheKey) + 2
        /\ fail_count row = default 0 (fail_count <$> table !! cacheKey)).
Proof.
  intros H. split.
  - eexists. split; [apply (saveToCache_run _ _ _ _ _ H)|].
    rewrite table_of_set. repeat split.
    + intros row Hrow. now rewrite upsert_lookup, Hrow.
    + intros Hnone. now rewrite upsert_lookup, Hnone.
    + intros other Hne. now apply upsert_lookup_ne.
  - eexists _, _. split; [apply (saveToCache_twice_run _ _ _ _ _ H)|].
    rewrite table_of_set. split; [apply upsert_lookup|].
    rewrite upsert_lookup.
    cbn [row_content success_count fail_count fmap option_fmap option_map default].
    split; [reflexivity|].
    destruct (table !! cacheKey) as [row|]; cbn; split; lia.
Qed.

Lemma saveToCache_upserts_witness :
  (table_of (saveToCache "1df34a3f" "https://a.test/sub" "X"
               (w_store (one_row "1df34a3f" row_v1))).2 !! "1df34a3f"
   = Some {| row_url := "https://a.test/sub"; row_content := "X";
             created_at := 2000; updated_at := 2000;
             success_count := 6; fail_count := 2 |})
  /\ (exists w'' row,
        (saveToCache "k" "u" "X" ≫= fun _ => saveToCache "k" "u" "X") (w_store ∅)
        = (Normal true, w'')
        /\ table_of w'' !! "k" = Some row
        /\ row_content row = "X" /\ success_count row = 2 /\ fail_count row = 0).
Proof.
  split.
  - destruct (saveToCache_upserts "1df34a3f" "https://a.test/sub" "X"
                (w_store (one_row "1df34a3f" row_v1)) (one_row "1df34a3f" row_v1)
                eq_refl) as [(w' & Hrun & Hrow & _) _].
    rewrite Hrun. apply (Hrow row_v1). reflexivity.
  - destruct (saveToCache_upserts "k" "u" "X" (w_store ∅) ∅ eq_refl)
      as [_ (w'' & row & Hrun & Hrow & Hc & Hs & Hf)].
    exists w'', row. repeat split; assumption.
Defined.

(** C9. A save onto an existing entry writes the current time into both
    [created_at] and [updated_at]: the time the entry was first created
    is not kept. *)
Theorem saveToCache_resets_created_at (cacheKey url content' : string) (w : World)
    (table : gmap string Row) (row : Row) :
  store_ready w table ->
  table !! cacheKey = Some row ->
  exists w' row',
    saveToCache cacheKey url content' w = (Normal true, w')
    /\ table_of w' !! cacheKey = Some row'
    /\ created_at row' = clock w
    /\ updated_at row' = clock w
    /\ row_content row' = content'
    /\ success_count row' = success_count row + 1
    /\ fail_count row' = fail_count row.
Proof.
  intros H Hrow. eexists _, _.
  split; [apply (saveToCache_run _ _ _ _ _ H)|].
  rewrite table_of_set, upsert_lookup, Hrow.
  repeat split; reflexivity.
Qed.

Lemma saveToCache_resets_created_at_witness :
  exists row',
    table_of (saveToCache "0" "" "PROXYLIST_V2" (w_store (one_row "0" row_v1))).2 !! "0"
    = Some row'
    /\ created_at row_v1 = 1000
    /\ created_at row' = 2000.
Proof.
  destruct (saveToCache_resets_created_at "0" "" "PROXYLIST_V2"
              (w_store (one_row "0" row_v1)) (one_row "0" row_v1) row_v1
              eq_refl eq_refl)
    as (w' & row' & Hrun & Hrow & Hc & _).
  exists row'. rewrite Hrun. repeat split; assumption.
Defined.

Lemma set_dbBinding_id (w : World) : set_dbBinding (dbBinding w) w = w.
Proof. now destruct w. Qed.

Lemma recordFailAttempt_result (cacheKey : string) (w : World) :
  (recordFailAttempt cacheKey w).1 = Normal (store_usable w).
Proof.
  unfold recordFailAttempt, store_usable, mbind, M_bind, getDb, try_catch, Date_now.
  destruct (dbBinding w) as [db|]; [|reflexivity].
  unfold d1_run. destruct (d1_fails db); reflexivity.
Qed.

Lemma bump_fail_lookup (cacheKey : string) (now : Z) (table : gmap string Row) :
  bump_fail cacheKey now table !! cacheKey
  = (fun row =>
       {| row_url := row_url row; row_content := row_content row;
          created_at := created_at row; updated_at := now;
          success_count := success_count row;
          fail_count := fail_count row + 1 |}) <$> table !! cacheKey.
Proof. unfold bump_fail. apply lookup_alter_eq. Qed.

Lemma bump_fail_lookup_ne (cacheKey other : string) (now : Z)
    (table : gmap string Row) :
  other <> cacheKey -> bump_fail cacheKey now table !! other = table !! other.
Proof. intros H. unfold bump_fail. now apply lookup_alter_ne. Qed.

Lemma bump_fail_absent (cacheKey : string) (now : Z) (table : gmap string Row) :
  table !! cacheKey = None -> bump_fail cacheKey now table = table.
Proof.
  intros H. apply map_eq. intros i. destruct (decide (i = cacheKey)) as [->|Hne].
  - now rewrite bump_fail_lookup, H.
  - now apply bump_fail_lookup_ne.
Qed.

(** Any number of recorded failures keeps the content, the success
    counter and the creation time of the entry. *)
Lemma recordFailAttempt_times_run (cacheKey : string) (n : nat) :
  forall (w : World) (table : gmap string Row),
    store_ready w table ->
    exists table',
      recordFailAttempt_times n cacheKey w
      = (Normal tt, set_dbBinding (Some (healthy table')) w)
      /\ (forall row, table !! cacheKey = Some row ->
            exists row',
              table' !! cacheKey = Some row'
              /\ row_content row' = row_content row
              /\ success_count row' = success_count row
              /\ created_at row' = created_at row
              /\ fail_count row' = fail_count row + Z.of_nat n)
      /\ (table !! cacheKey = None -> table' = table).
Proof.
  induction n as [|n IH]; intros w table H.
  - exists table. split; [|split].
    + cbn [recordFailAttempt_times]. unfold mret, M_ret.
      unfold store_ready in H. rewrite <- H. now rewrite set_dbBinding_id.
    + intros row Hrow. exists row. repeat split; [assumption|cbn; lia].
    + reflexivity.
  - cbn [recordFailAttempt_times]. unfold mbind, M_bind.
    rewrite (recordFailAttempt_run _ _ _ H).
    destruct (IH _ _ (store_ready_set (bump_fail cacheKey (clock w) table) w))
      as (table' & Hrun & Hkeep & Habs).
    exists table'. split; [|split].
    + rewrite Hrun. reflexivity.
    + intros row Hrow.
      destruct (Hkeep _ ltac:(rewrite bump_fail_lookup, Hrow; reflexivity))
        as (row' & Hl & Hc & Hs & Hcr & Hf).
      exists row'. cbn in Hc, Hs, Hcr, Hf. repeat split; try assumption. lia.
    + intros Hnone. rewrite Habs; rewrite bump_fail_absent; auto.
Qed.

(** C7 (as amended). [recordFailAttempt] answers [true] exactly when a
    store is bound and its statement runs, whether or not the key has a
    row. With the store running, an existing row gets its failure counter
    incremented and [updated_at] refreshed while its content, success
    counter, url and creation time stay; when the key has no row the
    table is left as it is, so no entry is created; and after a save of
    some content any number of recorded failures leaves that content to
    be read back. *)
Theorem recordFailAttempt_frame (cacheKey : string) (w : World) :
  (recordFailAttempt cacheKey w).1 = Normal (store_usable w)
  /\ (forall table,
        store_ready w table ->
        exists w',
          recordFailAttempt cacheKey w = (Normal true, w')
          /\ (forall row, table !! cacheKey = Some row ->
                table_of w' !! cacheKey
                = Some {| row_url := row_url row; row_content := row_content row;
                          created_at := created_at row; updated_at := clock w;
                          success_count := success_count row;
                          fail_count := fail_count row + 1 |})
          /\ (table !! cacheKey = None -> table_of w' = table)
          /\ (forall other, other <> cacheKey ->
                table_of w' !! other = table !! other))
  /\ (forall table url content' n,
        store_ready w table -> valid_time (clock w) ->
        exists cached,
          ((saveToCache cacheKey url content' ≫= fun _ =>
            recordFailAttempt_times n cacheKey ≫= fun _ =>
            getCachedContent cacheKey) w).1 = Normal (Some cached)
          /\ cached_content cached = content'
          /\ failCount cached
             = default 0 (fail_count <$> table !! cacheKey) + Z.of_nat n).
Proof.
  split; [apply recordFailAttempt_result|]. split.
  - intros table H. eexists. split; [apply (recordFailAttempt_run _ _ _ H)|].
    rewrite table_of_set. repeat split.
    + intros row Hrow. now rewrite bump_fail_lookup, Hrow.
    + now apply bump_fail_absent.
    + intros other Hne. now apply bump_fail_lookup_ne.
  - intros table url content' n H Ht.
    step_bind.
    rewrite (saveToCache_run _ _ _ _ _ H).
    step_bind.
    destruct (recordFailAttempt_times_run cacheKey n _ _
                (store_ready_set (upsert cacheKey url content' (clock w) table) w))
      as (table' & Hrun & Hkeep & _).
    rewrite Hrun, set_dbBinding_twice.
    destruct (Hkeep _ (upsert_lookup _ _ _ _ _)) as (row' & Hl & Hc & _ & Hcr & Hf).
    cbn in Hc, Hcr, Hf.
    rewrite (getCachedContent_hit cacheKey _ row').
    + exists (cached_of row'). repeat split; [exact Hc|]. cbn. exact Hf.
    + rewrite (stored_entry_ready _ table') by reflexivity. exact Hl.
    + now rewrite Hcr.
Qed.

(** C7, the claim as worded: on a key without a row the answer is
    [true], not [false]. *)
Lemma recordFailAttempt_absent_key_true :
  (recordFailAttempt "1df34a3f" (w_store ∅)).1 = Normal true
  /\ (recordFailAttempt "1df34a3f" (w_store ∅)).1 <> Normal false
  /\ table_of (recordFailAttempt "1df34a3f" (w_store ∅)).2 = ∅.
Proof.
  split; [reflexivity|]. split; [discriminate|]. reflexivity.
Qed.

Lemma recordFailAttempt_frame_witness :
  (table_of (recordFailAttempt "0" (w_store (one_row "0" row_v1))).2 !! "0"
   = Some {| row_url := ""; row_content := "PROXYLIST_V1"; created_at := 1000;
             updated_at := 2000; success_count := 5; fail_count := 3 |})
  /\ (exists cached,
        ((saveToCache "0" "" "X" ≫= fun _ =>
          recordFailAttempt_times 4 "0" ≫= fun _ =>
          getCachedContent "0") (w_store ∅)).1 = Normal (Some cached)
        /\ cached_content cached = "X"
        /\ failCount cached = 4).
Proof.
  split.
  - destruct (recordFailAttempt_frame "0" (w_store (one_row "0" row_v1)))
      as (_ & Hrow & _).
    destruct (Hrow (one_row "0" row_v1) eq_refl) as (w' & Hrun & Hex & _).
    rewrite Hrun. apply (Hex row_v1). reflexivity.
  - destruct (recordFailAttempt_frame "0" (w_store ∅)) as (_ & _ & Hn).
    destruct (Hn ∅ "" "X" 4%nat eq_refl) as (cached & Hrun & Hc & Hf).
    + unfold valid_time. cbn. lia.
    + exists cached. repeat split; assumption.
Defined.

(** ** Statistics *)

Lemma or_number_zero (z : Z) : or_number (Some (Int z)) (Int 0) = Int z.
Proof.
  unfold or_number, truthy_number, truthy.
  destruct (Z.eqb_spec z 0) as [->|]; reflexivity.
Qed.

(** C8 (as amended). [getCacheStats] returns an object with the two
    properties [totalCached] and [withSuccess]: the number of stored
    entries and the number of entries whose success counter is positive;
    with no store bound it returns an object with the one property
    [error]. It does not touch the world. *)
Theorem getCacheStats_counts (w : World) :
  (forall table,
     store_ready w table ->
     getCacheStats w
     = (Normal
          [("totalCached", VNum (Int (Z.of_nat (size table))));
           ("withSuccess",
            VNum (Int (Z.of_nat
                         (size (filter (fun kv => 0 < success_count kv.2) table)))))],
        w))
  /\ (dbBinding w = None ->
      getCacheStats w = (Normal [("error", VStr "D1 database not initialized")], w)).
Proof.
  split.
  - intros table H. unfold getCacheStats, mbind, M_bind, getDb, try_catch.
    rewrite H. unfold d1_query, healthy, mret, M_ret, count_all, count_with_success.
    cbn [d1_fails d1_table]. now rewrite !or_number_zero.
  - intros H. unfold getCacheStats, mbind, M_bind, getDb. rewrite H. reflexivity.
Qed.

Lemma getCacheStats_counts_witness :
  getCacheStats (w_store (one_row "0" row_v1))
  = (Normal [("totalCached", VNum (Int 1)); ("withSuccess", VNum (Int 1))],
     w_store (one_row "0" row_v1))
  /\ getCacheStats w_down
     = (Normal [("error", VStr "D1 database not initialized")], w_down).
Proof.
  destruct (getCacheStats_counts (w_store (one_row "0" row_v1))) as [H _].
  destruct (getCacheStats_counts w_down) as [_ H'].
  split.
  - rewrite (H (one_row "0" row_v1) eq_refl). reflexivity.
  - apply H'. reflexivity.
Defined.

(** C8, the claim as worded: on a store with one entry that succeeded
    five times and failed twice, the object returned has none of the four
    properties of the specification and no sum of counters or sizes; the
    statistics query of the script is where those sums are computed. *)
Lemma getCacheStats_not_as_specified :
  (getCacheStats (w_store (one_row "0" row_v1))).1
  = Normal [("totalCached", VNum (Int 1)); ("withSuccess", VNum (Int 1))]
  /\ stats_as_specified (one_row "0" row_v1)
     = [("totalEntries", VNum (Int 1)); ("totalSuccess", VNum (Int 5));
        ("totalFail", VNum (Int 2)); ("totalBytes", VNum (Int 12))]
  /\ (getCacheStats (w_store (one_row "0" row_v1))).1
     <> Normal (stats_as_specified (one_row "0" row_v1))
  /\ property "totalSuccess"
       [("totalCached", VNum (Int 1)); ("withSuccess", VNum (Int 1))] = None
  /\ showStats_query (one_row "0" row_v1)
     = {| total := 1; total_success := Some 5; total_fail := Some 2;
          total_size := Some 12 |}.
Proof.
  assert (H1 : (getCacheStats (w_store (one_row "0" row_v1))).1
               = Normal [("totalCached", VNum (Int 1)); ("withSuccess", VNum (Int 1))])
    by (vm_compute; reflexivity).
  assert (H2 : stats_as_specified (one_row "0" row_v1)
               = [("totalEntries", VNum (Int 1)); ("totalSuccess", VNum (Int 5));
                  ("totalFail", VNum (Int 2)); ("totalBytes", VNum (Int 12))])
    by (vm_compute; reflexivity).
  split; [exact H1|]. split; [exact H2|]. split; [|split].
  - rewrite H1, H2. discriminate.
  - reflexivity.
  - vm_compute. reflexivity.
Qed.

(** ** The orchestrator *)

Lemma fetchWithCache_key_throws (url : string) (options : Options) (w : World)
    (e : Thrown) :
  generateCacheKey (VStr url) = Throw e ->
  fetchWithCache url options w = (Throw e, w).
Proof.
  intros H. unfold fetchWithCache. step_bind.
  unfold lift. rewrite H. reflexivity.
Qed.

(** Every non-empty url makes [fetchWithCache] throw before any request
    is issued and before the cache is consulted. *)
Lemma fetchWithCache_nonempty_url (url : string) (options : Options) (w : World) :
  url <> "" ->
  fetchWithCache url options w
  = (Throw (ThrownError "TypeError" "data.charCodeAt is not a function"), w).
Proof.
  intros H. apply fetchWithCache_key_throws. now apply generateCacheKey_string.
Qed.

Lemma failure_of_error (r : Reply) (e : Thrown) :
  failure_of r = Some e ->
  exists name message, e = ThrownError name message /\ failure_message r = Some message.
Proof.
  unfold failure_message. intros H. rewrite H.
  destruct r as [message|status statusText body|status statusText message];
    cbn in H.
  - injection H as <-. eexists _, _. split; reflexivity.
  - destruct (status_ok status); [discriminate|]. injection H as <-.
    eexists _, _. split; reflexivity.
  - destruct (status_ok status); injection H as <-; eexists _, _; split; reflexivity.
Qed.

Lemma stored_entry_add_requests (rs : list Request) (w : World) (key : string) :
  stored_entry (add_requests rs w) key = stored_entry w key.
Proof. reflexivity. Qed.

(** What the [catch] branch returns once the error has a message. *)
Lemma fetchWithCache_exhausted (url key : string) (options : Options) (m : Z)
    (w : World) :
  generateCacheKey (VStr url) = Normal key ->
  or_number (maxRetries options) (Int 3) = Int m ->
  1 <= m ->
  well_formed options ->
  fails_first w url options m ->
  exists message,
    failure_message (reply_to w url options m) = Some message
    /\ fetchWithCache url options w
       = (Normal (match fallback_content w key with
                  | Some stored => fallback_result stored
                  | None => failure_result message
                  end),
          add_requests (attempt_requests url options (Z.to_nat m)) w).
Proof.
  intros Hkey Hbudget Hm Hwf Hfail.
  destruct (fetchWithRetry_exhausted url options Hwf m w Hm Hfail) as (e & Hrun & He).
  destruct (failure_of_error _ _ He) as (name & message & -> & Hmsg).
  exists message. split; [exact Hmsg|].
  unfold fetchWithCache. step_bind.
  unfold lift. rewrite Hkey, Hbudget.
  unfold try_catch. step_bind. rewrite Hrun.
  step_bind. cbn [error_message].
  step_bind.
  rewrite getCachedContent_run, stored_entry_add_requests.
  unfold fallback_content.
  destruct (stored_entry w key) as [row|]; [|reflexivity].
  destruct (Z.abs (created_at row) <=? 8640000000000000); [|reflexivity].
  cbn [andb cached_of cached_content truthy].
  destruct (String.eqb (row_content row) ""); reflexivity.
Qed.

(** Once the loop has run a round, what it throws is an error object. *)
Lemma retry_loop_throws_error (url : string) (options : Options) (n : nat) :
  forall (a : Z) (e0 : Thrown) (w : World) (e : Thrown) (w' : World),
    (n <> O \/ exists name message, e0 = ThrownError name message) ->
    retry_loop url options n a e0 w = (Throw e, w') ->
    exists name message, e = ThrownError name message.
Proof.
  destruct (well_formed_cases options) as [Hwf|(base & e' & Hb & He)].
  - induction n as [|n IH]; intros a e0 w e w' Hpre Hrun.
    + destruct Hpre as [Hn|Herr]; [congruence|].
      cbn in Hrun. injection Hrun as <- _. exact Herr.
    + rewrite (retry_loop_S url options Hwf) in Hrun.
      destruct (outcome_of _) as [body|e1] eqn:Hout; [discriminate|].
      apply (IH _ _ _ _ _ (or_intror (outcome_of_throw _ _ Hout)) Hrun).
  - intros a e0 w e w' Hpre Hrun.
    rewrite (retry_loop_ill_formed url options base e' Hb He) in Hrun.
    injection Hrun as <- _. destruct n as [|n].
    + destruct Hpre as [Hn|Herr]; [congruence|exact Herr].
    + destruct (Headers_new_throws _ _ He) as [message ->]. eauto.
Qed.

(** The loop only calls [fetch]: the store is as before. *)
Lemma retry_loop_dbBinding (url : string) (options : Options) (n : nat) :
  forall (a : Z) (e0 : Thrown) (w : World) (c : Completion string) (w' : World),
    retry_loop url options n a e0 w = (c, w') -> dbBinding w' = dbBinding w.
Proof.
  destruct (well_formed_cases options) as [Hwf|(base & e' & Hb & He)].
  - induction n as [|n IH]; intros a e0 w c w' Hrun.
    + cbn in Hrun. now injection Hrun as _ <-.
    + rewrite (retry_loop_S url options Hwf) in Hrun.
      destruct (outcome_of _) as [body|e1].
      * now injection Hrun as _ <-.
      * now rewrite (IH _ _ _ _ _ Hrun).
  - intros a e0 w c w' Hrun.
    rewrite (retry_loop_ill_formed url options base e' Hb He) in Hrun.
    now injection Hrun as _ <-.
Qed.

Lemma stored_entry_dbBinding (w w' : World) (key : string) :
  dbBinding w' = dbBinding w -> stored_entry w' key = stored_entry w key.
Proof. intros H. unfold stored_entry. now rewrite H. Qed.

(** With a key derived and a budget of at least one attempt (given, or
    the default for an absent or falsy [maxRetries]) the orchestrator
    returns one of its three results, and [success] is [false] exactly
    when the attempts are exhausted and there is no content to fall back
    on. *)
Lemma fetchWithCache_returns (url key : string) (options : Options) (m : Z)
    (w : World) :
  generateCacheKey (VStr url) = Normal key ->
  or_number (maxRetries options) (Int 3) = Int m ->
  1 <= m ->
  exists r w',
    fetchWithCache url options w = (Normal r, w')
    /\ (success r = false <->
        (exists e w1, fetchWithRetry url options (Some (Int m)) w = (Throw e, w1))
        /\ fallback_content w key = None).
Proof.
  intros Hkey Hbudget Hm.
  unfold fetchWithCache. step_bind.
  unfold lift. rewrite Hkey, Hbudget.
  unfold try_catch. step_bind.
  destruct (fetchWithRetry url options (Some (Int m)) w) as [[body|e] w1] eqn:Hrun.
  - step_bind.
    destruct (saveToCache_total key url body w1) as (b & w' & Hsave & _).
    rewrite Hsave. eexists _, _. split; [reflexivity|]. cbn [success].
    split; [discriminate|]. intros [(e & w2 & [=]) _].
  - rewrite fetchWithRetry_unfold in Hrun.
    assert (Hn : Z.to_nat m <> O) by lia.
    destruct (retry_loop_throws_error _ _ _ _ _ _ _ _ (or_introl Hn) Hrun)
      as (name & message & ->).
    step_bind. cbn [error_message].
    step_bind.
    rewrite getCachedContent_run.
    rewrite (stored_entry_dbBinding w w1 key (retry_loop_dbBinding _ _ _ _ _ _ _ _ Hrun)).
    unfold fallback_content.
    destruct (stored_entry w key) as [row|].
    + destruct (Z.abs (created_at row) <=? 8640000000000000).
      * cbn [andb cached_of cached_content truthy].
        destruct (String.eqb (row_content row) "").
        -- eexists _, _. split; [reflexivity|]. cbn. split; [eauto|reflexivity].
        -- eexists _, _. split; [reflexivity|]. cbn.
           split; [discriminate|]. intros [_ [=]].
      * eexists _, _. split; [reflexivity|]. cbn. split; [eauto|reflexivity].
    + eexists _, _. split; [reflexivity|]. cbn. split; [eauto|reflexivity].
Qed.

(** A negative budget runs no attempt; the loop throws [null] and the
    [catch] branch throws in its turn when it reads the message. *)
Lemma fetchWithCache_negative_budget (url key : string) (options : Options)
    (m : Z) (w : World) :
  generateCacheKey (VStr url) = Normal key ->
  maxRetries options = Some (Int m) ->
  m < 0 ->
  fetchWithCache url options w
  = (Throw (ThrownError "TypeError"
              "Cannot read properties of null (reading 'message')"), w).
Proof.
  intros Hkey Hopt Hm.
  unfold fetchWithCache. step_bind.
  unfold lift. rewrite Hkey, Hopt.
  unfold or_number, truthy_number, truthy.
  destruct (Z.eqb_spec m 0) as [->|_]; [lia|]. cbn [negb].
  unfold try_catch. step_bind.
  rewrite fetchWithRetry_unfold.
  replace (Z.to_nat m) with O by lia. reflexivity.
Qed.

(** An absent or falsy [maxRetries] is a budget of three. *)
Lemma or_number_default (maxRetries' : option JsNumber) :
  maxRetries' = None \/ maxRetries' = Some (Int 0) \/ maxRetries' = Some NaN ->
  or_number maxRetries' (Int 3) = Int 3.
Proof. intros [->|[->| ->]]; reflexivity. Qed.

Lemma fetchWithCache_default_budget (url key : string) (options : Options)
    (w : World) :
  generateCacheKey (VStr url) = Normal key ->
  maxRetries options = None \/ maxRetries options = Some (Int 0)
  \/ maxRetries options = Some NaN ->
  well_formed options ->
  fails_first w url options 3 ->
  length (requests (fetchWithCache url options w).2) = (length (requests w) + 3)%nat.
Proof.
  intros Hkey Hopt Hwf Hfail.
  destruct (fetchWithCache_exhausted url key options 3 w Hkey
              (or_number_default _ Hopt) ltac:(lia) Hwf Hfail) as (message & _ & Hrun).
  rewrite Hrun. cbn [snd requests add_requests].
  now rewrite length_app, length_attempt_requests.
Qed.

(** C1 (code defect). [fetchWithCache] derives the key outside its [try]
    block, and the key derivation throws on every non-empty url: on an
    ordinary subscription url the call throws a [TypeError] whatever the
    options and the world, instead of returning a result. A second way
    to throw: with the empty url and a negative budget no attempt runs,
    the loop throws [null], and reading its message in the [catch] block
    throws. *)
Theorem fetchWithCache_raises :
  (forall options w,
     fetchWithCache "https://a.test/sub" options w
     = (Throw (ThrownError "TypeError" "data.charCodeAt is not a function"), w))
  /\ fetchWithCache "" {| headers := None; maxRetries := Some (Int (-1)) |} w_200
     = (Throw (ThrownError "TypeError"
                 "Cannot read properties of null (reading 'message')"), w_200).
Proof.
  split.
  - intros options w. apply fetchWithCache_nonempty_url. discriminate.
  - apply (fetchWithCache_negative_budget "" "0" _ (-1)); [reflexivity..|lia].
Qed.

(** C10 (code defect). On an ordinary url with [maxRetries] 0 and an
    origin that is down, [fetchWithCache] throws from the key derivation
    and issues no request at all; only for the empty url, whose key
    derivation returns, does the default budget of three show. *)
Theorem fetchWithCache_zero_budget_no_request :
  fetchWithCache "https://a.test/sub" {| headers := None; maxRetries := Some (Int 0) |}
    w_down
  = (Throw (ThrownError "TypeError" "data.charCodeAt is not a function"), w_down)
  /\ requests w_down = []
  /\ length (requests (fetchWithCache "" {| headers := None; maxRetries := Some (Int 0) |}
                         w_down).2) = 3%nat.
Proof.
  split; [|split].
  - apply fetchWithCache_nonempty_url. discriminate.
  - reflexivity.
  - apply (fetchWithCache_default_budget "" "0"); [reflexivity|auto| |].
    + now apply well_formed_no_headers.
    + intros attempt _. discriminate.
Qed.

Lemma fallback_content_hit (w : World) (key : string) (row : Row) :
  stored_entry w key = Some row ->
  row_content row <> "" ->
  valid_time (created_at row) ->
  fallback_content w key = Some (row_content row).
Proof.
  intros H Hne Ht. unfold fallback_content.
  rewrite H, (valid_time_test _ Ht).
  destruct (String.eqb_spec (row_content row) ""); [contradiction|reflexivity].
Qed.

Lemma fallback_content_miss (w : World) (key : string) :
  (forall row,
     stored_entry w key = Some row ->
     row_content row = "" \/ ~ valid_time (created_at row)) ->
  fallback_content w key = None.
Proof.
  intros H. unfold fallback_content.
  destruct (stored_entry w key) as [row|]; [|reflexivity].
  destruct (H row eq_refl) as [Hempty|Htime].
  - rewrite Hempty. cbn. now rewrite andb_false_r.
  - destruct (Z.leb_spec (Z.abs (created_at row)) 8640000000000000) as [Hle|_];
      [|reflexivity].
    now contradiction Htime.
Qed.

(** The message of an HTTP failure is never empty. *)
Lemma http_failure_message (status : Z) (statusText body : string) :
  status_ok status = false ->
  failure_message (HttpResponse status statusText body)
  = Some ("HTTP " ++ int_toString 10 status ++ ": " ++ statusText)
  /\ "HTTP " ++ int_toString 10 status ++ ": " ++ statusText <> "".
Proof.
  intros H. unfold failure_message. cbn. rewrite H. split; [reflexivity|].
  discriminate.
Qed.

(** C3 (code defect). The fallback is written, but no url reaches it.
    With "PROXYLIST_V1" stored under the key the script derives for the
    url, where the worker reads it back, and an origin that is down,
    [fetchWithCache] does not return the stored content: it throws the
    [TypeError] of the key derivation, in front of its [try]. With
    nothing stored it throws the same error instead of returning the
    failure result. Only for the empty string, for which a key is derived
    and which [fetch] rejects, does the fallback show, with the warning
    spelled "Remote fetch failed, using cached content". *)
Theorem fetchWithCache_fallback_unreached :
  Script.generateCacheKey (VStr "https://a.test/sub") = "1df34a3f"
  /\ getCachedContent "1df34a3f" (w_store (one_row "1df34a3f" row_v1))
     = (Normal (Some {| cached_content := "PROXYLIST_V1"; successCount := 5;
                        failCount := 2; createdAt := 1000 |}),
        w_store (one_row "1df34a3f" row_v1))
  /\ fetchWithCache "https://a.test/sub" no_options
       (w_store (one_row "1df34a3f" row_v1))
     = (Throw (ThrownError "TypeError" "data.charCodeAt is not a function"),
        w_store (one_row "1df34a3f" row_v1))
  /\ fetchWithCache "https://a.test/sub" no_options (w_store ∅)
     = (Throw (ThrownError "TypeError" "data.charCodeAt is not a function"),
        w_store ∅)
  /\ (fetchWithCache "" no_options (w_store (one_row "0" row_v1))).1
     = Normal {| content := Some "PROXYLIST_V1"; fromCache := true; success := true;
                 warning := Some "Remote fetch failed, using cached content";
                 error := None |}.
Proof.
  split; [vm_compute; reflexivity|]. split; [vm_compute; reflexivity|].
  split; [apply fetchWithCache_nonempty_url; discriminate|].
  split; [apply fetchWithCache_nonempty_url; discriminate|].
  vm_compute. reflexivity.
Qed.

(** ** Request headers *)

(** No user-agent of the pool has white space around it. *)
Lemma pool_user_agents_normal (attempt : Z) :
  normalize_value (ua (selected_identity attempt)) = ua (selected_identity attempt).
Proof.
  assert (H : forallb (fun c => String.eqb (normalize_value (ua c)) (ua c))
                USER_AGENTS = true) by (vm_compute; reflexivity).
  rewrite List.forallb_forall in H. apply String.eqb_eq, H.
  unfold selected_identity. apply nth_In, pool_index_lt.
Qed.

(** The object built when [options] has no [headers] property. *)
Lemma build_headers_plain (options : Options) (attempt : Z) :
  headers options = None ->
  build_headers (selected_identity attempt) options attempt
  = Normal (if attempt =? 1 then list_to_map (ua_headers (selected_identity 1))
            else {[ "user-agent" := ua (selected_identity attempt) ]}).
Proof.
  intros H. unfold build_headers. rewrite H.
  change (Headers_new (default [] None)) with (Normal (∅ : Headers)).
  unfold mbind, Completion_bind.
  change (negb (Headers_has "user-agent" (∅ : Headers))) with true. cbv iota.
  destruct (Z.eqb_spec attempt 1) as [->|Hne].
  - vm_compute. reflexivity.
  - pose proof (selected_identity_ok attempt) as [Hua _]%andb_true_iff.
    rewrite (Headers_set_ok _ _ _ Hua), pool_user_agents_normal. reflexivity.
Qed.

Lemma attempt_request_plain (url : string) (options : Options) (attempt : Z) :
  headers options = None ->
  req_headers (attempt_request url options attempt)
  = (if attempt =? 1 then list_to_map (ua_headers (selected_identity 1))
     else {[ "user-agent" := ua (selected_identity attempt) ]}).
Proof.
  intros H. unfold attempt_request, attempt_headers, init_headers, sent_headers.
  cbn [req_headers]. rewrite H. cbn [fill_headers].
  now rewrite (build_headers_plain options attempt H).
Qed.

(** Without a [headers] property in [options], attempts other than the
    first send the user-agent of the selected identity and nothing else. *)
Lemma attempt_request_later (url : string) (options : Options) (attempt : Z) :
  headers options = None ->
  attempt <> 1 ->
  req_headers (attempt_request url options attempt)
  = {[ "user-agent" := ua (selected_identity attempt) ]}.
Proof.
  intros H Hne. rewrite (attempt_request_plain url options attempt H).
  now destruct (Z.eqb_spec attempt 1).
Qed.

(** The first attempt sends the whole header set of the first identity. *)
Lemma attempt_request_first (url : string) (options : Options) :
  headers options = None ->
  req_headers (attempt_request url options 1)
  = list_to_map (ua_headers (selected_identity 1)).
Proof. intros H. now rewrite (attempt_request_plain url options 1 H). Qed.

(** Without a [headers] property the identities rotate through the pool. *)
Lemma attempt_request_rotation (url : string) (options : Options) (attempt : Z) :
  headers options = None ->
  req_headers (attempt_request url options attempt) !! "user-agent"
  = Some (ua (selected_identity attempt)).
Proof.
  intros H. destruct (Z.eq_dec attempt 1) as [->|Hne].
  - rewrite attempt_request_first by exact H. vm_compute. reflexivity.
  - rewrite attempt_request_later by assumption. apply lookup_singleton_eq.
Qed.

(** With a [headers] property the constructor accepts, the call carries
    the [Headers] object made of that property and nothing else, on
    every attempt. *)
Lemma attempt_request_base_only (url : string) (options : Options) (attempt : Z)
    (base : list (string * string)) (hs : Headers) :
  headers options = Some base ->
  Headers_new base = Normal hs ->
  req_headers (attempt_request url options attempt) = hs.
Proof.
  intros H Hhs. unfold attempt_request, init_headers, sent_headers.
  cbn [req_headers]. rewrite H. cbn [fill_headers]. now rewrite Hhs.
Qed.

(** C5 (code defect). The headers built for an attempt are overridden by
    the spread of [options] into the init object of [fetch]. With the
    headers the worker itself passes (a user-agent only), the first
    request carries that user-agent and none of the first identity's
    other headers, although they were merged into the object built for
    the attempt; with base headers that name no user-agent, no request
    carries the user-agent of the pool. Only when [options] has no
    [headers] property do the requests rotate through the pool. *)
Theorem fetchWithRetry_request_headers :
  map req_headers
    (requests
       (fetchWithRetry "https://a.test/sub"
          {| headers := Some [("User-Agent", "curl/7.74.0")]; maxRetries := None |}
          (Some (Int 2)) w_503).2)
  = [ {[ "user-agent" := "curl/7.74.0" ]}; {[ "user-agent" := "curl/7.74.0" ]} ]
  /\ attempt_headers (selected_identity 1)
       {| headers := Some [("User-Agent", "curl/7.74.0")]; maxRetries := None |} 1
     !! "accept-encoding" = Some "gzip, br"
  /\ map (fun r => req_headers r !! "user-agent")
       (requests
          (fetchWithRetry "https://a.test/sub"
             {| headers := Some [("accept", "*/*")]; maxRetries := None |}
             (Some (Int 2)) w_503).2)
     = [None; None]
  /\ map (fun r => req_headers r !! "user-agent")
       (requests (fetchWithRetry "https://a.test/sub" no_options (Some (Int 3)) w_503).2)
     = [Some "FlClash/v0.8.74 clash-verge Platform/windows";
        Some "curl/7.88.1"; Some "ClashforWindows/0.20.31"].
Proof. repeat split; vm_compute; reflexivity. Qed.

(** * Further properties of the cache *)

Lemma clearCache_run (cacheKey : string) (w : World) (table : gmap string Row) :
  store_ready w table ->
  clearCache cacheKey w
  = (Normal true, set_dbBinding (Some (healthy (delete cacheKey table))) w).
Proof.
  intros H. unfold clearCache, mbind, M_bind, getDb, try_catch.
  rewrite H. reflexivity.
Qed.

Lemma clearAllCache_run (w : World) (table : gmap string Row) :
  store_ready w table ->
  clearAllCache w = (Normal true, set_dbBinding (Some (healthy ∅)) w).
Proof.
  intros H. unfold clearAllCache, mbind, M_bind, getDb, try_catch.
  rewrite H. reflexivity.
Qed.

Lemma store_usable_false (w : World) :
  store_usable w = false ->
  dbBinding w = None \/ exists db, dbBinding w = Some db /\ d1_fails db = true.
Proof.
  unfold store_usable. destruct (dbBinding w) as [db|]; [|now left].
  destruct (d1_fails db) eqn:E; [|discriminate]. right. eauto.
Qed.

Lemma stored_entry_unusable (w : World) (key : string) :
  store_usable w = false -> stored_entry w key = None.
Proof.
  unfold store_usable, stored_entry. destruct (dbBinding w) as [db|]; [|reflexivity].
  now destruct (d1_fails db).
Qed.

(** X1 (getCachedContent). A read never throws and never changes
    anything; what it returns, if not [null], is the entry stored under
    the key, field by field; and it returns [null] whenever no store is
    bound, the store's statements fail, or the key has no row. *)
Theorem getCachedContent_reads (cacheKey : string) (w : World) :
  exists found,
    getCachedContent cacheKey w = (Normal found, w)
    /\ (forall cached, found = Some cached ->
          exists row, stored_entry w cacheKey = Some row
                      /\ cached_content cached = row_content row
                      /\ successCount cached = success_count row
                      /\ failCount cached = fail_count row
                      /\ createdAt cached = created_at row)
    /\ (stored_entry w cacheKey = None -> found = None).
Proof.
  rewrite getCachedContent_run. eexists. split; [reflexivity|]. split.
  - intros cached Hfound. destruct (stored_entry w cacheKey) as [row|]; [|discriminate].
    destruct (Z.abs (created_at row) <=? 8640000000000000); [|discriminate].
    injection Hfound as <-. exists row. repeat split.
  - intros H. now rewrite H.
Qed.

Lemma getCachedContent_reads_witness :
  getCachedContent "0" (w_store (one_row "0" row_v1))
  = (Normal (Some {| cached_content := "PROXYLIST_V1"; successCount := 5;
                     failCount := 2; createdAt := 1000 |}),
     w_store (one_row "0" row_v1))
  /\ getCachedContent "1df34a3f" (w_store (one_row "0" row_v1))
     = (Normal None, w_store (one_row "0" row_v1)).
Proof.
  split.
  - destruct (getCachedContent_reads "0" (w_store (one_row "0" row_v1)))
      as (found & Hrun & Hsome & _).
    rewrite Hrun. destruct found as [cached|].
    + destruct (Hsome cached eq_refl) as (row & Hrow & Hc & Hs & Hf & Ht).
      injection Hrow as <-. destruct cached. cbn in Hc, Hs, Hf, Ht.
      now subst.
    + exfalso. revert Hrun. vm_compute. discriminate.
  - destruct (getCachedContent_reads "1df34a3f" (w_store (one_row "0" row_v1)))
      as (found & Hrun & _ & Hnone).
    rewrite Hrun, (Hnone eq_refl). reflexivity.
Defined.

(** X2 (saveToCache, getCachedContent). What was saved is what is read:
    after a save at a valid time, a read of the same key returns the
    saved content, the time of the save as creation time, one more
    success than before (1 on a fresh key) and the failures as before (0
    on a fresh key). *)
Theorem saveToCache_then_getCachedContent (cacheKey url content' : string)
    (w : World) (table : gmap string Row) :
  store_ready w table ->
  valid_time (clock w) ->
  ((saveToCache cacheKey url content' ≫= fun _ => getCachedContent cacheKey) w).1
  = Normal (Some {| cached_content := content';
                    successCount :=
                      default 0 (success_count <$> table !! cacheKey) + 1;
                    failCount := default 0 (fail_count <$> table !! cacheKey);
                    createdAt := clock w |}).
Proof.
  intros H Ht. step_bind. rewrite (saveToCache_run _ _ _ _ _ H).
  rewrite (getCachedContent_hit cacheKey _
             {| row_url := url; row_content := content';
                created_at := clock w; updated_at := clock w;
                success_count :=
                  default 1 ((fun row => success_count row + 1) <$> table !! cacheKey);
                fail_count := default 0 (fail_count <$> table !! cacheKey) |}).
  - cbn [fst]. unfold cached_of. cbn.
    destruct (table !! cacheKey) as [row|]; reflexivity.
  - rewrite (stored_entry_ready _ (upsert cacheKey url content' (clock w) table))
      by reflexivity.
    apply upsert_lookup.
  - exact Ht.
Qed.

Lemma saveToCache_then_getCachedContent_witness :
  ((saveToCache "0" "u" "X" ≫= fun _ => getCachedContent "0")
     (w_store (one_row "0" row_v1))).1
  = Normal (Some {| cached_content := "X"; successCount := 6; failCount := 2;
                    createdAt := 2000 |}).
Proof.
  apply (saveToCache_then_getCachedContent "0" "u" "X"
           (w_store (one_row "0" row_v1)) (one_row "0" row_v1)).
  - reflexivity.
  - unfold valid_time. cbn. lia.
Defined.

(** X3 (clearCache). With the store running, [clearCache] answers [true]
    whether or not the key had a row; afterwards a read of the key finds
    nothing, the other rows are as before, and the next save of the key
    starts its counters again at one success and no failure. *)
Theorem clearCache_forgets (cacheKey : string) (w : World) (table : gmap string Row) :
  store_ready w table ->
  exists w',
    clearCache cacheKey w = (Normal true, w')
    /\ getCachedContent cacheKey w' = (Normal None, w')
    /\ (forall other, other <> cacheKey -> table_of w' !! other = table !! other)
    /\ (forall url content',
          exists w'' row,
            saveToCache cacheKey url content' w' = (Normal true, w'')
            /\ table_of w'' !! cacheKey = Some row
            /\ row_content row = content'
            /\ success_count row = 1
            /\ fail_count row = 0).
Proof.
  intros H. eexists. split; [apply (clearCache_run _ _ _ H)|].
  split; [|split].
  - apply getCachedContent_miss.
    rewrite (stored_entry_ready _ (delete cacheKey table)) by reflexivity.
    apply lookup_delete_eq.
  - intros other Hne. rewrite table_of_set. now apply lookup_delete_ne.
  - intros url content'. eexists _, _.
    split; [apply (saveToCache_run _ _ _ _ (delete cacheKey table)); reflexivity|].
    rewrite table_of_set, upsert_lookup, lookup_delete_eq.
    repeat split.
Qed.

Lemma clearCache_forgets_witness :
  exists w',
    clearCache "0" (w_store (one_row "0" row_v1)) = (Normal true, w')
    /\ getCachedContent "0" w' = (Normal None, w').
Proof.
  destruct (clearCache_forgets "0" (w_store (one_row "0" row_v1))
              (one_row "0" row_v1) eq_refl) as (w' & Hrun & Hget & _).
  exists w'. split; assumption.
Defined.

(** X4 (clearAllCache, getCacheStats). With the store running,
    [clearAllCache] answers [true] and leaves no row: every read finds
    nothing and the statistics count no entry. *)
Theorem clearAllCache_empties (w : World) (table : gmap string Row) :
  store_ready w table ->
  exists w',
    clearAllCache w = (Normal true, w')
    /\ table_of w' = ∅
    /\ (forall cacheKey, getCachedContent cacheKey w' = (Normal None, w'))
    /\ getCacheStats w'
       = (Normal [("totalCached", VNum (Int 0)); ("withSuccess", VNum (Int 0))], w').
Proof.
  intros H. eexists. split; [apply (clearAllCache_run _ _ H)|].
  split; [reflexivity|]. split.
  - intros cacheKey. apply getCachedContent_miss.
    rewrite (stored_entry_ready _ ∅) by reflexivity. apply lookup_empty.
  - reflexivity.
Qed.

Lemma clearAllCache_empties_witness :
  exists w',
    clearAllCache (w_store (one_row "0" row_v1)) = (Normal true, w')
    /\ table_of w' = ∅.
Proof.
  destruct (clearAllCache_empties (w_store (one_row "0" row_v1))
              (one_row "0" row_v1) eq_refl) as (w' & Hrun & Hempty & _).
  exists w'. split; assumption.
Defined.

(** X5 (the five cache operations and the statistics). Without a usable
    store (none bound, or one whose statements fail) nothing throws and
    nothing changes: the writes answer [false], the read answers [null]
    and the statistics are an object with the one property [error]. *)
Theorem cache_without_store (w : World) :
  store_usable w = false ->
  (forall cacheKey url content', saveToCache cacheKey url content' w = (Normal false, w))
  /\ (forall cacheKey, recordFailAttempt cacheKey w = (Normal false, w))
  /\ (forall cacheKey, clearCache cacheKey w = (Normal false, w))
  /\ clearAllCache w = (Normal false, w)
  /\ (forall cacheKey, getCachedContent cacheKey w = (Normal None, w))
  /\ (exists message, getCacheStats w = (Normal [("error", VStr message)], w)).
Proof.
  intros H. pose proof (stored_entry_unusable w) as Hentry.
  destruct (store_usable_false w H) as [Hnone|(db & Hdb & Hfails)].
  - repeat split; intros;
      try (unfold saveToCache, recordFailAttempt, clearCache, clearAllCache,
             mbind, M_bind, getDb; rewrite Hnone; reflexivity).
    + apply getCachedContent_miss. now apply Hentry.
    + eexists. unfold getCacheStats, mbind, M_bind, getDb. rewrite Hnone. reflexivity.
  - repeat split; intros;
      try (unfold saveToCache, recordFailAttempt, clearCache, clearAllCache,
             mbind, M_bind, getDb, try_catch, Date_now, d1_run;
           rewrite Hdb, Hfails; reflexivity).
    + apply getCachedContent_miss. now apply Hentry.
    + eexists. unfold getCacheStats, mbind, M_bind, getDb, try_catch, d1_query.
      rewrite Hdb, Hfails. reflexivity.
Qed.

Lemma cache_without_store_witness :
  saveToCache "0" "u" "X" w_down = (Normal false, w_down)
  /\ getCachedContent "0" w_down = (Normal None, w_down).
Proof.
  destruct (cache_without_store w_down eq_refl) as (Hsave & _ & _ & _ & Hget & _).
  split; [apply Hsave|apply Hget].
Defined.

Lemma getCacheStats_run (w : World) (table : gmap string Row) :
  store_ready w table ->
  getCacheStats w
  = (Normal
       [("totalCached", VNum (Int (Z.of_nat (size table))));
        ("withSuccess",
         VNum (Int (Z.of_nat
                      (size (filter (fun kv => 0 < success_count kv.2) table)))))],
     w).
Proof.
  intros H. unfold getCacheStats, mbind, M_bind, getDb, try_catch.
  rewrite H. unfold d1_query, healthy, mret, M_ret, count_all, count_with_success.
  cbn [d1_fails d1_table]. now rewrite !or_number_zero.
Qed.

(** X6 (getCacheStats). The two counts are consistent: the number of
    entries with a success is never negative and never exceeds the number
    of entries. *)
Theorem getCacheStats_bounds (w : World) (table : gmap string Row) :
  store_ready w table ->
  exists totalCached withSuccess,
    getCacheStats w
    = (Normal [("totalCached", VNum (Int totalCached));
               ("withSuccess", VNum (Int withSuccess))], w)
    /\ 0 <= withSuccess <= totalCached
    /\ totalCached = Z.of_nat (size table).
Proof.
  intros H. eexists _, _. split; [apply (getCacheStats_run _ _ H)|].
  split; [|reflexivity].
  pose proof (map_subseteq_size _ _
                (map_filter_subseteq (fun kv : string * Row => 0 < success_count kv.2)
                   table)).
  lia.
Qed.

Lemma getCacheStats_bounds_witness :
  exists totalCached withSuccess,
    getCacheStats (w_store (one_row "0" row_v1))
    = (Normal [("totalCached", VNum (Int totalCached));
               ("withSuccess", VNum (Int withSuccess))],
       w_store (one_row "0" row_v1))
    /\ 0 <= withSuccess <= totalCached.
Proof.
  destruct (getCacheStats_bounds (w_store (one_row "0" row_v1))
              (one_row "0" row_v1) eq_refl) as (a & b & Hrun & Hb & _).
  exists a, b. split; assumption.
Defined.

(** X7 (saveToCache, getCacheStats). A save of a key that has no row adds
    one to both counts of the statistics; a save of a key that has a row
    leaves the number of entries as it is. *)
Theorem saveToCache_then_getCacheStats (cacheKey url content' : string)
    (w : World) (table : gmap string Row) :
  store_ready w table ->
  exists w',
    saveToCache cacheKey url content' w = (Normal true, w')
    /\ (table !! cacheKey = None ->
        getCacheStats w'
        = (Normal
             [("totalCached", VNum (Int (Z.of_nat (size table) + 1)));
              ("withSuccess",
               VNum (Int (Z.of_nat
                            (size (filter (fun kv => 0 < success_count kv.2) table))
                          + 1)))],
           w'))
    /\ (is_Some (table !! cacheKey) ->
        exists withSuccess,
          getCacheStats w'
          = (Normal [("totalCached", VNum (Int (Z.of_nat (size table))));
                     ("withSuccess", VNum (Int withSuccess))], w')).
Proof.
  intros H. eexists. split; [apply (saveToCache_run _ _ _ _ _ H)|].
  rewrite (getCacheStats_run _ (upsert cacheKey url content' (clock w) table))
    by reflexivity.
  unfold upsert. split.
  - intros Hnone. rewrite Hnone. cbn [fmap option_fmap option_map default].
    rewrite map_size_insert_None by exact Hnone.
    rewrite map_filter_insert_True by (cbn; lia).
    rewrite map_size_insert_None
      by (apply map_lookup_filter_None; left; exact Hnone).
    do 2 f_equal. repeat f_equal; lia.
  - intros Hsome. eexists.
    rewrite map_size_insert_Some by exact Hsome. reflexivity.
Qed.

Lemma saveToCache_then_getCacheStats_witness :
  exists w',
    saveToCache "k" "u" "X" (w_store (one_row "0" row_v1)) = (Normal true, w')
    /\ getCacheStats w'
       = (Normal [("totalCached", VNum (Int 2)); ("withSuccess", VNum (Int 2))], w').
Proof.
  destruct (saveToCache_then_getCacheStats "k" "u" "X"
              (w_store (one_row "0" row_v1)) (one_row "0" row_v1) eq_refl)
    as (w' & Hrun & Hfresh & _).
  exists w'. split; [exact Hrun|].
  rewrite (Hfresh eq_refl). reflexivity.
Defined.

(** * Further properties of the retry loop *)

(** Whatever the answers, the loop leaves the world as it was but for
    the calls of its first [k] attempts, [k] at most the rounds. *)
Lemma retry_loop_log (url : string) (options : Options) (n : nat) :
  forall (a : Z) (e0 : Thrown) (w : World),
  exists k,
    (k <= n)%nat
    /\ (retry_loop url options n a e0 w).2
       = add_requests
           (map (fun j => attempt_request url options (a + Z.of_nat j)) (seq 0 k)) w.
Proof.
  destruct (well_formed_cases options) as [Hwf|(base & e' & Hb & He)].
  - induction n as [|n IH]; intros a e0 w.
    + exists O. split; [lia|]. cbn [retry_loop seq map].
      now rewrite add_requests_nil.
    + rewrite (retry_loop_S url options Hwf).
      destruct (outcome_of _) as [body|e].
      * exists 1%nat. split; [lia|]. cbn [snd seq map]. rewrite Z.add_0_r.
        now rewrite <- add_request_requests, add_requests_nil.
      * destruct (IH (a + 1) e (add_request (attempt_request url options a) w))
          as (k & Hk & Hrun).
        exists (S k). split; [lia|]. rewrite Hrun, add_request_requests.
        f_equal. cbn [seq map]. rewrite Z.add_0_r. f_equal.
        rewrite <- seq_shift, map_map. apply map_ext. intros j. f_equal. lia.
  - intros a e0 w. exists O. split; [lia|].
    rewrite (retry_loop_ill_formed url options base e' Hb He).
    cbn [snd seq map]. now rewrite add_requests_nil.
Qed.

Lemma fetchWithRetry_log (url : string) (options : Options) (m : Z) (w : World) :
  exists k,
    (k <= Z.to_nat m)%nat
    /\ (fetchWithRetry url options (Some (Int m)) w).2
       = add_requests (attempt_requests url options k) w.
Proof.
  destruct (retry_loop_log url options (Z.to_nat m) 1 ThrownNull w) as (k & Hk & Hrun).
  exists k. split; [exact Hk|].
  rewrite fetchWithRetry_unfold, Hrun. now rewrite attempt_requests_from_1.
Qed.

Lemma attempt_requests_lookup (url : string) (options : Options) (n i : nat)
    (r : Request) :
  attempt_requests url options n !! i = Some r ->
  r = attempt_request url options (Z.of_nat (S i)).
Proof.
  unfold attempt_requests. rewrite list_lookup_fmap.
  destruct (seq 0 n !! i) as [j|] eqn:E; [|discriminate].
  apply lookup_seq in E as [-> _]. cbn. now intros [= <-].
Qed.

Lemma new_requests_lookup (rs : list Request) (w : World) (i : nat) (r : Request) :
  requests (add_requests rs w) !! (length (requests w) + i)%nat = Some r ->
  rs !! i = Some r.
Proof.
  cbn [requests add_requests]. rewrite lookup_app_r by lia.
  now replace (length (requests w) + i - length (requests w))%nat with i by lia.
Qed.

(** X8 (fetchWithRetry). Whatever the origin answers and whatever the
    budget, a call issues at most [maxRetries] requests, each of them a
    GET of the url it was given, and touches neither the store nor the
    clock; when it returns a body it has issued at least one request. *)
Theorem fetchWithRetry_bounded (url : string) (options : Options) (m : Z) (w : World) :
  exists rs,
    requests (fetchWithRetry url options (Some (Int m)) w).2 = (requests w ++ rs)%list
    /\ Z.of_nat (length rs) <= Z.max 0 m
    /\ Forall (fun r => req_url r = url /\ req_method r = "GET") rs
    /\ dbBinding (fetchWithRetry url options (Some (Int m)) w).2 = dbBinding w
    /\ clock (fetchWithRetry url options (Some (Int m)) w).2 = clock w
    /\ (forall body, (fetchWithRetry url options (Some (Int m)) w).1 = Normal body ->
          (1 <= length rs)%nat).
Proof.
  destruct (fetchWithRetry_log url options m w) as (k & Hk & Hrun).
  exists (attempt_requests url options k). rewrite Hrun.
  split; [reflexivity|]. split; [rewrite length_attempt_requests; lia|].
  split; [|split; [reflexivity|split; [reflexivity|]]].
  - unfold attempt_requests. apply Forall_forall. intros r Hr.
    apply list_elem_of_In, in_map_iff in Hr as (j & <- & _). now split.
  - intros body Hbody. rewrite length_attempt_requests.
    destruct k as [|k]; [|lia]. exfalso.
    rewrite add_requests_nil in Hrun.
    rewrite fetchWithRetry_unfold in Hbody, Hrun.
    destruct (well_formed_cases options) as [Hwf|(base & e' & Hb & He)];
      [|now rewrite (retry_loop_ill_formed url options base e' Hb He) in Hbody].
    destruct (Z.to_nat m) as [|n]; [discriminate Hbody|].
    rewrite (retry_loop_S url options Hwf) in Hbody, Hrun.
    destruct (outcome_of _) as [body'|e].
    + cbn [snd] in Hrun. apply (f_equal (fun w' => length (requests w'))) in Hrun.
      cbn [requests add_request] in Hrun. rewrite length_app in Hrun.
      cbn [length] in Hrun. lia.
    + destruct (retry_loop_log url options n (1 + 1) e
                  (add_request (attempt_request url options 1) w)) as (k' & _ & Hlog).
      rewrite Hlog, add_request_requests in Hrun.
      apply (f_equal (fun w' => length (requests w'))) in Hrun.
      cbn [requests add_requests] in Hrun. rewrite length_app in Hrun.
      cbn [length] in Hrun. lia.
Qed.

Lemma pool_index_S (i : nat) : pool_index (Z.of_nat (S i)) = (i mod 9)%nat.
Proof.
  unfold pool_index. rewrite length_USER_AGENTS.
  replace (Z.of_nat (S i) - 1) with (Z.of_nat i) by lia.
  now rewrite <- Nat2Z.inj_mod, Nat2Z.id.
Qed.

(** X9 (fetchWithRetry, USER_AGENTS). When [options] has no [headers]
    property, the request of attempt [i + 1] carries the user-agent of
    the pool entry [i mod 9]; the first request carries all the headers
    of the first entry, and every later request carries the user-agent
    and nothing else. *)
Theorem fetchWithRetry_rotates (url : string) (options : Options) (m : Z)
    (w : World) (i : nat) (r : Request) :
  headers options = None ->
  requests (fetchWithRetry url options (Some (Int m)) w).2
    !! (length (requests w) + i)%nat = Some r ->
  exists identity,
    USER_AGENTS !! (i mod 9)%nat = Some identity
    /\ req_headers r !! "user-agent" = Some (ua identity)
    /\ (i = O -> req_headers r = list_to_map (ua_headers identity))
    /\ (i <> O -> req_headers r = {[ "user-agent" := ua identity ]}).
Proof.
  intros Hnone Hr.
  destruct (fetchWithRetry_log url options m w) as (k & _ & Hrun).
  rewrite Hrun in Hr. apply new_requests_lookup, attempt_requests_lookup in Hr.
  subst r. exists (selected_identity (Z.of_nat (S i))).
  split; [rewrite <- pool_index_S; apply pool_lookup|].
  split; [now apply attempt_request_rotation|]. split.
  - intros ->. now apply attempt_request_first.
  - intros Hi. apply attempt_request_later; [exact Hnone|lia].
Qed.

Lemma fetchWithRetry_rotates_witness :
  exists r,
    requests (fetchWithRetry "https://a.test/sub" no_options (Some (Int 12)) w_503).2
      !! 10%nat = Some r
    /\ req_headers r = {[ "user-agent" := "curl/7.88.1" ]}.
Proof.
  assert (H : exists r,
             requests
               (fetchWithRetry "https://a.test/sub" no_options (Some (Int 12)) w_503).2
               !! (length (requests w_503) + 10)%nat = Some r).
  { eexists. vm_compute. reflexivity. }
  destruct H as (r & Hr). exists r. split; [exact Hr|].
  destruct (fetchWithRetry_rotates "https://a.test/sub" no_options 12 w_503 10 r
              eq_refl Hr)
    as (identity & Hid & _ & _ & Hlater).
  rewrite (Hlater ltac:(discriminate)).
  injection Hid as <-. reflexivity.
Defined.

(** What the constructor makes of an object with one property. *)
Lemma Headers_new_one (name value : string) :
  Headers_new [(name, value)]
  = (if header_name_ok name then
       if header_value_ok (normalize_value value)
       then Normal {[ lower name := normalize_value value ]}
       else Throw invalid_header_value
     else Throw invalid_header_name).
Proof.
  unfold Headers_new. cbn [Headers_fill]. unfold Headers_append. cbv zeta.
  destruct (header_name_ok name); [|reflexivity].
  destruct (header_value_ok (normalize_value value)); [|reflexivity].
  cbn [negb]. now rewrite lookup_empty.
Qed.

(** X10 (fetchWithRetry). When [options] has a [headers] property that
    the [Headers] constructor accepts, every call of every attempt
    carries the [Headers] object made of that property and nothing else
    (names in lower case, values without the white space around them):
    no user-agent of the pool is added and no header of a pool entry is
    merged, on the first attempt or later. When the constructor refuses
    the property, no call is made and the world stays as it is; what is
    thrown is the constructor's [TypeError] if the loop ran a round, and
    [null] if it ran none. *)
Theorem fetchWithRetry_base_headers_only (url : string) (options : Options)
    (base : list (string * string)) (m : Z) (w : World) :
  headers options = Some base ->
  (forall hs i r,
     Headers_new base = Normal hs ->
     requests (fetchWithRetry url options (Some (Int m)) w).2
       !! (length (requests w) + i)%nat = Some r ->
     req_headers r = hs)
  /\ (forall e,
        Headers_new base = Throw e ->
        fetchWithRetry url options (Some (Int m)) w
        = (Throw (if 1 <=? m then e else ThrownNull), w)
        /\ exists message, e = ThrownError "TypeError" message)
  /\ (forall name value,
        base = [(name, value)] ->
        entry_ok name value = true ->
        Headers_new base = Normal {[ lower name := normalize_value value ]}).
Proof.
  intros Hbase. split; [|split].
  - intros hs i r Hhs Hr.
    destruct (fetchWithRetry_log url options m w) as (k & _ & Hrun).
    rewrite Hrun in Hr. apply new_requests_lookup, attempt_requests_lookup in Hr.
    subst r. now apply (attempt_request_base_only url options _ base).
  - intros e He. split; [|now apply (Headers_new_throws base)].
    rewrite fetchWithRetry_unfold,
      (retry_loop_ill_formed url options base e Hbase He).
    destruct (Z.leb_spec 1 m) as [Hm|Hm].
    + destruct (Z.to_nat m) eqn:E; [lia|reflexivity].
    + now replace (Z.to_nat m) with O by lia.
  - intros name value -> [Hn Hv]%andb_true_iff.
    now rewrite Headers_new_one, Hn, Hv.
Qed.

Lemma fetchWithRetry_base_headers_only_witness :
  (exists r,
     requests
       (fetchWithRetry "https://a.test/sub"
          {| headers := Some [("X-Token", " t ")]; maxRetries := None |}
          (Some (Int 3)) w_503).2 !! 0%nat = Some r
     /\ req_headers r = {[ "x-token" := "t" ]})
  /\ fetchWithRetry "https://a.test/sub" refused_headers (Some (Int 3)) w_503
     = (Throw invalid_header_name, w_503).
Proof.
  split.
  - assert (H : exists r,
               requests
                 (fetchWithRetry "https://a.test/sub"
                    {| headers := Some [("X-Token", " t ")]; maxRetries := None |}
                    (Some (Int 3)) w_503).2
                 !! (length (requests w_503) + 0)%nat = Some r).
    { eexists. vm_compute. reflexivity. }
    destruct H as (r & Hr). exists r. split; [exact Hr|].
    destruct (fetchWithRetry_base_headers_only "https://a.test/sub"
                {| headers := Some [("X-Token", " t ")]; maxRetries := None |}
                [("X-Token", " t ")] 3 w_503 eq_refl) as (Hsent & _ & Hone).
    apply (Hsent _ 0%nat r); [|exact Hr].
    now apply (Hone "X-Token" " t ").
  - destruct (fetchWithRetry_base_headers_only "https://a.test/sub"
                refused_headers [("X A", "v")] 3 w_503 eq_refl) as (_ & Hthrow & _).
    destruct (Hthrow invalid_header_name eq_refl) as [Hrun _]. exact Hrun.
Defined.

(** X11 (fetchWithRetry). A budget that is zero, negative or NaN runs no
    attempt: no request is issued and what is thrown is [null], the
    initial [lastError], not an error object; an omitted budget is three. *)
Theorem fetchWithRetry_no_round (url : string) (options : Options) (m : Z) (w : World) :
  m <= 0 ->
  fetchWithRetry url options (Some (Int m)) w = (Throw ThrownNull, w)
  /\ fetchWithRetry url options (Some NaN) w = (Throw ThrownNull, w)
  /\ fetchWithRetry url options None w = fetchWithRetry url options (Some (Int 3)) w.
Proof.
  intros Hm. split; [|split; reflexivity].
  rewrite fetchWithRetry_unfold. now replace (Z.to_nat m) with O by lia.
Qed.

Lemma fetchWithRetry_no_round_witness :
  fetchWithRetry "https://a.test/sub" no_options (Some (Int 0)) w_200
  = (Throw ThrownNull, w_200).
Proof.
  apply (fetchWithRetry_no_round "https://a.test/sub" no_options 0 w_200). lia.
Defined.

(** * Further properties of the key derivation *)

Lemma append_cons (c : ascii) (a b : string) :
  (String c a ++ b)%string = String c (a ++ b).
Proof. reflexivity. Qed.

Lemma bytes_of_string_app (a b : string) :
  bytes_of_string (a ++ b) = (bytes_of_string a ++ bytes_of_string b)%list.
Proof.
  unfold bytes_of_string. induction a as [|c a IH]; [reflexivity|].
  rewrite append_cons. cbn [list_ascii_of_string map app]. f_equal. exact IH.
Qed.

Lemma digits_onto_length (radix : Z) (fuel : nat) :
  2 <= radix ->
  forall (k : nat) (n : Z) (acc : string),
    0 <= n < radix ^ Z.of_nat (S k) ->
    (String.length (digits_onto radix fuel n acc) <= S k + String.length acc)%nat.
Proof.
  intros Hr. induction fuel as [|fuel IH]; intros k n acc Hn; cbn [digits_onto].
  - cbn [String.length]. lia.
  - destruct (Z.eqb_spec (n / radix) 0) as [_|Hq]; [cbn [String.length]; lia|].
    destruct k as [|k].
    + exfalso. apply Hq. apply Z.div_small.
      change (Z.of_nat 1) with 1 in Hn. rewrite Z.pow_1_r in Hn. lia.
    + specialize (IH k (n / radix) (String (digit_char (n mod radix)) acc)).
      cbn [String.length] in IH.
      assert (Hdiv : 0 <= n / radix < radix ^ Z.of_nat (S k)).
      { split; [apply Z.div_pos; lia|].
        apply Z.div_lt_upper_bound; [lia|].
        rewrite (Nat2Z.inj_succ (S k)), Z.pow_succ_r in Hn by lia. lia. }
      specialize (IH Hdiv). lia.
Qed.

Lemma key_of_hash_length (z : Z) :
  (String.length (key_of_hash (ToInt32 z)) <= 8)%nat.
Proof.
  unfold key_of_hash, int_toString.
  destruct (Z.abs (ToInt32 z) <? 0) eqn:E; [apply Z.ltb_lt in E; lia|].
  unfold nat_toString.
  pose proof (ToInt32_range z) as Hrange.
  pose proof (digits_onto_length 16 (Z.to_nat (Z.log2 (Z.abs (ToInt32 z))))
                ltac:(lia) 7 (Z.abs (ToInt32 z)) "") as H.
  cbn [String.length] in H. rewrite Nat.add_0_r in H. apply H.
  change (16 ^ Z.of_nat 8) with (2 ^ 32). lia.
Qed.

Lemma is_lower_hex_not_i : ~ is_lower_hex "i".
Proof.
  unfold is_lower_hex. cbn. intros H.
  repeat (destruct H as [H|H]; [discriminate H|]). exact H.
Qed.

(** X12 (generateCacheKey of scripts/cache.js). For a non-empty string the
    key is the hexadecimal rendering of the absolute value of the sum of
    [byte_i * 31^(n-1-i)] wrapped once to 32 bits: wrapping after every
    round, as the loop does, or once at the end gives the same key. Any
    other argument, the empty string included, gives 'invalid-url'. *)
Theorem script_key_closed_form (url : JsVal) :
  (forall s, url = VStr s -> s <> "" ->
     Script.generateCacheKey url
     = key_of_hash (ToInt32 (poly31 (bytes_of_string s))))
  /\ ((forall s, url = VStr s -> s = "") ->
      Script.generateCacheKey url = "invalid-url").
Proof.
  rewrite script_generateCacheKey_spec. split.
  - intros s -> Hs. now destruct (String.eqb_spec s "").
  - intros H. destruct url as [| |b|n|s]; try reflexivity.
    now rewrite (H s eq_refl).
Qed.

Lemma script_key_closed_form_witness :
  Script.generateCacheKey (VStr "https://a.test/sub")
  = key_of_hash (ToInt32 (poly31 (bytes_of_string "https://a.test/sub")))
  /\ Script.generateCacheKey (VBool true) = "invalid-url".
Proof.
  split.
  - destruct (script_key_closed_form (VStr "https://a.test/sub")) as [H _].
    apply (H "https://a.test/sub" eq_refl). discriminate.
  - destruct (script_key_closed_form (VBool true)) as [_ H].
    apply H. intros s Hs. discriminate Hs.
Defined.

(** X13 (generateCacheKey of scripts/cache.js). The key of a non-empty
    string is one to eight lower-case hexadecimal digits, reads back as
    the absolute value of the accumulator, which is at most 2^31, and is
    never the sentinel 'invalid-url'. *)
Theorem script_key_shape (s : string) :
  s <> "" ->
  (1 <= String.length (Script.generateCacheKey (VStr s)) <= 8)%nat
  /\ Forall is_lower_hex (list_ascii_of_string (Script.generateCacheKey (VStr s)))
  /\ 0 <= digits_value 16 (Script.generateCacheKey (VStr s)) 0 <= 2 ^ 31
  /\ Script.generateCacheKey (VStr s) <> "invalid-url".
Proof.
  intros Hs. rewrite script_generateCacheKey_spec.
  destruct (String.eqb_spec s ""); [contradiction|].
  destruct (key_of_hash_hex (ToInt32 (poly31 (bytes_of_string s)))) as [Hhex Hne].
  split; [split|split; [exact Hhex|split]].
  - destruct (key_of_hash _); [congruence|cbn [String.length]; lia].
  - apply key_of_hash_length.
  - rewrite key_of_hash_value.
    pose proof (ToInt32_range (poly31 (bytes_of_string s))). lia.
  - intros Heq. rewrite Heq in Hhex. cbn [list_ascii_of_string] in Hhex.
    apply Forall_cons in Hhex as [Hi _]. now apply is_lower_hex_not_i.
Qed.

Lemma script_key_shape_witness :
  (1 <= String.length (Script.generateCacheKey (VStr "https://a.test/sub")) <= 8)%nat
  /\ Script.generateCacheKey (VStr "https://a.test/sub") <> "invalid-url".
Proof.
  destruct (script_key_shape "https://a.test/sub") as (Hlen & _ & _ & Hne).
  - discriminate.
  - split; assumption.
Defined.

Lemma string_app_nonempty (p s : string) (c : ascii) (t : string) :
  (p ++ String c t ++ s)%string <> "".
Proof. destruct p; discriminate. Qed.

Lemma string_app_inj_l (p a b : string) : (p ++ a)%string = (p ++ b)%string -> a = b.
Proof.
  induction p as [|c p IH]; [auto|]. rewrite !append_cons. intros [= H]. auto.
Qed.

(** X14 (generateCacheKey of scripts/cache.js). The key does not tell urls
    apart: replacing "Aa" by "BB" anywhere in a url gives a different url
    with the same key, so the two share one cache row. *)
Theorem script_key_collisions (p s : string) :
  (p ++ "Aa" ++ s)%string <> (p ++ "BB" ++ s)%string
  /\ Script.generateCacheKey (VStr (p ++ "Aa" ++ s))
     = Script.generateCacheKey (VStr (p ++ "BB" ++ s)).
Proof.
  split.
  - intros H. apply string_app_inj_l in H. discriminate H.
  - rewrite !script_generateCacheKey_spec.
    destruct (String.eqb_spec (p ++ "Aa" ++ s) "") as [E|_];
      [now apply string_app_nonempty in E|].
    destruct (String.eqb_spec (p ++ "BB" ++ s) "") as [E|_];
      [now apply string_app_nonempty in E|].
    do 2 f_equal. rewrite !bytes_of_string_app. unfold poly31.
    rewrite !fold_left_app. f_equal.
    change (bytes_of_string "Aa") with [65; 97].
    change (bytes_of_string "BB") with [66; 66].
    rewrite !fold_left_cons_eq, !fold_left_nil_eq. ring.
Qed.

(** X15 (generateCacheKey of cacheManager.js). The worker's key derivation
    returns a key only for an argument that encodes to no byte, the
    empty string and [undefined], and that key is "0"; for every other
    argument, every non-empty string included, it throws the TypeError of
    calling [charCodeAt] on the byte array. *)
Theorem generateCacheKey_zero_or_throws (url : JsVal) :
  (TextEncoder_encode url = [] /\ generateCacheKey url = Normal "0")
  \/ (TextEncoder_encode url <> []
      /\ generateCacheKey url
         = Throw (ThrownError "TypeError" "data.charCodeAt is not a function")).
Proof.
  destruct (TextEncoder_encode url) as [|b data] eqn:E.
  - left. split; [reflexivity|]. now apply generateCacheKey_no_bytes.
  - right. split; [discriminate|].
    apply generateCacheKey_some_bytes. rewrite E. discriminate.
Qed.

(** * Further properties of the orchestrator *)

(** X16 (fetchWithCache). For every non-empty url, whatever the options,
    the origin and the store, [fetchWithCache] throws the TypeError of
    the key derivation and leaves the world as it is: it issues no
    request, reads no cache entry and writes none. *)
Theorem fetchWithCache_throws_unless_empty (url : string) (options : Options)
    (w : World) :
  url <> "" ->
  fetchWithCache url options w
  = (Throw (ThrownError "TypeError" "data.charCodeAt is not a function"), w).
Proof. apply fetchWithCache_nonempty_url. Qed.

Lemma fetchWithCache_throws_unless_empty_witness :
  fetchWithCache "http://b.test/list" no_options (w_store (one_row "0" row_v1))
  = (Throw (ThrownError "TypeError" "data.charCodeAt is not a function"),
     w_store (one_row "0" row_v1)).
Proof.
  apply (fetchWithCache_throws_unless_empty "http://b.test/list"). discriminate.
Defined.

(** X17 (fetchWithCache). When a key is derived and the budget is at
    least one attempt, [fetchWithCache] returns a result and does not
    throw; [success] is [false] exactly when all attempts failed and the
    store delivers no non-empty content for the key. *)
Theorem fetchWithCache_terminal (url key : string) (options : Options) (m : Z)
    (w : World) :
  generateCacheKey (VStr url) = Normal key ->
  or_number (maxRetries options) (Int 3) = Int m ->
  1 <= m ->
  exists r w',
    fetchWithCache url options w = (Normal r, w')
    /\ (success r = false <->
        (exists e w1, fetchWithRetry url options (Some (Int m)) w = (Throw e, w1))
        /\ fallback_content w key = None).
Proof. apply fetchWithCache_returns. Qed.

Lemma fetchWithCache_terminal_witness :
  exists r w',
    fetchWithCache "" no_options (w_store (one_row "0" row_v1)) = (Normal r, w')
    /\ success r = true.
Proof.
  destruct (fetchWithCache_terminal "" "0" no_options 3
              (w_store (one_row "0" row_v1)) eq_refl eq_refl ltac:(lia))
    as (r & w' & Hrun & Hiff).
  exists r, w'. split; [exact Hrun|].
  destruct (success r) eqn:E; [reflexivity|].
  destruct Hiff as [Hfalse _]. destruct (Hfalse eq_refl) as [_ Hnone].
  revert Hnone. vm_compute. discriminate.
Defined.

Lemma or_number_int (a : option JsNumber) : exists m, or_number a (Int 3) = Int m.
Proof.
  destruct a as [[m|]|]; [|now exists 3..].
  unfold or_number. destruct (truthy_number (Int m)); eauto.
Qed.

Lemma runtime_answer_no_scheme (w : World) (n : nat) (url : string)
    (options : Options) (attempt : Z) :
  has_scheme url = false ->
  runtime_answer w n (attempt_request url options attempt)
  = NetworkError "Invalid URL".
Proof. intros H. unfold runtime_answer. cbn [req_url attempt_request]. now rewrite H. Qed.

(** For a string that is no url the loop never returns a body. *)
Lemma retry_loop_no_scheme (url : string) (options : Options) :
  has_scheme url = false ->
  forall (n : nat) (a : Z) (e0 : Thrown) (w : World),
    exists e, (retry_loop url options n a e0 w).1 = Throw e.
Proof.
  intros Hurl.
  destruct (well_formed_cases options) as [Hwf|(base & e' & Hb & He)].
  - induction n as [|n IH]; intros a e0 w; [cbn; eauto|].
    rewrite (retry_loop_S url options Hwf), runtime_answer_no_scheme by exact Hurl.
    cbn [outcome_of]. apply IH.
  - intros n a e0 w. rewrite (retry_loop_ill_formed url options base e' Hb He).
    cbn. eauto.
Qed.

Lemma sent_add_requests (url : string) (options : Options) (k : nat) (w : World) :
  has_scheme url = false ->
  sent (add_requests (attempt_requests url options k) w) = sent w.
Proof.
  intros Hurl. unfold sent. cbn [requests add_requests].
  rewrite List.filter_app.
  assert (H : List.filter (fun r => has_scheme (req_url r))
                (attempt_requests url options k) = []).
  { unfold attempt_requests. induction (seq 0 k) as [|j l IH]; [reflexivity|].
    cbn [map List.filter req_url attempt_request]. now rewrite Hurl. }
  rewrite H. apply app_nil_r.
Qed.

Lemma fallback_content_dbBinding (w w' : World) (key : string) :
  dbBinding w' = dbBinding w -> fallback_content w' key = fallback_content w key.
Proof.
  intros H. unfold fallback_content. now rewrite (stored_entry_dbBinding w w' key H).
Qed.

(** What the [catch] branch makes of what [fetchWithRetry] throws. *)
Lemma fetchWithCache_catch (url key : string) (options : Options) (m : Z)
    (w w1 : World) (e : Thrown) :
  generateCacheKey (VStr url) = Normal key ->
  or_number (maxRetries options) (Int 3) = Int m ->
  fetchWithRetry url options (Some (Int m)) w = (Throw e, w1) ->
  fetchWithCache url options w
  = match e with
    | ThrownNull =>
        (Throw (ThrownError "TypeError"
                  "Cannot read properties of null (reading 'message')"), w1)
    | ThrownError _ message =>
        (Normal (match fallback_content w1 key with
                 | Some stored => fallback_result stored
                 | None => failure_result message
                 end), w1)
    end.
Proof.
  intros Hkey Hbudget Hrun.
  unfold fetchWithCache. step_bind.
  unfold lift. rewrite Hkey, Hbudget.
  unfold try_catch. step_bind. rewrite Hrun.
  destruct e as [|name message]; [reflexivity|].
  step_bind. cbn [error_message].
  step_bind.
  rewrite getCachedContent_run.
  unfold fallback_content.
  destruct (stored_entry w1 key) as [row|]; [|reflexivity].
  destruct (Z.abs (created_at row) <=? 8640000000000000); [|reflexivity].
  cbn [andb cached_of cached_content truthy].
  destruct (String.eqb (row_content row) ""); reflexivity.
Qed.

(** What [fetchWithCache] does on the one string for which a key is
    derived. *)
Lemma fetchWithCache_empty_url (options : Options) (m : Z) (w : World) :
  or_number (maxRetries options) (Int 3) = Int m ->
  exists e k,
    (k <= Z.to_nat m)%nat
    /\ fetchWithRetry "" options (Some (Int m)) w
       = (Throw e, add_requests (attempt_requests "" options k) w)
    /\ (well_formed options -> k = Z.to_nat m)
    /\ (~ well_formed options -> k = O)
    /\ fetchWithCache "" options w
       = match e with
         | ThrownNull =>
             (Throw (ThrownError "TypeError"
                       "Cannot read properties of null (reading 'message')"),
              add_requests (attempt_requests "" options k) w)
         | ThrownError _ message =>
             (Normal (match fallback_content w "0" with
                      | Some stored => fallback_result stored
                      | None => failure_result message
                      end),
              add_requests (attempt_requests "" options k) w)
         end.
Proof.
  intros Hbudget.
  assert (Hlog : exists e k,
             (k <= Z.to_nat m)%nat
             /\ fetchWithRetry "" options (Some (Int m)) w
                = (Throw e, add_requests (attempt_requests "" options k) w)
             /\ (well_formed options -> k = Z.to_nat m)
             /\ (~ well_formed options -> k = O)).
  { destruct (well_formed_cases options) as [Hwf|(base & e' & Hb & He)].
    - destruct (Z.to_nat m) as [|n] eqn:E.
      + exists ThrownNull, O. rewrite fetchWithRetry_unfold, E.
        cbn [retry_loop]. unfold throw. rewrite add_requests_nil.
        split; [lia|]. split; [reflexivity|]. split; [reflexivity|].
        intros Hno. contradiction.
      + destruct (fetchWithRetry_exhausted "" options Hwf m w ltac:(lia))
          as (e & Hrun & _).
        { intros attempt _. unfold reply_to.
          now rewrite runtime_answer_no_scheme. }
        rewrite E in Hrun. exists e, (S n). rewrite Hrun.
        split; [lia|]. split; [reflexivity|]. split; [reflexivity|].
        intros Hno. contradiction.
    - exists (match Z.to_nat m with O => ThrownNull | S _ => e' end), O.
      rewrite fetchWithRetry_unfold,
        (retry_loop_ill_formed "" options base e' Hb He).
      unfold attempt_requests. cbn [seq map]. rewrite add_requests_nil.
      split; [lia|]. split; [reflexivity|]. split; [|reflexivity].
      intros [h Hh]. rewrite Hb in Hh.
      change (default [] (Some base)) with base in Hh. congruence. }
  destruct Hlog as (e & k & Hk & Hrun & Hwf & Hill).
  exists e, k. repeat split; try assumption.
  rewrite (fetchWithCache_catch "" "0" options m w _ e eq_refl Hbudget Hrun).
  destruct e as [|name message]; [reflexivity|].
  now rewrite (fallback_content_dbBinding w
                 (add_requests (attempt_requests "" options k) w) "0" eq_refl).
Qed.

(** X18 (fetchWithCache, saveToCache). Whatever the url, the options,
    the origin and the store, [fetchWithCache] never returns fresh
    content and never saves any: a non-empty url throws in the key
    derivation, and the empty string, the one argument for which a key
    is derived, is no url for [fetch]. So every call leaves the store and
    the clock as they are and adds no call that went to the origin; a
    result, when there is one, is the content stored under the key "0"
    with the warning, or a failure with an error message. *)
Theorem fetchWithCache_never_fresh (url : string) (options : Options) (w : World) :
  dbBinding (fetchWithCache url options w).2 = dbBinding w
  /\ clock (fetchWithCache url options w).2 = clock w
  /\ sent (fetchWithCache url options w).2 = sent w
  /\ (forall body, (fetchWithCache url options w).1 <> Normal (fresh_result body))
  /\ (forall r,
        (fetchWithCache url options w).1 = Normal r ->
        url = ""
        /\ ((exists stored,
               fallback_content w "0" = Some stored /\ r = fallback_result stored)
            \/ (fallback_content w "0" = None
                /\ exists message, r = failure_result message))).
Proof.
  assert (Hshape : forall (c : Completion Result) body,
            (forall r, c = Normal r ->
               url = ""
               /\ ((exists stored,
                      fallback_content w "0" = Some stored
                      /\ r = fallback_result stored)
                   \/ (fallback_content w "0" = None
                       /\ exists message, r = failure_result message))) ->
            c <> Normal (fresh_result body)).
  { intros c body H Hc.
    destruct (H _ Hc) as [_ [(stored & _ & Hr)|(_ & message & Hr)]];
      discriminate Hr. }
  cut (dbBinding (fetchWithCache url options w).2 = dbBinding w
       /\ clock (fetchWithCache url options w).2 = clock w
       /\ sent (fetchWithCache url options w).2 = sent w
       /\ (forall r,
             (fetchWithCache url options w).1 = Normal r ->
             url = ""
             /\ ((exists stored,
                    fallback_content w "0" = Some stored
                    /\ r = fallback_result stored)
                 \/ (fallback_content w "0" = None
                     /\ exists message, r = failure_result message)))).
  { intros (Hdb & Hclock & Hsent & Hres).
    split; [exact Hdb|]. split; [exact Hclock|]. split; [exact Hsent|].
    split; [|exact Hres]. intros body. now apply Hshape. }
  clear Hshape.
  destruct (String.eqb_spec url "") as [->|Hurl].
  - destruct (or_number_int (maxRetries options)) as [m Hbudget].
    destruct (fetchWithCache_empty_url options m w Hbudget)
      as (e & k & _ & _ & _ & _ & Hrun).
    rewrite Hrun. destruct e as [|name message]; cbn [fst snd].
    + split; [reflexivity|]. split; [reflexivity|].
      split; [now apply sent_add_requests|]. intros r Hr. discriminate Hr.
    + split; [reflexivity|]. split; [reflexivity|].
      split; [now apply sent_add_requests|].
      intros r [= <-]. split; [reflexivity|].
      destruct (fallback_content w "0") as [stored|]; eauto.
  - rewrite (fetchWithCache_nonempty_url url options w Hurl). cbn [fst snd].
    split; [reflexivity|]. split; [reflexivity|]. split; [reflexivity|].
    intros r Hr. discriminate Hr.
Qed.

(** X19 (fetchWithCache, fetchWithRetry). How often [fetchWithCache]
    calls [fetch]: not once for a non-empty url, which throws in front
    of the [try]; not once when the constructor refuses the headers of
    the options; and for the empty string with headers it accepts,
    exactly as often as the budget says (none for a negative one), each
    call with the headers of its attempt. In no case is a failure
    recorded: the table of the store is as before. *)
Theorem fetchWithCache_failure_keeps_store (url : string) (options : Options)
    (m : Z) (w : World) :
  or_number (maxRetries options) (Int 3) = Int m ->
  table_of (fetchWithCache url options w).2 = table_of w
  /\ (url <> "" -> requests (fetchWithCache url options w).2 = requests w)
  /\ (~ well_formed options ->
      requests (fetchWithCache url options w).2 = requests w)
  /\ (url = "" ->
      well_formed options ->
      requests (fetchWithCache url options w).2
      = (requests w ++ attempt_requests url options (Z.to_nat m))%list
      /\ Z.of_nat (length (requests (fetchWithCache url options w).2))
         = Z.of_nat (length (requests w)) + Z.max 0 m).
Proof.
  intros Hbudget.
  destruct (String.eqb_spec url "") as [->|Hurl].
  - destruct (fetchWithCache_empty_url options m w Hbudget)
      as (e & k & _ & _ & Hwf & Hill & Hrun).
    assert (Hw : (fetchWithCache "" options w).2
                 = add_requests (attempt_requests "" options k) w)
      by (rewrite Hrun; now destruct e).
    rewrite Hw. split; [reflexivity|]. split; [contradiction|]. split.
    + intros Hno. rewrite (Hill Hno). cbn. apply app_nil_r.
    + intros _ Hyes. rewrite (Hwf Hyes). cbn [requests add_requests].
      split; [reflexivity|]. rewrite length_app, length_attempt_requests. lia.
  - rewrite (fetchWithCache_nonempty_url url options w Hurl). cbn [snd].
    split; [reflexivity|]. split; [reflexivity|]. split; [reflexivity|].
    intros Hempty. contradiction.
Qed.

Lemma fetchWithCache_failure_keeps_store_witness :
  table_of (fetchWithCache "" no_options (w_store (one_row "0" row_v1))).2
  = one_row "0" row_v1
  /\ length (requests (fetchWithCache "" no_options
                         (w_store (one_row "0" row_v1))).2) = 3%nat
  /\ requests (fetchWithCache "https://a.test/sub" no_options
                 (w_store (one_row "0" row_v1))).2 = [].
Proof.
  destruct (fetchWithCache_failure_keeps_store "" no_options 3
              (w_store (one_row "0" row_v1)) eq_refl)
    as (Htable & _ & _ & Hcalls).
  destruct (fetchWithCache_failure_keeps_store "https://a.test/sub" no_options 3
              (w_store (one_row "0" row_v1)) eq_refl)
    as (_ & Hnone & _).
  destruct (Hcalls eq_refl (well_formed_no_headers no_options eq_refl))
    as [_ Hlen].
  split; [exact Htable|]. split; [|apply Hnone; discriminate].
  cbn in Hlen. lia.
Defined.

(** * The worker's routes *)

Lemma is_remote_nonempty (s : string) : is_remote s = true -> s <> "".
Proof. intros H ->. discriminate H. Qed.

Lemma prefix_app (s1 s2 : string) :
  String.prefix s1 s2 = true -> exists rest, s2 = (s1 ++ rest)%string.
Proof.
  revert s2. induction s1 as [|c s1 IH]; intros s2 H.
  - exists s2. reflexivity.
  - destruct s2 as [|c' s2]; [discriminate H|]. cbn in H.
    destruct (ascii_dec c c') as [->|_]; [|discriminate H].
    destruct (IH s2 H) as (rest & ->). exists rest. reflexivity.
Qed.

Section XrayProperties.

Context (trim : string -> string)
        (tryDecodeSubscriptionLines : option string -> bool -> Completion Decoded)
        (encodeBase64 : string -> Completion string).

Lemma xray_proxies_cons (cacheEnabled : bool) (userAgent : string) (hs : Headers)
    (proxy : string) (rest final : list string) (w : World) :
  xray_proxies trim tryDecodeSubscriptionLines cacheEnabled userAgent hs
    (proxy :: rest) final w
  = match xray_proxy trim tryDecodeSubscriptionLines cacheEnabled userAgent hs
            final proxy w with
    | (Normal final', w') =>
        xray_proxies trim tryDecodeSubscriptionLines cacheEnabled userAgent hs
          rest final' w'
    | (Throw e, w') => (Throw e, w')
    end.
Proof. reflexivity. Qed.

(** With the cache enabled a remote line is skipped: [fetchWithCache]
    throws on its url, the [catch] swallows the error. *)
Lemma xray_proxy_cached_remote (userAgent : string) (hs : Headers)
    (final : list string) (proxy : string) (w : World) :
  is_remote (trim proxy) = true ->
  xray_proxy trim tryDecodeSubscriptionLines true userAgent hs final proxy w
  = (Normal final, w).
Proof.
  intros Hremote. pose proof (is_remote_nonempty _ Hremote) as Hne.
  unfold xray_proxy, truthy.
  destruct (String.eqb_spec (trim proxy) ""); [contradiction|].
  cbn [negb]. rewrite Hremote. unfold try_catch, mbind, M_bind.
  rewrite (fetchWithCache_nonempty_url _ _ _ Hne). reflexivity.
Qed.

Lemma xray_proxy_local_world (cacheEnabled : bool) (userAgent : string)
    (hs : Headers) (final : list string) (proxy : string) (w : World) :
  is_remote (trim proxy) = false ->
  (xray_proxy trim tryDecodeSubscriptionLines cacheEnabled userAgent hs
     final proxy w).2 = w.
Proof.
  intros Hremote. unfold xray_proxy. rewrite Hremote.
  destruct (negb (truthy (VStr (trim proxy)))); [reflexivity|].
  unfold mbind, M_bind, lift.
  destruct (tryDecodeSubscriptionLines (Some (trim proxy)) false); reflexivity.
Qed.

Lemma xray_proxies_cached (userAgent : string) (hs : Headers)
    (proxylist : list string) :
  forall (final : list string) (w : World),
    xray_proxies trim tryDecodeSubscriptionLines true userAgent hs proxylist final w
    = xray_proxies trim tryDecodeSubscriptionLines true userAgent hs
        (List.filter (fun proxy => negb (is_remote (trim proxy))) proxylist) final w
    /\ (xray_proxies trim tryDecodeSubscriptionLines true userAgent hs
          proxylist final w).2 = w.
Proof.
  induction proxylist as [|proxy rest IH]; intros final w.
  - split; reflexivity.
  - cbn [List.filter].
    destruct (is_remote (trim proxy)) eqn:Hremote; cbn [negb].
    + rewrite xray_proxies_cons, xray_proxy_cached_remote by exact Hremote.
      apply IH.
    + rewrite !xray_proxies_cons.
      pose proof (xray_proxy_local_world true userAgent hs final proxy w Hremote)
        as Hw.
      destruct (xray_proxy trim tryDecodeSubscriptionLines true userAgent hs
                  final proxy w) as [[final'|e] w'];
        cbn [snd] in Hw; subst w'.
      * apply IH.
      * split; reflexivity.
Qed.

Lemma handle_xray_world (config ua cache : option string) (w : World) :
  (forall userAgent hs proxylist final,
     (xray_proxies trim tryDecodeSubscriptionLines (cacheEnabled_of cache)
        userAgent hs proxylist final w).2 = w) ->
  (handle_xray trim tryDecodeSubscriptionLines encodeBase64 config ua cache w).2 = w.
Proof.
  intros H. unfold handle_xray.
  destruct config as [inputString|]; [|reflexivity].
  destruct (negb (truthy (VStr inputString))); [reflexivity|].
  unfold mbind at 1. unfold M_bind at 1. unfold lift at 1.
  destruct (Headers_new _) as [hs0|e0]; [|reflexivity].
  unfold mbind at 1. unfold M_bind at 1.
  match goal with
  | |- context [xray_proxies _ _ ?c ?u ?h ?l ?f w] =>
      specialize (H u h l f);
      destruct (xray_proxies trim tryDecodeSubscriptionLines c u h l f w)
        as [[final|e] w']
  end; cbn [snd] in H; subst w'; [|reflexivity].
  destruct (negb (truthy (VStr (join_lines final)))); [reflexivity|].
  unfold mbind, M_bind, lift.
  destruct (encodeBase64 (join_lines final)); reflexivity.
Qed.

(** With the cache disabled a remote line costs exactly one call of
    [fetch], whatever the answer, and the round ends normally. *)
Lemma xray_proxy_direct (userAgent : string) (hs : Headers)
    (final : list string) (proxy : string) (w : World) :
  is_remote (trim proxy) = true ->
  exists final',
    xray_proxy trim tryDecodeSubscriptionLines false userAgent hs final proxy w
    = (Normal final', add_request (direct_request hs (trim proxy)) w).
Proof.
  intros Hremote. pose proof (is_remote_nonempty _ Hremote) as Hne.
  unfold xray_proxy, truthy.
  destruct (String.eqb_spec (trim proxy) ""); [contradiction|].
  cbn [negb]. rewrite Hremote. unfold try_catch, mbind, M_bind, fetch.
  cbn [fill_headers]. fold (direct_request hs (trim proxy)).
  destruct (runtime_answer w (length (requests w)) (direct_request hs (trim proxy)))
    as [message|status statusText body|status statusText message];
    [eexists; reflexivity| |].
  - destruct (negb (ok _)); [eexists; reflexivity|].
    unfold lift. cbn [resp_text].
    destruct (tryDecodeSubscriptionLines _ true); eexists; reflexivity.
  - destruct (negb (ok _)); eexists; reflexivity.
Qed.

Lemma xray_proxies_direct (userAgent : string) (hs : Headers)
    (proxylist : list string) :
  forall (final : list string) (w : World),
  exists rs more,
    (xray_proxies trim tryDecodeSubscriptionLines false userAgent hs
       proxylist final w).2 = add_requests rs w
    /\ map (direct_request hs) (List.filter is_remote (map trim proxylist))
       = (rs ++ more)%list
    /\ (forall final',
          (xray_proxies trim tryDecodeSubscriptionLines false userAgent hs
             proxylist final w).1 = Normal final' ->
          more = []).
Proof.
  induction proxylist as [|proxy rest IH]; intros final w.
  - exists [], []. cbn. rewrite add_requests_nil. repeat split.
  - rewrite xray_proxies_cons. cbn [map List.filter].
    destruct (is_remote (trim proxy)) eqn:Hremote.
    + destruct (xray_proxy_direct userAgent hs final proxy w Hremote)
        as (final' & ->).
      destruct (IH final' (add_request (direct_request hs (trim proxy)) w))
        as (rs & more & Hrun & Hall & Hdone).
      exists (direct_request hs (trim proxy) :: rs), more.
      rewrite Hrun, add_request_requests. cbn [map app].
      repeat split; [now rewrite Hall|exact Hdone].
    + pose proof (xray_proxy_local_world false userAgent hs final proxy w Hremote)
        as Hw.
      destruct (xray_proxy trim tryDecodeSubscriptionLines false userAgent hs
                  final proxy w) as [[final'|e] w'];
        cbn [snd] in Hw; subst w'.
      * apply IH.
      * exists [], (map (direct_request hs) (List.filter is_remote (map trim rest))).
        cbn [snd fst]. rewrite add_requests_nil. repeat split. discriminate.
Qed.

End XrayProperties.

(** X20 (handleRequest, /xray with the cache enabled). Unless the request
    says cache=false, /xray downloads nothing: every line of the config
    that is an http(s) url is dropped without a request, because
    [fetchWithCache] throws on it and the [catch] of the loop swallows
    the error; the answer is the one the config gives without those
    lines, and neither the request log nor the store changes. *)
Theorem handle_xray_cached_never_fetches
    (trim : string -> string)
    (tryDecodeSubscriptionLines : option string -> bool -> Completion Decoded)
    (encodeBase64 : string -> Completion string)
    (config ua cache : option string) (w : World) :
  cacheEnabled_of cache = true ->
  (handle_xray trim tryDecodeSubscriptionLines encodeBase64 config ua cache w).2 = w
  /\ (forall userAgent hs proxylist final,
        xray_proxies trim tryDecodeSubscriptionLines true userAgent hs
          proxylist final w
        = xray_proxies trim tryDecodeSubscriptionLines true userAgent hs
            (List.filter (fun proxy => negb (is_remote (trim proxy))) proxylist)
            final w).
Proof.
  intros Hcache. split.
  - apply handle_xray_world. rewrite Hcache. intros userAgent hs proxylist final.
    apply xray_proxies_cached.
  - intros userAgent hs proxylist final. apply xray_proxies_cached.
Qed.

Lemma handle_xray_cached_never_fetches_witness :
  handle_xray no_trim one_line_decoder plain_encoder
    (Some two_line_config) None None w_200
  = (Normal {| response_status := 200; response_body := "vmess://abc";
               response_headers :=
                 [("content-type", "application/json; charset=utf-8")] |},
     w_200).
Proof.
  destruct (handle_xray_cached_never_fetches no_trim one_line_decoder plain_encoder
              (Some two_line_config) None None w_200 eq_refl) as [Hw _].
  rewrite (surjective_pairing (handle_xray _ _ _ _ _ _ _)), Hw.
  f_equal.
Defined.

Lemma handle_xray_direct (trim : string -> string)
    (tryDecodeSubscriptionLines : option string -> bool -> Completion Decoded)
    (encodeBase64 : string -> Completion string)
    (config : string) (ua : option string) (hs : Headers) (w : World) :
  config <> "" ->
  Headers_new [("User-Agent", chosen_userAgent ua)] = Normal hs ->
  exists rs more,
    (handle_xray trim tryDecodeSubscriptionLines encodeBase64
       (Some config) ua (Some "false") w).2 = add_requests rs w
    /\ map (direct_request hs)
         (List.filter is_remote (map trim (split_on LF config)))
       = (rs ++ more)%list
    /\ (forall r,
          (handle_xray trim tryDecodeSubscriptionLines encodeBase64
             (Some config) ua (Some "false") w).1 = Normal r ->
          more = []).
Proof.
  intros Hne Hhs.
  assert (Hc : cacheEnabled_of (Some "false") = false) by reflexivity.
  unfold handle_xray. cbv zeta. fold (chosen_userAgent ua). rewrite Hc.
  unfold truthy. destruct (String.eqb_spec config ""); [contradiction|].
  cbn [negb].
  destruct (xray_proxies_direct trim tryDecodeSubscriptionLines
              (chosen_userAgent ua) hs
              (split_on LF config) [] w) as (rs & more & Hrun & Hall & Hdone).
  exists rs, more. unfold mbind, M_bind, lift. rewrite Hhs.
  destruct (xray_proxies trim tryDecodeSubscriptionLines false _ _ _ _ w)
    as [[final|e] w'] eqn:Hloop; cbn [snd fst] in Hrun, Hdone; subst w'.
  - split; [|split; [exact Hall|intros r _; now apply (Hdone final)]].
    destruct (String.eqb (join_lines final) ""); cbn [negb]; [reflexivity|].
    destruct (encodeBase64 (join_lines final)); reflexivity.
  - split; [reflexivity|]. split; [exact Hall|]. intros r Hr.
    cbn [fst] in Hr. discriminate Hr.
Qed.

(** A user-agent the constructor refuses ends the branch before the
    loop. *)
Lemma handle_xray_refused (trim : string -> string)
    (tryDecodeSubscriptionLines : option string -> bool -> Completion Decoded)
    (encodeBase64 : string -> Completion string)
    (config : string) (ua cache : option string) (e : Thrown) (w : World) :
  config <> "" ->
  Headers_new [("User-Agent", chosen_userAgent ua)] = Throw e ->
  handle_xray trim tryDecodeSubscriptionLines encodeBase64 (Some config) ua cache w
  = (Throw e, w).
Proof.
  intros Hne He. unfold handle_xray. cbv zeta. fold (chosen_userAgent ua).
  unfold truthy. destruct (String.eqb_spec config ""); [contradiction|].
  cbn [negb]. unfold mbind, M_bind, lift. now rewrite He.
Qed.

(** X21 (handleRequest, /xray with cache=false). With the cache disabled
    and a user-agent the [Headers] constructor accepts, /xray calls
    [fetch] once per http(s) line of the config, in the order of the
    lines, with the trimmed line as url, the method GET and, as only
    header, the user-agent of the [ua] parameter (curl/7.74.0 when
    absent or empty) without the white space around it; it never touches
    the store. The loop stops early only when the decoder throws on a
    local line; if a response is returned, every remote line was
    fetched. With a user-agent the constructor refuses, the branch
    throws its [TypeError] in front of the loop and calls nothing. *)
Theorem handle_xray_direct_requests
    (trim : string -> string)
    (tryDecodeSubscriptionLines : option string -> bool -> Completion Decoded)
    (encodeBase64 : string -> Completion string)
    (config : string) (ua : option string) (w : World) :
  config <> "" ->
  (entry_ok "User-Agent" (chosen_userAgent ua) = true ->
   exists rs more,
     requests (handle_xray trim tryDecodeSubscriptionLines encodeBase64
                 (Some config) ua (Some "false") w).2 = (requests w ++ rs)%list
     /\ dbBinding (handle_xray trim tryDecodeSubscriptionLines encodeBase64
                     (Some config) ua (Some "false") w).2 = dbBinding w
     /\ map (direct_request
               {[ "user-agent" := normalize_value (chosen_userAgent ua) ]})
          (List.filter is_remote (map trim (split_on LF config)))
        = (rs ++ more)%list
     /\ (forall r,
           (handle_xray trim tryDecodeSubscriptionLines encodeBase64
              (Some config) ua (Some "false") w).1 = Normal r ->
           more = []))
  /\ (entry_ok "User-Agent" (chosen_userAgent ua) = false ->
      exists message,
        handle_xray trim tryDecodeSubscriptionLines encodeBase64
          (Some config) ua (Some "false") w
        = (Throw (ThrownError "TypeError" message), w)).
Proof.
  intros Hne. split.
  - intros [Hn Hv]%andb_true_iff.
    assert (Hhs : Headers_new [("User-Agent", chosen_userAgent ua)]
                  = Normal {[ "user-agent" := normalize_value (chosen_userAgent ua) ]}).
    { rewrite Headers_new_one, Hn, Hv. reflexivity. }
    destruct (handle_xray_direct trim tryDecodeSubscriptionLines encodeBase64
                config ua _ w Hne Hhs) as (rs & more & Hrun & Hall & Hdone).
    exists rs, more. rewrite Hrun.
    split; [reflexivity|]. split; [reflexivity|]. split; assumption.
  - intros Hbad.
    destruct (Headers_new [("User-Agent", chosen_userAgent ua)]) as [hs|e] eqn:E.
    + exfalso. rewrite Headers_new_one in E. unfold entry_ok in Hbad.
      destruct (header_name_ok "User-Agent"); [|discriminate E].
      destruct (header_value_ok _); [discriminate Hbad|discriminate E].
    + destruct (Headers_new_throws _ _ E) as [message ->]. exists message.
      now apply handle_xray_refused.
Qed.

Lemma handle_xray_direct_requests_witness :
  requests (handle_xray no_trim one_line_decoder plain_encoder
              (Some two_line_config) (Some " x") (Some "false") w_200).2
  = [ {| req_url := "https://a.test/sub"; req_method := "GET";
         req_headers := {[ "user-agent" := "x" ]} |} ].
Proof.
  destruct (handle_xray_direct_requests no_trim one_line_decoder plain_encoder
              two_line_config (Some " x") w_200 ltac:(discriminate))
    as [Hgood _].
  destruct (Hgood eq_refl) as (rs & more & Hreq & _ & Hall & Hdone).
  rewrite Hreq.
  assert (Hmore : more = []).
  { destruct (handle_xray no_trim one_line_decoder plain_encoder
                (Some two_line_config) (Some " x") (Some "false") w_200).1
      as [r|e] eqn:E; [now apply (Hdone r)|].
    exfalso. revert E. vm_compute. discriminate. }
  subst more. rewrite app_nil_r in Hall. rewrite <- Hall. reflexivity.
Defined.

Lemma short_link_paths (pathname : string) :
  is_short_link pathname = true ->
  exists service rest,
    pathname = (String "/" (String service (String "/" rest)))
    /\ In service (list_ascii_of_string "bcxs").
Proof.
  unfold is_short_link. intros H.
  apply orb_prop in H as [H|H]; [apply orb_prop in H as [H|H];
                                  [apply orb_prop in H as [H|H]|]|];
    apply prefix_app in H as (rest & ->); eexists _, rest;
    (split; [reflexivity|cbn; tauto]).
Qed.

Lemma prefix_of_app (s rest : string) : String.prefix s (s ++ rest) = true.
Proof.
  induction s as [|c s IH]; [now destruct rest|].
  rewrite append_cons. cbn. destruct (ascii_dec c c); [exact IH|contradiction].
Qed.

Lemma short_prefix (service : ascii) (rest : string) :
  String.prefix (String "/" (String service "/"))
    (String "/" (String service (String "/" rest))) = true.
Proof. apply (prefix_of_app (String "/" (String service "/")) rest). Qed.

(** X22 (handleRequest, short links). A path under /b/, /c/, /x/ or /s/
    is always routed to the short-link branch, and that branch never
    answers the 404 it contains: when the read of the key-value store
    returns, the answer is a redirect with status 302 to the service
    path followed by the stored value, or by the text "null" for a short
    code the store does not know; when the read throws (an empty or
    over-long short code, a failing store), the branch throws the same,
    no [try] being around it. *)
Theorem short_link_never_not_found
    (kv_get : string -> Completion (option string))
    (t_shortUrlNotFound origin' method pathname : string) :
  is_short_link pathname = true ->
  route method pathname = RouteShortLink
  /\ (forall found,
        kv_get (nth 2 (split_on "/" pathname) "undefined") = Normal found ->
        short_link kv_get t_shortUrlNotFound origin' pathname
        = Normal (RedirectTo
                    (origin' ++ service_of pathname ++ default "null" found) 302))
  /\ (forall e,
        kv_get (nth 2 (split_on "/" pathname) "undefined") = Throw e ->
        short_link kv_get t_shortUrlNotFound origin' pathname = Throw e)
  /\ (forall r,
        short_link kv_get t_shortUrlNotFound origin' pathname
        <> Normal (Respond r)).
Proof.
  intros H.
  assert (Hfound : forall found,
            kv_get (nth 2 (split_on "/" pathname) "undefined") = Normal found ->
            short_link kv_get t_shortUrlNotFound origin' pathname
            = Normal (RedirectTo
                        (origin' ++ service_of pathname ++ default "null" found)
                        302)).
  { intros found Hget. unfold short_link, service_of. cbv zeta. rewrite Hget.
    unfold mbind, Completion_bind. unfold is_short_link in H.
    destruct (String.prefix "/b/" pathname);
      [destruct found; reflexivity|].
    destruct (String.prefix "/c/" pathname);
      [destruct found; reflexivity|].
    destruct (String.prefix "/x/" pathname);
      [destruct found; reflexivity|].
    cbn [orb] in H. rewrite H. destruct found; reflexivity. }
  assert (Hthrow : forall e,
            kv_get (nth 2 (split_on "/" pathname) "undefined") = Throw e ->
            short_link kv_get t_shortUrlNotFound origin' pathname = Throw e).
  { intros e Hget. unfold short_link. cbv zeta. now rewrite Hget. }
  split; [|split; [exact Hfound|split; [exact Hthrow|]]].
  - destruct (short_link_paths pathname H) as (service & rest & -> & Hs).
    unfold route. rewrite H. cbn in Hs.
    destruct (String.eqb method "GET");
      destruct Hs as [<-|[<-|[<-|[<-|[]]]]]; reflexivity.
  - intros r.
    destruct (kv_get (nth 2 (split_on "/" pathname) "undefined"))
      as [found|e] eqn:Hget.
    + rewrite (Hfound found eq_refl). discriminate.
    + rewrite (Hthrow e eq_refl). discriminate.
Qed.

Lemma short_link_never_not_found_witness :
  route "GET" "/b/nosuch" = RouteShortLink
  /\ short_link (fun _ => Normal None) "Short URL not found" "https://w.test"
       "/b/nosuch"
     = Normal (RedirectTo "https://w.test/singboxnull" 302).
Proof.
  destruct (short_link_never_not_found (fun _ => Normal None)
              "Short URL not found" "https://w.test" "GET" "/b/nosuch" eq_refl)
    as (Hroute & Hfound & _).
  split; [exact Hroute|exact (Hfound None eq_refl)].
Defined.

Lemma getCacheStats_shapes (w : World) :
  (exists totalCached withSuccess,
     store_usable w = true
     /\ getCacheStats w
        = (Normal [("totalCached", VNum (Int totalCached));
                   ("withSuccess", VNum (Int withSuccess))], w))
  \/ (exists message,
        store_usable w = false
        /\ getCacheStats w = (Normal [("error", VStr message)], w)).
Proof.
  unfold store_usable. destruct (dbBinding w) as [[fails table]|] eqn:Hdb.
  - destruct fails.
    + right. eexists. split; [reflexivity|].
      unfold getCacheStats, mbind, M_bind, getDb, try_catch, d1_query.
      rewrite Hdb. reflexivity.
    + left. eexists _, _. split; [reflexivity|].
      apply (getCacheStats_run w table). exact Hdb.
  - right. eexists. split; [reflexivity|].
    unfold getCacheStats, mbind, M_bind, getDb. rewrite Hdb. reflexivity.
Qed.

Lemma clearAllCache_unusable (w : World) :
  store_usable w = false -> clearAllCache w = (Normal false, w).
Proof.
  intros H. unfold clearAllCache, mbind, M_bind, getDb, try_catch, d1_run.
  destruct (store_usable_false w H) as [->|(db & -> & ->)]; reflexivity.
Qed.

(** X23 (handleRequest, /cache-stats and /cache-clear). The body of
    /cache-stats says [d1Initialized: true] in every state of the store:
    beside the two counts when the store runs, and beside an [error]
    when no store is bound or its statements fail. The body of
    /cache-clear says [success: true] exactly when the store runs, and
    then no row is left. Neither route throws. *)
Theorem maintenance_routes (w : World) :
  (exists body,
     cache_stats_body w = (Normal body, w)
     /\ property "d1Initialized" body = Some (VBool true)
     /\ (store_usable w = false ->
         exists message,
           body = [("d1Initialized", VBool true); ("error", VStr message)]))
  /\ (exists w',
        cache_clear_body w
        = (Normal [("success", VBool (store_usable w));
                   ("message",
                    VStr (if store_usable w then "All cache cleared"
                          else "Failed to clear cache"))], w')
        /\ (store_usable w = true -> table_of w' = ∅)
        /\ (store_usable w = false -> w' = w)).
Proof.
  split.
  - unfold cache_stats_body, mbind, M_bind.
    destruct (getCacheStats_shapes w)
      as [(a & b & Hu & ->)|(message & Hu & ->)].
    + eexists. split; [reflexivity|]. split; [reflexivity|].
      intros H. congruence.
    + eexists. split; [reflexivity|]. split; [reflexivity|].
      intros _. exists message. reflexivity.
  - unfold cache_clear_body, mbind, M_bind.
    destruct (store_usable w) eqn:Hu.
    + unfold store_usable in Hu.
      destruct (dbBinding w) as [[fails table]|] eqn:Hdb; [|discriminate].
      destruct fails; [discriminate|].
      rewrite (clearAllCache_run w table) by exact Hdb.
      eexists. split; [reflexivity|]. split; [reflexivity|discriminate].
    + rewrite (clearAllCache_unusable w Hu).
      eexists. split; [reflexivity|]. split; [discriminate|reflexivity].
Qed.

Lemma maintenance_routes_witness :
  cache_stats_body w_down
  = (Normal [("d1Initialized", VBool true);
             ("error", VStr "D1 database not initialized")], w_down).
Proof.
  destruct (maintenance_routes w_down) as [(body & Hrun & _ & Herr) _].
  rewrite Hrun. destruct (Herr eq_refl) as (message & ->).
  revert Hrun. vm_compute. intros [= ->]. reflexivity.
Defined.

(** The first line of the table definition leaves its parenthesis open:
    [exec] throws on the text, whatever the state of the store. *)
Lemma exec_create_table_throws (db : D1) (w : World) :
  exists message,
    d1_exec db CREATE_TABLE_SQL (fun table => table) w
    = (Throw (new_Error message), w).
Proof.
  unfold d1_exec.
  assert (H : existsb (fun line => 0 <? open_parentheses line false 0)
                (split_on LF CREATE_TABLE_SQL) = true) by (vm_compute; reflexivity).
  rewrite H. eexists. reflexivity.
Qed.

(** X24 (initDatabase). [initDatabase] never throws and never sets the
    flag [dbInitialized]: [db.exec] takes the table definition line by
    line and throws on its first line, the [catch] answers [false]. So
    a call answers the flag as it found it, leaves it as it was, and
    changes nothing but the binding; as the flag starts out [false],
    every call answers [false], and no row of the table and no entry of
    the log is touched. *)
Theorem initDatabase_flag (SUBSCRIPTION_DB : option D1) (s : ModuleState) :
  initDatabase SUBSCRIPTION_DB s
  = (Normal (dbInitialized s),
     {| world := (setDbBinding SUBSCRIPTION_DB (world s)).2;
        dbInitialized := dbInitialized s |})
  /\ dbBinding (setDbBinding SUBSCRIPTION_DB (world s)).2
     = match SUBSCRIPTION_DB with
       | Some db => Some db
       | None => dbBinding (world s)
       end
  /\ requests (setDbBinding SUBSCRIPTION_DB (world s)).2 = requests (world s)
  /\ (dbInitialized s = false ->
      forall db', (initDatabase db' (initDatabase SUBSCRIPTION_DB s).2).1 = Normal false).
Proof.
  assert (Hrun : forall db0 s0,
            initDatabase db0 s0
            = (Normal (dbInitialized s0),
               {| world := (setDbBinding db0 (world s0)).2;
                  dbInitialized := dbInitialized s0 |})).
  { intros db0 s0. unfold initDatabase. cbv zeta.
    destruct (dbBinding (setDbBinding db0 (world s0)).2) as [db|]; [|reflexivity].
    destruct (dbInitialized s0); [reflexivity|].
    destruct (exec_create_table_throws db (setDbBinding db0 (world s0)).2)
      as [message ->]. reflexivity. }
  split; [apply Hrun|]. split; [|split].
  - now destruct SUBSCRIPTION_DB.
  - now destruct SUBSCRIPTION_DB.
  - intros Hflag db'. rewrite !Hrun. cbn [fst snd dbInitialized]. now rewrite Hflag.
Qed.

(** * The commands of the script *)

Lemma escape_read_back (s rest : string) :
  (forall r, rest <> String ScriptCli.quote r) ->
  ScriptCli.read_literal (ScriptCli.escape_quotes s ++ String ScriptCli.quote rest)
  = Some (s, rest).
Proof.
  intros Hrest. induction s as [|c s IH].
  - change (ScriptCli.escape_quotes "" ++ String ScriptCli.quote rest)%string
      with (String ScriptCli.quote rest).
    cbn [ScriptCli.read_literal]. rewrite Ascii.eqb_refl.
    destruct rest as [|c' rest']; [reflexivity|].
    destruct (Ascii.eqb_spec c' ScriptCli.quote) as [->|_]; [|reflexivity].
    now contradiction (Hrest rest').
  - cbn [ScriptCli.escape_quotes].
    destruct (Ascii.eqb_spec c ScriptCli.quote) as [->|Hc].
    + rewrite !append_cons. cbn [ScriptCli.read_literal].
      rewrite !Ascii.eqb_refl, IH. reflexivity.
    + rewrite append_cons. cbn [ScriptCli.read_literal].
      apply Ascii.eqb_neq in Hc. rewrite Hc, IH. reflexivity.
Qed.

Lemma escape_quotes_id (s : string) :
  ~ In ScriptCli.quote (list_ascii_of_string s) -> ScriptCli.escape_quotes s = s.
Proof.
  induction s as [|c s IH]; [reflexivity|]. cbn [list_ascii_of_string In].
  intros H. cbn [ScriptCli.escape_quotes].
  destruct (Ascii.eqb_spec c ScriptCli.quote) as [->|_]; [tauto|].
  rewrite IH; [reflexivity|tauto].
Qed.

Lemma is_lower_hex_not_quote : ~ is_lower_hex ScriptCli.quote.
Proof.
  unfold is_lower_hex. cbn. intros H.
  repeat (destruct H as [H|H]; [discriminate H|]). exact H.
Qed.

(** The keys of the script hold no quote, so they need no escaping. *)
Lemma script_key_no_quote (url : JsVal) :
  ScriptCli.escape_quotes (Script.generateCacheKey url) = Script.generateCacheKey url.
Proof.
  apply escape_quotes_id. rewrite script_generateCacheKey_spec.
  assert (Hsentinel : ~ In ScriptCli.quote (list_ascii_of_string "invalid-url")).
  { cbn. intros H. repeat (destruct H as [H|H]; [discriminate H|]). exact H. }
  destruct url as [| |b|n|s]; try exact Hsentinel.
  destruct (String.eqb s ""); [exact Hsentinel|].
  destruct (key_of_hash_hex (ToInt32 (poly31 (bytes_of_string s)))) as [Hhex _].
  intros Hin. rewrite Forall_forall in Hhex.
  apply is_lower_hex_not_quote, Hhex, list_elem_of_In, Hin.
Qed.

Lemma string_app_assoc (a b c : string) :
  ((a ++ b) ++ c)%string = (a ++ (b ++ c))%string.
Proof.
  induction a as [|x a IH]; [reflexivity|]. rewrite !append_cons. now rewrite IH.
Qed.

Lemma strip_app (p s : string) : ScriptCli.strip p (p ++ s) = Some s.
Proof.
  induction p as [|c p IH]; [reflexivity|].
  rewrite append_cons. cbn [ScriptCli.strip]. now rewrite Ascii.eqb_refl.
Qed.

Lemma comma_not_quote (tail : string) (r : string) :
  String "," tail <> String ScriptCli.quote r.
Proof. intros H. discriminate H. Qed.

Lemma read_literal_before_comma (s tail : string) :
  ScriptCli.read_literal
    (ScriptCli.escape_quotes s ++ String ScriptCli.quote (String "," tail))
  = Some (s, String "," tail).
Proof. apply escape_read_back. intros r H. discriminate H. Qed.

Lemma read_values_spec (cacheKey url content' : string) (now : Z) :
  ScriptCli.escape_quotes cacheKey = cacheKey ->
  ScriptCli.read_values
    (ScriptCli.values_sql cacheKey (ScriptCli.escape_quotes url)
       (ScriptCli.escape_quotes content') now)
  = Some (cacheKey, url, content',
          (", " ++ int_toString 10 now ++ ", " ++ int_toString 10 now
           ++ ", 1, 0);")%string).
Proof.
  intros Hkey. unfold ScriptCli.read_values, ScriptCli.values_sql.
  rewrite strip_app. cbn [mbind option_bind].
  rewrite <- Hkey at 1.
  change ("', '" ++ ScriptCli.escape_quotes url ++ ?x)%string
    with (String ScriptCli.quote
            (String "," (" '" ++ ScriptCli.escape_quotes url ++ x)))%string.
  rewrite (read_literal_before_comma cacheKey). cbn [mbind option_bind].
  change (String "," (" '" ++ ScriptCli.escape_quotes url ++ ?x))%string
    with (", '" ++ (ScriptCli.escape_quotes url ++ x))%string.
  rewrite strip_app. cbn [mbind option_bind].
  change ("', '" ++ ScriptCli.escape_quotes content' ++ ?x)%string
    with (String ScriptCli.quote
            (String "," (" '" ++ ScriptCli.escape_quotes content' ++ x)))%string.
  rewrite (read_literal_before_comma url). cbn [mbind option_bind].
  change (String "," (" '" ++ ScriptCli.escape_quotes content' ++ ?x))%string
    with (", '" ++ (ScriptCli.escape_quotes content' ++ x))%string.
  rewrite strip_app. cbn [mbind option_bind].
  change ("', " ++ ?x)%string
    with (String ScriptCli.quote (String "," (" " ++ x)))%string.
  rewrite (read_literal_before_comma content'). reflexivity.
Qed.

(** X25 (insertCache, fixCache of scripts/cache.js). Doubling the quotes
    is enough to keep the url and the content inside their literals:
    read back as SQL string literals, the three literals of the VALUES
    line are the key, the url and the content exactly, whatever quotes
    the url and the content hold, and what follows is the rest of the
    line with the time and the counters 1 and 0. *)
Theorem insertCache_sql_reads_back (url content' : string) (now : Z) :
  exists head,
    ScriptCli.insertCache_sql url content' now
    = (head ++ ScriptCli.values_sql (Script.generateCacheKey (VStr url))
                 (ScriptCli.escape_quotes url)
                 (ScriptCli.escape_quotes content') now)%string
    /\ ScriptCli.read_values
         (ScriptCli.values_sql (Script.generateCacheKey (VStr url))
            (ScriptCli.escape_quotes url) (ScriptCli.escape_quotes content') now)
       = Some (Script.generateCacheKey (VStr url), url, content',
               (", " ++ int_toString 10 now ++ ", " ++ int_toString 10 now
                ++ ", 1, 0);")%string).
Proof.
  exists ("INSERT OR REPLACE INTO subscription_cache" ++ String LF
            ("(cache_key, url, content, created_at, updated_at, success_count, fail_count)"
             ++ String LF ""))%string.
  split.
  - unfold ScriptCli.insertCache_sql, ScriptCli.insert_sql.
    rewrite string_app_assoc, (append_cons LF), string_app_assoc, (append_cons LF).
    reflexivity.
  - apply read_values_spec, script_key_no_quote.
Qed.

(** X26 (insertCache, fixCache, deleteCache of scripts/cache.js, read by
    getCachedContent). On the table, [fix] does what [insert] does: the
    DELETE in front of INSERT OR REPLACE changes nothing. Both leave the
    entry of the url's key with the content given, the time of the
    command as creation time and the counters reset to one success and
    no failure, whatever they were; the worker reads exactly that back
    under the key; the other entries stay; and [delete] leaves no entry
    for the key. *)
Theorem script_insert_fix_delete (url content' : string) (now : Z)
    (table : gmap string Row) :
  valid_time now ->
  ScriptCli.fixCache url content' now table
  = ScriptCli.insertCache url content' now table
  /\ (forall w,
        store_ready w (ScriptCli.insertCache url content' now table) ->
        getCachedContent (Script.generateCacheKey (VStr url)) w
        = (Normal (Some {| cached_content := content'; successCount := 1;
                           failCount := 0; createdAt := now |}), w))
  /\ (forall other,
        other <> Script.generateCacheKey (VStr url) ->
        ScriptCli.insertCache url content' now table !! other = table !! other)
  /\ (forall w,
        store_ready w
          (ScriptCli.deleteCache url (ScriptCli.insertCache url content' now table)) ->
        getCachedContent (Script.generateCacheKey (VStr url)) w = (Normal None, w)).
Proof.
  intros Ht. unfold ScriptCli.fixCache, ScriptCli.insertCache, ScriptCli.deleteCache,
    ScriptCli.insert_row.
  split; [apply insert_delete_eq|]. split; [|split].
  - intros w Hw.
    rewrite (getCachedContent_hit _ w
               {| row_url := url; row_content := content';
                  created_at := now; updated_at := now;
                  success_count := 1; fail_count := 0 |}).
    + reflexivity.
    + rewrite (stored_entry_ready _ _ _ Hw). apply lookup_insert_eq.
    + exact Ht.
  - intros other Hne. now apply lookup_insert_ne.
  - intros w Hw. apply getCachedContent_miss.
    rewrite (stored_entry_ready _ _ _ Hw). apply lookup_delete_eq.
Qed.

Lemma script_insert_fix_delete_witness :
  ScriptCli.fixCache "https://a.test/sub" "X" 3000 (one_row "1df34a3f" row_v1)
  = ScriptCli.insertCache "https://a.test/sub" "X" 3000 (one_row "1df34a3f" row_v1)
  /\ getCachedContent "1df34a3f"
       (w_store (ScriptCli.insertCache "https://a.test/sub" "X" 3000
                   (one_row "1df34a3f" row_v1)))
     = (Normal (Some {| cached_content := "X"; successCount := 1;
                        failCount := 0; createdAt := 3000 |}),
        w_store (ScriptCli.insertCache "https://a.test/sub" "X" 3000
                   (one_row "1df34a3f" row_v1))).
Proof.
  destruct (script_insert_fix_delete "https://a.test/sub" "X" 3000
              (one_row "1df34a3f" row_v1)) as (Hfix & Hread & _).
  - unfold valid_time. cbn. lia.
  - split; [exact Hfix|].
    change "1df34a3f" with (Script.generateCacheKey (VStr "https://a.test/sub")) at 1.
    apply Hread. reflexivity.
Defined.

(** * The two statistics *)

Lemma sql_sum_default (f : Row -> Z) (table : gmap string Row) :
  default 0 (sql_sum f table)
  = foldr (fun row acc => f row + acc) 0 (map_to_list table).*2.
Proof. unfold sql_sum. destruct ((map_to_list table).*2); reflexivity. Qed.

Lemma sum_rows_permutation (f : Row -> Z) (rows rows' : list Row) :
  rows ≡ₚ rows' ->
  foldr (fun row acc => f row + acc) 0 rows
  = foldr (fun row acc => f row + acc) 0 rows'.
Proof.
  induction 1 as [|x l l' _ IH|x y l|l l' l'' _ IH1 _ IH2]; cbn; lia.
Qed.

Lemma sum_rows_insert (f : Row -> Z) (table : gmap string Row) (key : string)
    (row : Row) :
  table !! key = None ->
  foldr (fun row acc => f row + acc) 0 (map_to_list (<[key := row]> table)).*2
  = f row + foldr (fun row acc => f row + acc) 0 (map_to_list table).*2.
Proof.
  intros Hnone.
  rewrite (sum_rows_permutation f _ (row :: (map_to_list table).*2)); [reflexivity|].
  change (row :: (map_to_list table).*2) with (((key, row) :: map_to_list table).*2).
  apply fmap_Permutation. now apply map_to_list_insert.
Qed.

Lemma with_success_le_sum (table : gmap string Row) :
  (forall key row, table !! key = Some row -> 0 <= success_count row) ->
  Z.of_nat (size (filter (fun kv : string * Row => 0 < success_count kv.2) table))
  <= foldr (fun row acc => success_count row + acc) 0 (map_to_list table).*2.
Proof.
  induction table as [|key row table Hnone _ IH] using map_first_key_ind.
  - intros _. rewrite map_filter_empty, map_size_empty, map_to_list_empty. cbn. lia.
  - intros Hpos. rewrite sum_rows_insert by exact Hnone.
    assert (Hrow : 0 <= success_count row).
    { apply (Hpos key). apply lookup_insert_eq. }
    assert (Hrest : forall k r, table !! k = Some r -> 0 <= success_count r).
    { intros k r Hk. apply (Hpos k). rewrite lookup_insert_ne; [exact Hk|].
      intros ->. congruence. }
    specialize (IH Hrest).
    destruct (Z.lt_decidable 0 (success_count row)) as [Hlt|Hge].
    + rewrite map_filter_insert_True by exact Hlt.
      rewrite map_size_insert_None
        by (apply map_lookup_filter_None; left; exact Hnone).
      lia.
    + rewrite map_filter_insert_False by exact Hge.
      rewrite delete_id by exact Hnone. lia.
Qed.

(** X27 (getCacheStats of the worker, showStats of the script). The two
    statistics agree on the number of entries, and as long as no success
    counter is negative the number of entries with a success, which the
    worker reports, is at most the sum of the success counters, which
    the script selects (NULL, read as zero, on an empty table). *)
Theorem stats_worker_and_script (w : World) (table : gmap string Row) :
  store_ready w table ->
  (forall key row, table !! key = Some row -> 0 <= success_count row) ->
  exists withSuccess,
    getCacheStats w
    = (Normal [("totalCached", VNum (Int (total (showStats_query table))));
               ("withSuccess", VNum (Int withSuccess))], w)
    /\ withSuccess <= default 0 (total_success (showStats_query table))
    /\ (table = ∅ -> total_success (showStats_query table) = None).
Proof.
  intros Hready Hpos. eexists. split; [apply (getCacheStats_run _ _ Hready)|].
  split.
  - cbn [showStats_query total_success]. rewrite sql_sum_default.
    now apply with_success_le_sum.
  - intros ->. reflexivity.
Qed.

Lemma stats_worker_and_script_witness :
  exists withSuccess,
    getCacheStats (w_store (one_row "0" row_v1))
    = (Normal [("totalCached", VNum (Int 1));
               ("withSuccess", VNum (Int withSuccess))],
       w_store (one_row "0" row_v1))
    /\ withSuccess <= 5.
Proof.
  destruct (stats_worker_and_script (w_store (one_row "0" row_v1))
              (one_row "0" row_v1) eq_refl) as (n & Hrun & Hle & _).
  - intros key row Hrow. unfold one_row in Hrow.
    apply lookup_singleton_Some in Hrow as [_ <-]. cbn. lia.
  - exists n. split; [exact Hrun|exact Hle].
Defined.
